(** * Online removal of cardiac artifacts from surface EMG: the streaming core

    A shallow embedding of the per-sample signal chain of the repository
    (ring-buffer filters, the stationary wavelet filter bank, the QRS
    detector, the heart-rate calculator, the wavelet denoiser, the envelope
    calculator and the channel selection) together with the properties of
    the specification that concern them.

    Samples are Python floats in the source.  Here they are exact rationals
    ([Qc], canonical fractions with Leibniz equality), so "equal within
    floating tolerance" reads as equality.  Python integers are [Z]. *)

From Stdlib Require Import ZArith List Bool Lia Arith.
From Stdlib Require Import QArith Qcanon Qcabs.
Import ListNotations.

Set Implicit Arguments.

Local Open Scope Z_scope.
Local Open Scope Qc_scope.

(** ** Numbers *)

Definition zq (z : Z) : Qc := Q2Qc (inject_Z z).

(** [dec n d] is the decimal fraction n / d. *)
Definition dec (n : Z) (d : positive) : Qc := Q2Qc (n # d).

Definition Qcltb (x y : Qc) : bool :=
  match x ?= y with Lt => true | _ => false end.

Definition Qcleb (x y : Qc) : bool :=
  match x ?= y with Gt => false | _ => true end.

Definition Qceqb (x y : Qc) : bool :=
  match x ?= y with Eq => true | _ => false end.

Definition Qcmax (x y : Qc) : Qc := if Qcltb x y then y else x.

(** ** Python lists and numpy arrays *)

(** [l[i] = v]; the callers below only write inside the array. *)
Fixpoint list_set {A} (i : nat) (v : A) (l : list A) : list A :=
  match l, i with
  | [], _ => []
  | _ :: t, O => v :: t
  | a :: t, S j => a :: list_set j v t
  end.

(** [np.zeros(n)] *)
Definition zeros (n : nat) : list Qc := repeat 0 n.

(** [l[:-1]] *)
Definition drop_last {A} (l : list A) : list A := firstn (length l - 1) l.

(** [l[a:b]] for non-negative bounds *)
Definition slice {A} (a b : nat) (l : list A) : list A :=
  skipn a (firstn b l).

(** Python's [%] for a positive right operand, as an index. *)
Definition pymod (a : Z) (n : nat) : nat := Z.to_nat (Z.modulo a (Z.of_nat n)).

(** ** online_filter.py : OnlineFilter *)

Module OnlineFilter.

Record t := mk {
  type_of_filter : Z;            (* 0 -> FIR, 1 -> IIR *)
  coefficients_in : list Qc;
  coefficients_out : list Qc;    (* the denominator without its head *)
  norm : Qc;
  buffer_input : list Qc;
  buffer_output : list Qc;
  input_pointer : Z;
  output_pointer : Z;
  cnt : Z
}.

(** [OnlineFilter(type_of_filter, coefficients_in, coefficients_out)] *)
Definition init (ty : Z) (c_in c_out : list Qc) : t :=
  {| type_of_filter := ty;
     coefficients_in := c_in;
     coefficients_out := if Z.eqb ty 1 then tl c_out else [];
     norm := if Z.eqb ty 1 then hd 1 c_out else 1;
     buffer_input := zeros (length c_in);
     buffer_output := if Z.eqb ty 1 then zeros (length c_out - 1) else [];
     input_pointer := 0;
     output_pointer := 0;
     cnt := 1 |}.

(** The [while n < len(coefficients_in)] loop of the periodic extension:
    [buffer[n] = buffer[i]], both indices advancing; [fuel] bounds the
    remaining iterations. *)
Fixpoint periodic_extension (fuel : nat) (n i : nat) (buf : list Qc)
  : list Qc :=
  match fuel with
  | O => buf
  | S fuel' => periodic_extension fuel' (S n) (S i)
                 (list_set n (nth i buf 0) buf)
  end.

(** [for idx, i in enumerate(coefficients): ret += i * buffer[(p - 1 - idx) % len]] *)
Fixpoint accumulate (coeffs : list Qc) (buf : list Qc) (p : Z) (len : nat)
    (idx : Z) (ret : Qc) : Qc :=
  match coeffs with
  | [] => ret
  | c :: rest =>
      accumulate rest buf p len (idx + 1)
        (ret + c * nth (pymod (p - 1 - idx) len) buf 0)
  end.

(** The same loop with [ret -= ...], over the output buffer. *)
Fixpoint feedback (coeffs : list Qc) (buf : list Qc) (p : Z) (len : nat)
    (idx : Z) (ret : Qc) : Qc :=
  match coeffs with
  | [] => ret
  | c :: rest =>
      feedback rest buf p len (idx + 1)
        (ret - c * nth (pymod (p - 1 - idx) len) buf 0)
  end.

(** [filter(input_value)]: the new state and the returned value. *)
Definition filter (f : t) (input_value : Qc) : t * Qc :=
  let len := length (coefficients_in f) in
  let p := Z.to_nat (input_pointer f) in
  let buf1 := list_set p input_value (buffer_input f) in
  let buf2 :=
    if Z.eqb (type_of_filter f) 0 && Z.ltb (cnt f) (Z.of_nat len - 1)
    then periodic_extension (len - (p + 1)) (p + 1) 0 buf1
    else buf1 in
  let p' := if Z.eqb (input_pointer f) (Z.of_nat len - 1)
            then 0%Z else (input_pointer f + 1)%Z in
  let ret := accumulate (coefficients_in f) buf2 p' len 0 0 in
  if Z.eqb (type_of_filter f) 1 then
    let lo := length (coefficients_out f) in
    let ret := feedback (coefficients_out f) (buffer_output f)
                 (output_pointer f) lo 0 ret in
    let bo := list_set (Z.to_nat (output_pointer f)) (ret / norm f)
                (buffer_output f) in
    let po := if Z.eqb (output_pointer f) (Z.of_nat lo - 1)
              then 0%Z else (output_pointer f + 1)%Z in
    (mk (type_of_filter f) (coefficients_in f) (coefficients_out f) (norm f)
        buf2 bo p' po (cnt f + 1), ret / norm f)
  else
    let po := if Z.eqb (output_pointer f) (Z.of_nat len)
              then 0%Z else (output_pointer f + 1)%Z in
    (mk (type_of_filter f) (coefficients_in f) (coefficients_out f) (norm f)
        buf2 (buffer_output f) p' po (cnt f + 1), ret / norm f).

End OnlineFilter.

(** ** online_filter_bank.py : FilterBank *)

Module FilterBank.

(** One pass of [get_sampled_coefficients]: an array of [2 * len - 1]
    zeros whose even positions carry the given coefficients. *)
Fixpoint upsample (l : list Qc) : list Qc :=
  match l with
  | [] => []
  | a :: nil => a :: nil
  | a :: t => a :: 0 :: upsample t
  end.

(** The [for i in range(num_levels - 2)] loop: each pass appends the
    upsampled last array. *)
Fixpoint more_levels (n : nat) (last : list Qc) : list (list Qc) :=
  match n with
  | O => []
  | S k => upsample last :: more_levels k (upsample last)
  end.

Definition get_sampled_coefficients (coefficients : list Qc)
    (num_levels : nat) : list (list Qc) :=
  upsample coefficients :: more_levels (num_levels - 2) (upsample coefficients).

Record t := mk {
  num_levels : nat;
  delay : Z;
  buffers : list (list Qc);
  buffer_pointers : list Z;
  decomposition_filter_low : list OnlineFilter.t;
  decomposition_filter_high : list OnlineFilter.t;
  recomposition_filter_low : list OnlineFilter.t;
  recomposition_filter_high : list OnlineFilter.t
}.

(** [[3 * (2 ** i) for i in range(num_levels)]] *)
Definition filter_delays (n : nat) : list Z :=
  map (fun i => (3 * 2 ^ Z.of_nat i)%Z) (seq 0 n).

Definition sumZ (l : list Z) : Z := fold_left Z.add l 0%Z.

(** The loop over [filter_delays[::-1]] that accumulates the buffer lengths. *)
Fixpoint buffer_lengths (acc : Z) (ds : list Z) : list Z :=
  match ds with
  | [] => []
  | d :: rest => (acc + d + 1)%Z :: buffer_lengths (acc + d) rest
  end.

Section Wavelet.

(** The four filters of [pywt.Wavelet('db2').filter_bank]: decomposition
    lowpass and highpass, reconstruction lowpass and highpass.  PyWavelets
    is not part of the repository; its taps are parameters. *)
Variables dec_lo dec_hi rec_lo rec_hi : list Qc.

Definition all_levels (c : list Qc) (n : nat) : list (list Qc) :=
  c :: get_sampled_coefficients c n.

Definition make_filters (c : list Qc) (n : nat) : list OnlineFilter.t :=
  map (fun b => OnlineFilter.init 0 b []) (all_levels c n).

(** [FilterBank(num_levels)] *)
Definition init (n : nat) : t :=
  {| num_levels := n;
     delay := sumZ (filter_delays n);
     buffers := map (fun k => zeros (Z.to_nat k))
                    (buffer_lengths 0 (rev (filter_delays n)));
     buffer_pointers := repeat 0%Z (n - 1);
     decomposition_filter_low := make_filters dec_lo n;
     decomposition_filter_high := make_filters dec_hi n;
     recomposition_filter_low := make_filters rec_lo n;
     recomposition_filter_high := make_filters rec_hi n |}.

End Wavelet.

Definition get_delay (fb : t) : Z := delay fb.

Definition dummy : OnlineFilter.t := OnlineFilter.init 0 [] [].

(** [self.<filters>[i].filter(x)]: the filter at index [i] advances in place. *)
Definition filter_at (fs : list OnlineFilter.t) (i : nat) (x : Qc)
  : list OnlineFilter.t * Qc :=
  let r := OnlineFilter.filter (nth i fs dummy) x in
  (list_set i (fst r) fs, snd r).

(** The [for i in range(self.num_levels - 1)] loop of [swt]; [coeffs] is
    [decomposed_coefficients] (in append order) and [prev] the lowpass
    output of the level before. *)
Fixpoint swt_loop (fuel : nat) (i : nat) (lows highs : list OnlineFilter.t)
    (prev : Qc) (coeffs : list (Qc * Qc))
  : list OnlineFilter.t * list OnlineFilter.t * list (Qc * Qc) :=
  match fuel with
  | O => (lows, highs, coeffs)
  | S fuel' =>
      let '(lows', lo) := filter_at lows (S i) prev in
      let '(highs', hi) := filter_at highs (S i) prev in
      swt_loop fuel' (S i) lows' highs' lo (coeffs ++ [(lo, hi)])
  end.

(** [swt(input_value)]: the coefficient pairs, coarsest level first. *)
Definition swt (fb : t) (input_value : Qc) : t * list (Qc * Qc) :=
  let '(lows0, lo0) := filter_at (decomposition_filter_low fb) 0 input_value in
  let '(highs0, hi0) := filter_at (decomposition_filter_high fb) 0 input_value in
  let '(lows, highs, coeffs) :=
    swt_loop (num_levels fb - 1) 0 lows0 highs0 lo0 [(lo0, hi0)] in
  (mk (num_levels fb) (delay fb) (buffers fb) (buffer_pointers fb)
      lows highs (recomposition_filter_low fb) (recomposition_filter_high fb),
   rev coeffs).

(** The [for i, highpass in enumerate(y_highpasses[1:])] loop of [iswt]. *)
Fixpoint iswt_loop (hs : list Qc) (i : nat) (lows highs : list OnlineFilter.t)
    (bufs : list (list Qc)) (ptrs : list Z) (result_lower_level : Qc)
  : list OnlineFilter.t * list OnlineFilter.t * list (list Qc) * list Z * Qc :=
  match hs with
  | [] => (lows, highs, bufs, ptrs, result_lower_level)
  | highpass :: rest =>
      let '(lows', r_lowpass) :=
        filter_at lows (length lows - (i + 2)) result_lower_level in
      let '(highs', r_highpass) :=
        filter_at highs (length highs - (i + 2)) highpass in
      let buf := nth i bufs [] in
      let p := nth i ptrs 0%Z in
      let buf' := list_set (Z.to_nat p) r_highpass buf in
      let p' := ((p + 1) mod Z.of_nat (length buf))%Z in
      iswt_loop rest (S i) lows' highs' (list_set i buf' bufs)
        (list_set i p' ptrs)
        (nth (Z.to_nat p') buf' 0 + r_lowpass / zq 2)
  end.

(** [iswt(y_lowpass, y_highpasses)] *)
Definition iswt (fb : t) (y_lowpass : Qc) (y_highpasses : list Qc) : t * Qc :=
  let nl := length (recomposition_filter_low fb) in
  let nh := length (recomposition_filter_high fb) in
  let '(lows0, rl) :=
    filter_at (recomposition_filter_low fb) (nl - 1) y_lowpass in
  let '(highs0, rh) :=
    filter_at (recomposition_filter_high fb) (nh - 1) (hd 0 y_highpasses) in
  let '(lows, highs, bufs, ptrs, res) :=
    iswt_loop (tl y_highpasses) 0 lows0 highs0 (buffers fb)
      (buffer_pointers fb) (rl + rh) in
  (mk (num_levels fb) (delay fb) bufs ptrs
      (decomposition_filter_low fb) (decomposition_filter_high fb) lows highs,
   res / zq 2).

(** One tick of the round trip: [swt], then [iswt] on exactly its outputs:
    the lowpass of the coarsest level and all the highpass values. *)
Definition roundtrip (fb : t) (x : Qc) : t * Qc :=
  let '(fb1, coeffs) := swt fb x in
  iswt fb1 (fst (hd (0, 0) coeffs)) (map snd coeffs).

(** The bank after the samples [x 0 .. x (n-1)] went through the round trip. *)
Fixpoint roundtrip_state (fb : t) (x : nat -> Qc) (n : nat) : t :=
  match n with
  | O => fb
  | S k => fst (roundtrip (roundtrip_state fb x k) (x k))
  end.

(** The reconstructed value returned at tick [n]. *)
Definition roundtrip_out (fb : t) (x : nat -> Qc) (n : nat) : Qc :=
  snd (roundtrip (roundtrip_state fb x n) (x n)).

End FilterBank.

(** ** Python exceptions *)

Inductive exn :=
| TypeError | IndexError | ValueError | AxisError | StatisticsError
| AssertionError.

Inductive res (A : Type) :=
| Ok (a : A)
| Raise (e : exn).
Arguments Ok {A} a.
Arguments Raise {A} e.

Definition bind {A B} (r : res A) (k : A -> res B) : res B :=
  match r with
  | Ok a => k a
  | Raise e => Raise e
  end.

Notation "x <- r ;; k" := (bind r (fun x => k))
  (at level 61, r at next level, right associativity).
Notation "' p <- r ;; k" := (bind r (fun v => let p := v in k))
  (at level 61, p pattern, r at next level, right associativity).

(** ** online_envelope.py : EnvelopeCalculator *)

Module EnvelopeCalculator.

Record t := mk {
  delayed : bool;
  buffer : list Qc;      (* the deque, leftmost element first *)
  window_len : Z;
  sum : Qc;
  n : Z
}.

Definition init (delayed : bool) (window_len : Z) : t :=
  mk delayed [] window_len 0 0.

(** [deque.pop()]: removes and returns the rightmost element. *)
Definition pop (b : list Qc) : res (list Qc * Qc) :=
  match b with
  | [] => Raise IndexError
  | _ => Ok (removelast b, last b 0)
  end.

(** The two branches that either let the window grow or drop its oldest
    value; [n < window_len / 2] compares with a true division. *)
Definition advance (e : t) : res t :=
  let grow := if delayed e then (n e <? window_len e)%Z
              else (2 * n e <? window_len e)%Z in
  if grow then Ok (mk (delayed e) (buffer e) (window_len e) (sum e) (n e + 1))
  else
    '(b, v) <- pop (buffer e) ;;
    Ok (mk (delayed e) b (window_len e) (sum e - v) (n e)).

Definition calculate_envelope (e : t) (value : Qc) : res (t * Qc) :=
  e1 <- advance e ;;
  let e2 := mk (delayed e1) (Qcabs value :: buffer e1) (window_len e1)
               (sum e1 + Qcabs value) (n e1) in
  Ok (e2, sum e2 / zq (n e2)).

(** The calculator after the samples [x 0 .. x (k-1)]. *)
Fixpoint state_at (e : t) (x : nat -> Qc) (k : nat) : res t :=
  match k with
  | O => Ok e
  | S j => e' <- state_at e x j ;;
           r <- calculate_envelope e' (x j) ;; Ok (fst r)
  end.

(** The envelope returned at tick [k]. *)
Definition out_at (e : t) (x : nat -> Qc) (k : nat) : res Qc :=
  e' <- state_at e x k ;;
  r <- calculate_envelope e' (x k) ;; Ok (snd r).

End EnvelopeCalculator.

(** ** heartbeat_calculating.py : HeartRateCalculator *)

Module HeartRateCalculator.

Record t := mk {
  delay : Z;
  last_beats : list Z;   (* age of each retained beat, newest first *)
  heart_rate : Z;
  started : bool
}.

(** [HeartRateCalculator(delay)] *)
Definition init (delay : Z) : res t :=
  if (0 <=? delay)%Z && (delay <=? 500)%Z
  then Ok (mk delay [] 768 true)
  else Raise AssertionError.

(** [sum(last_beats[i + 1] - last_beats[i] for i in range(len - 1))] *)
Fixpoint sum_of_gaps (l : list Z) : Z :=
  match l with
  | a :: ((b :: _) as rest) => ((b - a) + sum_of_gaps rest)%Z
  | _ => 0%Z
  end.

(** [int(sum_for_average / (len(last_beats) - 1))] truncates the quotient. *)
Definition update_heart_rate (h : t) : t :=
  let h1 :=
    if (0 <? length (last_beats h))%nat && started h
    then mk (delay h) [] (heart_rate h) false
    else h in
  let h2 :=
    if (4 <? length (last_beats h1))%nat
    then mk (delay h1) (firstn 4 (last_beats h1)) (heart_rate h1) (started h1)
    else h1 in
  if (1 <? length (last_beats h2))%nat
  then mk (delay h2) (last_beats h2)
          (Z.quot (sum_of_gaps (last_beats h2))
                  (Z.of_nat (length (last_beats h2)) - 1))
          (started h2)
  else h2.

Definition get_heartrate (h : t) (peak : Z) : t * Z :=
  let h1 :=
    if (peak =? 1)%Z
    then update_heart_rate
           (mk (delay h) (0%Z :: last_beats h) (heart_rate h) (started h))
    else h in
  (mk (delay h1) (map (fun b => (b + 1)%Z) (last_beats h1))
      (heart_rate h1) (started h1),
   heart_rate h1).

(** [get_next_beat(value)]: [None] stands for the returned [False].  The
    read of [last_beats[0]] raises [IndexError] when [update_heart_rate]
    has just emptied the history. *)
Definition get_next_beat (h : t) (value : Z) : res (t * option Z) :=
  if negb (value =? 1)%Z && (length (last_beats h) =? 0)%nat
  then Ok (h, None)
  else
    let h1 :=
      if (value =? 1)%Z
      then update_heart_rate
             (mk (delay h) (0%Z :: last_beats h) (heart_rate h) (started h))
      else h in
    match last_beats h1 with
    | [] => Raise IndexError
    | newest :: _ =>
        Ok (mk (delay h1) (map (fun b => (b + 1)%Z) (last_beats h1))
               (heart_rate h1) (started h1),
            Some (newest + delay h1 - heart_rate h1)%Z)
    end.

(** Feeding a list of peak flags, one per tick: the final state and the
    heart rate returned by each call. *)
Fixpoint run (h : t) (flags : list Z) : t * list Z :=
  match flags with
  | [] => (h, [])
  | p :: rest =>
      let '(h1, r) := get_heartrate h p in
      let '(h2, rs) := run h1 rest in
      (h2, r :: rs)
  end.

(** [k] ticks without a beat. *)
Definition quiet (k : nat) : list Z := repeat 0%Z k.

(** A beat, then [m] further beats, each [I] ticks after the one before. *)
Fixpoint train (I : nat) (m : nat) : list Z :=
  match m with
  | O => [1%Z]
  | S m' => 1%Z :: quiet (I - 1) ++ train I m'
  end.

End HeartRateCalculator.

(** ** online_qrs_detection.py : QrsDetector *)

Module QrsDetector.

Definition win_len : nat := 153.
Definition half_win : nat := 76.          (* int(self.win_len / 2) *)
Definition thr : Qc := dec 3 10.
Definition refractory : Z := 512.         (* self.fs * 0.5 with fs = 1024 *)

(** [self.peak_values] is assigned from [peak_max_values] or
    [peak_min_values] before each of its reads, so it carries nothing from
    one call to the next and is a local value here. *)
Record t := mk {
  baseline_filter : OnlineFilter.t;
  signal_length : Z;
  look_at_value : Z;
  buffered_signal : list Qc;
  filtered_signal : list Qc;
  squared_signal : list Qc;
  mean_signal : list Qc;
  sum_for_mean : Qc;
  bandpass : OnlineFilter.t;
  box_last : Z;
  up_idx : Z;
  down_idx : Z;
  found_peaks : list Z;            (* buffer index of each pending peak *)
  peak_max_values : Qc * Z;
  peak_min_values : Qc * Z;
  last_max : Qc;
  pre_last_max : Qc;
  pre_pre_last_max : Qc;
  pre_pre_pre_last_max : Qc;
  max_cnt : Z
}.

Section Butterworth.

(** [signal.butter(2, 1, 'hp', fs=1024)] and
    [signal.butter(4, [8, 20], 'bp', fs=1024)]: numerator and denominator
    of the baseline and of the bandpass filter.  SciPy is not part of the
    repository; the coefficient vectors are parameters. *)
Variables b_baseline a_baseline b_band a_band : list Qc.

(** [QrsDetector(delay)] *)
Definition init (delay : Z) : res t :=
  if (280 <=? delay)%Z && (delay <=? 400)%Z then
    Ok {| baseline_filter := OnlineFilter.init 1 b_baseline a_baseline;
          signal_length := delay;
          look_at_value := (delay - 1)%Z;
          buffered_signal := zeros (Z.to_nat delay);
          filtered_signal := [];
          squared_signal := zeros (Z.to_nat delay);
          mean_signal := [];
          sum_for_mean := 0;
          bandpass := OnlineFilter.init 1 b_band a_band;
          box_last := 0;
          up_idx := 0;
          down_idx := 0;
          found_peaks := [];
          peak_max_values := (0, 0%Z);
          peak_min_values := (0, 0%Z);
          last_max := 0;
          pre_last_max := 0;
          pre_pre_last_max := 0;
          pre_pre_pre_last_max := 0;
          max_cnt := 0 |}
  else Raise AssertionError.

End Butterworth.

(** The default of out-of-range reads in the lists of detectors; the reads
    below stay in range. *)
Definition dummy : t :=
  mk FilterBank.dummy 0 0 [] [] [] [] 0 FilterBank.dummy 0 0 0 []
     (0, 0%Z) (0, 0%Z) 0 0 0 0 0.

(** [max] of a non-empty sequence *)
Definition list_max (l : list Qc) : Qc :=
  match l with
  | [] => 0
  | a :: t => fold_left Qcmax t a
  end.

(** Baseline removal, buffering, bandpass, differentiation, squaring and
    the moving average: the body of [qrs_detection] down to the truncation
    of [mean_signal]. *)
Definition smooth (d : t) (x : Qc) : t :=
  let '(bf, x1) := OnlineFilter.filter (baseline_filter d) x in
  let fp := map (fun p => (p + 1)%Z) (found_peaks d) in
  let buffered := x1 :: drop_last (buffered_signal d) in
  let '(bp, y) := OnlineFilter.filter (bandpass d) (hd 0 buffered) in
  let filtered0 := y :: filtered_signal d in
  let filtered := if (2 <? length filtered0)%nat
                  then drop_last filtered0 else filtered0 in
  let squared :=
    if (1 <? length filtered)%nat then
      let value := (nth 1 filtered 0 - nth 0 filtered 0)
                   * (nth 1 filtered 0 - nth 0 filtered 0) in
      value :: value :: slice 1 (win_len - 1) (squared_signal d)
    else squared_signal d in
  let sum1 := sum_for_mean d + nth 0 squared 0 in
  let sum2 := if (win_len <? length buffered)%nat
              then sum1 - last squared 0 else sum1 in
  let mean_value := sum2 / zq (Z.of_nat (length squared)) in
  let mean0 := repeat mean_value half_win
               ++ skipn (half_win - 1) (mean_signal d) in
  let mean1 := if (signal_length d <? Z.of_nat (length mean0))%Z
               then drop_last mean0 else mean0 in
  mk bf (signal_length d) (look_at_value d) buffered filtered squared mean1
     sum2 bp (box_last d) (up_idx d) (down_idx d) fp
     (peak_max_values d) (peak_min_values d)
     (last_max d) (pre_last_max d) (pre_pre_last_max d)
     (pre_pre_pre_last_max d) (max_cnt d).

Definition set_maxima (d : t) (m1 m2 m3 m4 : Qc) (c : Z) : t :=
  mk (baseline_filter d) (signal_length d) (look_at_value d)
     (buffered_signal d) (filtered_signal d) (squared_signal d)
     (mean_signal d) (sum_for_mean d) (bandpass d) (box_last d) (up_idx d)
     (down_idx d) (found_peaks d) (peak_max_values d) (peak_min_values d)
     m1 m2 m3 m4 c.

(** The shift of the four remembered maxima, taken every [signal_length]
    calls. *)
Definition shift_maxima (d : t) (max_now : Qc) : t :=
  if (signal_length d <=? max_cnt d)%Z
  then set_maxima d max_now (last_max d) (pre_last_max d)
         (pre_pre_last_max d) 0
  else d.

Definition max5 (a b c e f : Qc) : Qc :=
  Qcmax (Qcmax (Qcmax (Qcmax a b) c) e) f.

(** The threshold calculation: the updated detector and [v_max]. *)
Definition threshold (d : t) : t * Qc :=
  let max_now := list_max (mean_signal d) in
  let d1 :=
    if Qcltb (zq 1000 * Qcmax (Qcmax (last_max d) (pre_last_max d))
                              (pre_pre_last_max d))
             (pre_pre_pre_last_max d)
    then set_maxima d (last_max d) (pre_last_max d) (pre_pre_last_max d)
           (last_max d) (max_cnt d)
    else d in
  let usual :=
    (shift_maxima d1 max_now,
     max5 (last_max d1) max_now (pre_last_max d1) (pre_pre_last_max d1)
          (pre_pre_pre_last_max d1)) in
  let '(d2, v_max) :=
    if Qceqb (pre_last_max d1) 0 && Qceqb (pre_pre_last_max d1) 0 then usual
    else if Qcltb (zq 10 * last_max d1) max_now
            && Qcltb (zq 15 * pre_last_max d1) max_now
            && Qcltb (zq 15 * pre_pre_last_max d1) max_now
            && Qcltb (zq 15 * pre_pre_pre_last_max d1) max_now
            && Qcltb 0 (last_max d1) && Qcltb 0 (pre_last_max d1)
            && Qcltb 0 (pre_pre_last_max d1)
    then (d1, Qcmax (Qcmax (last_max d1) (pre_last_max d1))
                    (pre_pre_last_max d1))
    else usual in
  (set_maxima d2 (last_max d2) (pre_last_max d2) (pre_pre_last_max d2)
     (pre_pre_pre_last_max d2) (max_cnt d2 + 1), v_max).

Definition set_boxes (d : t) (bl up down : Z) (fp : list Z)
    (pmax pmin : Qc * Z) : t :=
  mk (baseline_filter d) (signal_length d) (look_at_value d)
     (buffered_signal d) (filtered_signal d) (squared_signal d)
     (mean_signal d) (sum_for_mean d) (bandpass d) bl up down fp pmax pmin
     (last_max d) (pre_last_max d) (pre_pre_last_max d)
     (pre_pre_pre_last_max d) (max_cnt d).

(** Whether the smoothed signal is above the threshold on this tick. *)
Definition above (d : t) (v_max : Qc) : bool :=
  Qcltb (thr * v_max) (nth 0 (mean_signal d) 0).

(** Opening, continuing and closing a box. *)
Definition box (d : t) (v_max : Qc) : t :=
  let s := nth half_win (buffered_signal d) 0 in
  let h := Z.of_nat half_win in
  if above d v_max then
    if (box_last d =? 0)%Z
    then set_boxes d 1 h (down_idx d) (found_peaks d) (s, 0%Z) (s, 0%Z)
    else
      let pmax := if Qcltb (fst (peak_max_values d)) s
                  then (s, h) else peak_max_values d in
      let pmin := if Qcltb s (fst (peak_min_values d))
                  then (s, h) else peak_min_values d in
      set_boxes d (box_last d) (up_idx d) (down_idx d) (found_peaks d)
        pmax pmin
  else
    if (box_last d =? 1)%Z
    then set_boxes d 0 (up_idx d) h (found_peaks d)
           (peak_max_values d) (peak_min_values d)
    else d.

(** [self.down_idx == int(self.win_len / 2) and 700 > self.up_idx - self.down_idx >= 130] *)
Definition box_is_valid (d : t) : bool :=
  (down_idx d =? Z.of_nat half_win)%Z
  && (up_idx d - down_idx d <? 700)%Z && (130 <=? up_idx d - down_idx d)%Z.

(** The larger in magnitude of the maximum and the minimum of the box. *)
Definition peak_values (d : t) : Qc * Z :=
  if Qcleb (Qcabs (fst (peak_min_values d))) (fst (peak_max_values d))
  then peak_max_values d else peak_min_values d.

(** [len(found_peaks) > 0 and found_peaks[0] - peak_values[1] > fs * 0.5
     or len(found_peaks) == 0] *)
Definition refractory_passed (d : t) : bool :=
  match found_peaks d with
  | [] => true
  | p :: _ => (refractory <? p - snd (peak_values d))%Z
  end.

(** The validity filter: the detector and, when the closed box is recorded
    as a peak, the buffer index that goes to the head of [found_peaks]. *)
Definition accept (d : t) : t * option Z :=
  if box_is_valid d && refractory_passed d
  then (set_boxes d (box_last d) 0 0
          (snd (peak_values d) :: found_peaks d)
          (peak_max_values d) (peak_min_values d),
        Some (snd (peak_values d)))
  else (d, None).

(** The four increments and the two tests on the oldest pending peak. *)
Definition report (d : t) : t * Z :=
  let pmax := (fst (peak_max_values d), (snd (peak_max_values d) + 1)%Z) in
  let pmin := (fst (peak_min_values d), (snd (peak_min_values d) + 1)%Z) in
  let fp1 :=
    if (0 <? length (found_peaks d))%nat
       && (look_at_value d <? last (found_peaks d) 0)%Z
    then drop_last (found_peaks d) else found_peaks d in
  let d1 fp := set_boxes d (box_last d) (up_idx d + 1) (down_idx d + 1) fp
                 pmax pmin in
  if (0 <? length fp1)%nat && (last fp1 0 =? look_at_value d)%Z
  then (d1 (drop_last fp1), 1%Z)
  else (d1 fp1, 0%Z).

(** [qrs_detection(x)] *)
Definition qrs_detection (d : t) (x : Qc) : t * Z :=
  let '(d2, v_max) := threshold (smooth d x) in
  report (fst (accept (box d2 v_max))).

(** The index recorded on this call, if the call records a peak. *)
Definition accepted (d : t) (x : Qc) : option Z :=
  let '(d2, v_max) := threshold (smooth d x) in
  snd (accept (box d2 v_max)).

(** The detector after the samples [x 0 .. x (n-1)]. *)
Fixpoint state_at (d : t) (x : nat -> Qc) (n : nat) : t :=
  match n with
  | O => d
  | S k => fst (qrs_detection (state_at d x k) (x k))
  end.

(** The flag returned at tick [n], and the index recorded at tick [n]. *)
Definition out_at (d : t) (x : nat -> Qc) (n : nat) : Z :=
  snd (qrs_detection (state_at d x n) (x n)).

Definition accepted_at (d : t) (x : nat -> Qc) (n : nat) : option Z :=
  accepted (state_at d x n) (x n).

(** Feeding a list of samples: the final detector, the flags and the
    recorded indices, one per call. *)
Fixpoint run (d : t) (xs : list Qc) : t * list (Z * option Z) :=
  match xs with
  | [] => (d, [])
  | x :: rest =>
      let a := accepted d x in
      let '(d1, r) := qrs_detection d x in
      let '(d2, rs) := run d1 rest in
      (d2, (r, a) :: rs)
  end.

End QrsDetector.

(** ** statistics and numpy functions used by the channel selection *)

Definition list_sum (l : list Qc) : Qc := fold_left Qcplus l 0.

(** [statistics.mean]: raises [StatisticsError] on empty data. *)
Definition mean (l : list Qc) : res Qc :=
  match l with
  | [] => Raise StatisticsError
  | _ => Ok (list_sum l / zq (Z.of_nat (length l)))
  end.

Fixpoint insert_sorted (x : Qc) (l : list Qc) : list Qc :=
  match l with
  | [] => [x]
  | y :: t => if Qcleb x y then x :: l else y :: insert_sorted x t
  end.

Definition sorted (l : list Qc) : list Qc := fold_right insert_sorted [] l.

(** [statistics.median]: the middle value of the sorted data, or the mean
    of the two middle values. *)
Definition median (l : list Qc) : res Qc :=
  let s := sorted l in
  let k := length s in
  match k with
  | O => Raise StatisticsError
  | _ => if Nat.odd k then Ok (nth (k / 2) s 0)
         else Ok ((nth (k / 2 - 1) s 0 + nth (k / 2) s 0) / zq 2)
  end.

(** A Python number: the channel means are floats, the polarity counts
    are ints. *)
Inductive num :=
| PyInt (z : Z)
| PyFloat (q : Qc).

Definition num_val (v : num) : Qc :=
  match v with
  | PyInt z => zq z
  | PyFloat q => q
  end.

(** The index of the first maximum after position [i], [best] at index
    [bi] being the maximum so far. *)
Fixpoint argmax_from (l : list num) (i : nat) (best : Qc) (bi : nat) : nat :=
  match l with
  | [] => bi
  | v :: t => if Qcltb best (num_val v)
              then argmax_from t (S i) (num_val v) i
              else argmax_from t (S i) best bi
  end.

(** [np.argmax(values)] on a list: the first index of the maximum;
    [ValueError] on an empty sequence. *)
Definition np_argmax (l : list num) : res nat :=
  match l with
  | [] => Raise ValueError
  | v :: t => Ok (argmax_from t 1 (num_val v) 0)
  end.

(** [max(values)] on a non-empty list: the first maximal element. *)
Definition py_max (l : list num) : res num :=
  i <- np_argmax l ;; Ok (nth i l (PyInt 0)).

(** [np.argmax(a, axis)] with a scalar [a]: the second positional argument
    is the axis.  A float axis is refused with [TypeError]; the scalar is
    viewed as a one-element array, for which the axes 0 and -1 exist and
    give index 0, and any other integer axis raises numpy's [AxisError]. *)
Definition np_argmax_scalar (a axis : num) : res nat :=
  match axis with
  | PyFloat _ => Raise TypeError
  | PyInt k => if (k =? 0)%Z || (k =? -1)%Z then Ok O else Raise AxisError
  end.

(** ** find_better_ecg.py : BetterEcgDetector *)

Module BetterEcgDetector.

Record t := mk {
  duration : Qc;                       (* duration * fs, in samples *)
  num_ecgs : nat;
  ecg_signals : list (list Qc);
  ecg_peak_directions : list (Z * Z);  (* the counts of the keys 1 and -1 *)
  ecg_peak_heights : list (list Qc);
  peak_detectors : list QrsDetector.t;
  baseline_filter : OnlineFilter.t
}.

Section Butterworth.

Variables b_baseline a_baseline b_band a_band : list Qc.

Fixpoint detectors (k : nat) : res (list QrsDetector.t) :=
  match k with
  | O => Ok []
  | S k' => d <- QrsDetector.init b_baseline a_baseline b_band a_band 300 ;;
            ds <- detectors k' ;; Ok (d :: ds)
  end.

(** [BetterEcgDetector(num_ECGs, duration, fs)] *)
Definition init (num_ECGs : Z) (duration : Qc) (fs : Z) : res t :=
  if negb (1 <? num_ECGs)%Z then Raise AssertionError
  else if negb (Qcltb (dec 5 2) duration) then Raise AssertionError
  else
    let k := Z.to_nat num_ECGs in
    ds <- detectors k ;;
    Ok {| duration := duration * zq fs;
          num_ecgs := k;
          ecg_signals := repeat [] k;
          ecg_peak_directions := repeat (0%Z, 0%Z) k;
          ecg_peak_heights := repeat [] k;
          peak_detectors := ds;
          baseline_filter := OnlineFilter.init 1 b_baseline a_baseline |}.

End Butterworth.

(** [get_first_and_second_max_ecg(values)] *)
Definition get_first_and_second_max_ecg (b : t) (values : list num)
  : res (nat * nat) :=
  first <- np_argmax values ;;
  if (first =? num_ecgs b - 1)%nat then
    second <- np_argmax (drop_last values) ;; Ok (first, second)
  else if (first =? 0)%nat then
    second <- np_argmax (skipn 1 values) ;; Ok (first, (second + 1)%nat)
  else
    ml <- py_max (firstn first values) ;;
    mr <- py_max (skipn (first + 1) values) ;;
    position <- np_argmax_scalar ml mr ;;
    if (position =? 0)%nat then
      second <- np_argmax (firstn first values) ;; Ok (first, second)
    else
      second <- np_argmax (skipn (first + 1) values) ;;
      Ok (first, (first + 1 + second)%nat).

Fixpoint means_of (hs : list (list Qc)) : res (list num) :=
  match hs with
  | [] => Ok []
  | h :: t => m <- mean h ;; ms <- means_of t ;; Ok (PyFloat m :: ms)
  end.

(** [Counter.most_common(1)[0][1]] of the two polarity counts. *)
Definition most_common_count (c : Z * Z) : Z := Z.max (fst c) (snd c).

Definition add_at (i : nat) (v : Qc) (l : list Qc) : list Qc :=
  list_set i (nth i l 0 + v) l.

(** The evaluation on the last call of the initialization: the index with
    the highest score, the first one among equals. *)
Definition score (b : t) : res Z :=
  means <- means_of (firstn (num_ecgs b) (ecg_peak_heights b)) ;;
  '(mean_first, mean_second) <- get_first_and_second_max_ecg b means ;;
  let max_counts :=
    map (fun c => PyInt (most_common_count c))
        (firstn (num_ecgs b) (ecg_peak_directions b)) in
  '(count_first, count_second) <- get_first_and_second_max_ecg b max_counts ;;
  let good_count :=
    add_at count_second 1
      (add_at count_first (dec 21 10)
         (add_at mean_second 1
            (add_at mean_first (zq 2) (repeat 0 (num_ecgs b))))) in
  i <- np_argmax (map PyFloat good_count) ;; Ok (Z.of_nat i).

(** One pass of the [for i in range(self.num_ecgs)] loop. *)
Definition feed_channel (b : t) (i : nat) (new_ecg_values : list Qc) : res t :=
  match nth_error new_ecg_values i with
  | None => Raise IndexError
  | Some v =>
      let '(bf, value) := OnlineFilter.filter (baseline_filter b) v in
      let sig := nth i (ecg_signals b) [] ++ [value] in
      let '(det, peak) :=
        QrsDetector.qrs_detection
          (nth i (peak_detectors b) QrsDetector.dummy) value in
      let record := (peak =? 1)%Z && (300 <? length sig)%nat in
      let heights :=
        if record then nth i (ecg_peak_heights b) [] ++ [Qcabs value]
        else nth i (ecg_peak_heights b) [] in
      let dirs :=
        let c := nth i (ecg_peak_directions b) (0%Z, 0%Z) in
        if record then
          if Qcltb 0 value then ((fst c + 1)%Z, snd c)
          else (fst c, (snd c + 1)%Z)
        else c in
      Ok (mk (duration b) (num_ecgs b)
             (list_set i sig (ecg_signals b))
             (list_set i dirs (ecg_peak_directions b))
             (list_set i heights (ecg_peak_heights b))
             (list_set i det (peak_detectors b))
             bf)
  end.

Fixpoint feed_channels (b : t) (i k : nat) (vs : list Qc) : res t :=
  match k with
  | O => Ok b
  | S k' => b1 <- feed_channel b i vs ;; feed_channels b1 (S i) k' vs
  end.

(** [find_better_ecg(new_ecg_values)]: [-1] while the detection is not
    finished, then the index of the best channel. *)
Definition find_better_ecg (b : t) (new_ecg_values : list Qc) : res (t * Z) :=
  b1 <- feed_channels b 0 (num_ecgs b) new_ecg_values ;;
  if Qcltb (zq (Z.of_nat (length (nth 0 (ecg_signals b1) [])))) (duration b1)
  then Ok (b1, (-1)%Z)
  else r <- score b1 ;; Ok (b1, r).

(** The result of call number [n] (counting from 0) when every call gets
    the tuple [x k] at tick [k]. *)
Fixpoint state_at (b : t) (x : nat -> list Qc) (n : nat) : res t :=
  match n with
  | O => Ok b
  | S k => b1 <- state_at b x k ;;
           r <- find_better_ecg b1 (x k) ;; Ok (fst r)
  end.

Definition out_at (b : t) (x : nat -> list Qc) (n : nat) : res Z :=
  b1 <- state_at b x n ;;
  r <- find_better_ecg b1 (x n) ;; Ok (snd r).

End BetterEcgDetector.

(** ** online_three_layer_filter_bank.py : FilterBank *)

Module ThreeLayerFilterBank.

Record t := mk {
  buffer1 : list Qc;
  buffer2 : list Qc;
  pointer_buffer1 : Z;
  pointer_buffer2 : Z;
  decomposition_filter_low_1 : OnlineFilter.t;
  decomposition_filter_high_1 : OnlineFilter.t;
  decomposition_filter_low_2 : OnlineFilter.t;
  decomposition_filter_high_2 : OnlineFilter.t;
  decomposition_filter_low_3 : OnlineFilter.t;
  decomposition_filter_high_3 : OnlineFilter.t;
  recomposition_filter_low_1 : OnlineFilter.t;
  recomposition_filter_high_1 : OnlineFilter.t;
  recomposition_filter_low_2 : OnlineFilter.t;
  recomposition_filter_high_2 : OnlineFilter.t;
  recomposition_filter_low_3 : OnlineFilter.t;
  recomposition_filter_high_3 : OnlineFilter.t
}.

(** [get_sampled_coefficients(coefficients)]: the taps of the 2nd and of
    the 3rd level. *)
Definition get_sampled_coefficients (c : list Qc) : list Qc * list Qc :=
  (FilterBank.upsample c, FilterBank.upsample (FilterBank.upsample c)).

Section Wavelet.

Variables dec_lo dec_hi rec_lo rec_hi : list Qc.

Definition fir (c : list Qc) : OnlineFilter.t := OnlineFilter.init 0 c [].

(** [FilterBank()] *)
Definition init : t :=
  {| buffer1 := zeros 19;
     buffer2 := zeros 13;
     pointer_buffer1 := 0;
     pointer_buffer2 := 0;
     decomposition_filter_low_1 := fir dec_lo;
     decomposition_filter_high_1 := fir dec_hi;
     decomposition_filter_low_2 := fir (fst (get_sampled_coefficients dec_lo));
     decomposition_filter_high_2 := fir (fst (get_sampled_coefficients dec_hi));
     decomposition_filter_low_3 := fir (snd (get_sampled_coefficients dec_lo));
     decomposition_filter_high_3 := fir (snd (get_sampled_coefficients dec_hi));
     recomposition_filter_low_1 := fir rec_lo;
     recomposition_filter_high_1 := fir rec_hi;
     recomposition_filter_low_2 := fir (fst (get_sampled_coefficients rec_lo));
     recomposition_filter_high_2 := fir (fst (get_sampled_coefficients rec_hi));
     recomposition_filter_low_3 := fir (snd (get_sampled_coefficients rec_lo));
     recomposition_filter_high_3 := fir (snd (get_sampled_coefficients rec_hi))
  |}.

End Wavelet.

(** [swt(input_value)]: the pairs (lowpass, highpass) of the levels 3, 2, 1. *)
Definition swt (fb : t) (input_value : Qc)
  : t * ((Qc * Qc) * (Qc * Qc) * (Qc * Qc)) :=
  let '(dl1, y_lowpass_1) :=
    OnlineFilter.filter (decomposition_filter_low_1 fb) input_value in
  let '(dh1, y_highpass_1) :=
    OnlineFilter.filter (decomposition_filter_high_1 fb) input_value in
  let '(dl2, y_lowpass_2) :=
    OnlineFilter.filter (decomposition_filter_low_2 fb) y_lowpass_1 in
  let '(dh2, y_highpass_2) :=
    OnlineFilter.filter (decomposition_filter_high_2 fb) y_lowpass_1 in
  let '(dl3, y_lowpass_3) :=
    OnlineFilter.filter (decomposition_filter_low_3 fb) y_lowpass_2 in
  let '(dh3, y_highpass_3) :=
    OnlineFilter.filter (decomposition_filter_high_3 fb) y_lowpass_2 in
  (mk (buffer1 fb) (buffer2 fb) (pointer_buffer1 fb) (pointer_buffer2 fb)
      dl1 dh1 dl2 dh2 dl3 dh3
      (recomposition_filter_low_1 fb) (recomposition_filter_high_1 fb)
      (recomposition_filter_low_2 fb) (recomposition_filter_high_2 fb)
      (recomposition_filter_low_3 fb) (recomposition_filter_high_3 fb),
   ((y_lowpass_3, y_highpass_3), (y_lowpass_2, y_highpass_2),
    (y_lowpass_1, y_highpass_1))).

(** Writing into a delay buffer and advancing its pointer. *)
Definition push (buf : list Qc) (p : Z) (v : Qc) : list Qc * Z :=
  (list_set (Z.to_nat p) v buf,
   if (p =? Z.of_nat (length buf) - 1)%Z then 0%Z else (p + 1)%Z).

(** [iswt(y_lowpass_3, y_highpass_3, y_highpass_2, y_highpass_1)] *)
Definition iswt (fb : t) (y_lowpass_3 y_highpass_3 y_highpass_2
    y_highpass_1 : Qc) : t * Qc :=
  let '(rl3, r_lowpass_3) :=
    OnlineFilter.filter (recomposition_filter_low_3 fb) y_lowpass_3 in
  let '(rh3, r_highpass_3) :=
    OnlineFilter.filter (recomposition_filter_high_3 fb) y_highpass_3 in
  let r_level_3_added := r_lowpass_3 + r_highpass_3 in
  let '(rl2, r_lowpass_2) :=
    OnlineFilter.filter (recomposition_filter_low_2 fb) r_level_3_added in
  let '(rh2, r_highpass_2) :=
    OnlineFilter.filter (recomposition_filter_high_2 fb) y_highpass_2 in
  let '(b2, p2) := push (buffer2 fb) (pointer_buffer2 fb) r_highpass_2 in
  let r_level_2_added :=
    nth (pymod p2 (length b2)) b2 0 + r_lowpass_2 / zq 2 in
  let '(rl1, r_lowpass_1) :=
    OnlineFilter.filter (recomposition_filter_low_1 fb) r_level_2_added in
  let '(rh1, r_highpass_1) :=
    OnlineFilter.filter (recomposition_filter_high_1 fb) y_highpass_1 in
  let '(b1, p1) := push (buffer1 fb) (pointer_buffer1 fb) r_highpass_1 in
  (mk b1 b2 p1 p2
      (decomposition_filter_low_1 fb) (decomposition_filter_high_1 fb)
      (decomposition_filter_low_2 fb) (decomposition_filter_high_2 fb)
      (decomposition_filter_low_3 fb) (decomposition_filter_high_3 fb)
      rl1 rh1 rl2 rh2 rl3 rh3,
   (nth (pymod p1 (length b1)) b1 0 + r_lowpass_1 / zq 2) / zq 2).

End ThreeLayerFilterBank.

(** ** online_semg_ecg_removal_single_channel.py : SwtEmgDenoise *)

Module SwtEmgDenoise.

(** The module builds its bank with [FilterBank()] and reconstructs with
    [iswt(lowpass, highpass_3, highpass_2, highpass_1)]: the constructor
    and the method of the three-layer bank. *)
Record t := mk {
  filter_bank : ThreeLayerFilterBank.t;
  fs : Z;
  coefficients_highpass_1 : list Qc;   (* deques, leftmost first *)
  coefficients_highpass_2 : list Qc;
  coefficients_highpass_3 : list Qc;
  num_level : nat;
  emg_thresholds : list Qc;
  qrs_thresholds : list Qc;
  idx_last_peak : Z;
  delay : Z
}.

Section Wavelet.

Variables dec_lo dec_hi rec_lo rec_hi : list Qc.

(** [SwtEmgDenoise(fs, delay)] *)
Definition init (fs delay : Z) : t :=
  {| filter_bank := ThreeLayerFilterBank.init dec_lo dec_hi rec_lo rec_hi;
     fs := fs;
     coefficients_highpass_1 := [];
     coefficients_highpass_2 := [];
     coefficients_highpass_3 := [];
     num_level := 3;
     emg_thresholds := repeat (zq 10) 3;
     qrs_thresholds := repeat (zq 4) 3;
     idx_last_peak := 0;
     delay := delay |}.

End Wavelet.

(** [appendleft], [median], and a [pop] once the deque is longer than
    [fs / 4]. *)
Definition push_median (dq : list Qc) (fs : Z) (v : Qc) : res (list Qc * Qc) :=
  let dq1 := v :: dq in
  m <- median dq1 ;;
  Ok (if (fs <? 4 * Z.of_nat (length dq1))%Z then removelast dq1 else dq1, m).

(** What one pass of the loop over the levels leaves behind: the three
    deques and the pairs written into [swt_coefficients_emg] so far. *)
Record pass := mkpass {
  dq1 : list Qc;
  dq2 : list Qc;
  dq3 : list Qc;
  emg : list (Qc * Qc)
}.

(** One pass of the loop: [idx], the pair [coeff] of that level and the
    two multipliers.  [win_gate = int(level * 0.2 * fs)]; the two gate
    tests compare with [win_gate / 2], a true division. *)
Definition level_pass (fs idx_new_peak idx_last_peak : Z) (num_level : nat)
    (st : pass) (idx : nat) (coeff : Qc * Qc) (ecg_thr emg_thr : Qc)
  : res pass :=
  let level := (num_level - idx)%nat in
  let win_gate := Z.quot (Z.of_nat level * fs) 5 in
  let gate := (0 <=? 2 * idx_new_peak + win_gate)%Z
              || (2 * idx_last_peak - win_gate + 2 <=? 0)%Z in
  let detail_coeff := snd coeff in
  let gated_detail_coeff := Qcabs detail_coeff in
  '(st1, median_detail_coeff) <-
    (if (level =? 1)%nat then
       '(q, m) <- push_median (dq1 st) fs gated_detail_coeff ;;
       Ok (mkpass q (dq2 st) (dq3 st) (emg st), m)
     else if (level =? 2)%nat then
       '(q, m) <- push_median (dq2 st) fs gated_detail_coeff ;;
       Ok (mkpass (dq1 st) q (dq3 st) (emg st), m)
     else
       '(q, m) <- push_median (dq3 st) fs gated_detail_coeff ;;
       Ok (mkpass (dq1 st) (dq2 st) q (emg st), m)) ;;
  let wt_thresh := if gate then ecg_thr * median_detail_coeff
                   else emg_thr * median_detail_coeff in
  let below := Qcltb (Qcabs detail_coeff) wt_thresh in
  let detail_coeff' := if below then detail_coeff else 0 in
  let entry := if (level =? 3)%nat then (0, detail_coeff')
               else (fst coeff, detail_coeff') in
  Ok (mkpass (dq1 st1) (dq2 st1) (dq3 st1) (list_set idx entry (emg st1))).

(** The [zip] of the loop: it stops with the shortest of its sequences. *)
Fixpoint level_loop (fs idx_new_peak idx_last_peak : Z) (num_level : nat)
    (st : pass) (idx : nat) (coeffs : list (Qc * Qc))
    (ecg_thrs emg_thrs : list Qc) (fuel : nat) : res pass :=
  match fuel, coeffs, ecg_thrs, emg_thrs with
  | S fuel', coeff :: cs, e :: es, m :: ms =>
      st1 <- level_pass fs idx_new_peak idx_last_peak num_level st idx
               coeff e m ;;
      level_loop fs idx_new_peak idx_last_peak num_level st1 (S idx) cs es ms
        fuel'
  | _, _, _, _ => Ok st
  end.

(** Everything of [swt_emg_denoising] before the reconstruction: the bank
    after [swt], the state of the gating, the deques, and the list
    [swt_coefficients_emg], coarsest level first. *)
Definition thresholded (s : t) (sig : Qc) (peak heartrate : Z)
  : res (ThreeLayerFilterBank.t * Z * pass) :=
  let last0 := if (peak =? 1)%Z then delay s else (idx_last_peak s + 1)%Z in
  let new0 := (last0 - heartrate)%Z in
  let '(fb, (c3, c2, c1)) := ThreeLayerFilterBank.swt (filter_bank s) sig in
  let empty := repeat (zq 0, zq 0) (num_level s) in
  let last1 := if (new0 =? 0)%Z then 0%Z else last0 in
  let new1 := if (new0 =? 0)%Z then (- heartrate)%Z else new0 in
  st <- level_loop (fs s) new1 last1 (num_level s)
          (mkpass (coefficients_highpass_1 s) (coefficients_highpass_2 s)
             (coefficients_highpass_3 s) empty)
          0 [c3; c2; c1] (qrs_thresholds s) (emg_thresholds s)
          (num_level s) ;;
  Ok (fb, last1, st).

(** The four arguments of the call of [iswt]. *)
Definition iswt_arguments (e : list (Qc * Qc)) : Qc * Qc * Qc * Qc :=
  (zq 0, snd (nth 0 e (0, 0)), snd (nth 1 e (0, 0)), snd (nth 2 e (0, 0))).

(** [swt_emg_denoising(sig, peak, heartrate)] *)
Definition swt_emg_denoising (s : t) (sig : Qc) (peak heartrate : Z)
  : res (t * Qc) :=
  '(fb, last1, st) <- thresholded s sig peak heartrate ;;
  let '(a0, a1, a2, a3) := iswt_arguments (emg st) in
  let '(fb1, emg_denoised) := ThreeLayerFilterBank.iswt fb a0 a1 a2 a3 in
  Ok (mk fb1 (fs s) (dq1 st) (dq2 st) (dq3 st) (num_level s)
         (emg_thresholds s) (qrs_thresholds s) last1 (delay s),
      emg_denoised).

End SwtEmgDenoise.

(** ** online_semg_ecg_removal_multi_channel.py and sEMG_online_filter.py *)

Module MultiChannel.

Section Constants.

Variables dec_lo dec_hi rec_lo rec_hi : list Qc.
Variables b_baseline a_baseline b_band a_band : list Qc.

(** A call of the class [FilterBank] of [online_filter_bank.py],
    whose [__init__(self, num_levels)] has one required parameter: any
    other number of positional arguments is a [TypeError]. *)
Definition FilterBank_call (args : list nat) : res FilterBank.t :=
  match args with
  | num_levels :: nil =>
      Ok (FilterBank.init dec_lo dec_hi rec_lo rec_hi num_levels)
  | _ => Raise TypeError
  end.

Record SwtEmgDenoise := mkDenoise {
  filter_banks : list FilterBank.t;
  channels : Z;
  fs : Z;
  coefficients_highpass_1 : list (list Qc);
  coefficients_highpass_2 : list (list Qc);
  coefficients_highpass_3 : list (list Qc);
  num_level : nat;
  emg_thresholds : list Qc;
  qrs_thresholds : list Qc;
  idx_last_peak : Z;
  delay : Z
}.

(** [for _ in range(channels): self.filter_banks.append(FilterBank())] *)
Fixpoint append_banks (k : nat) (banks : list FilterBank.t)
  : res (list FilterBank.t) :=
  match k with
  | O => Ok banks
  | S k' => fb <- FilterBank_call [] ;; append_banks k' (banks ++ [fb])
  end.

(** [SwtEmgDenoise(fs, delay, channels)] *)
Definition SwtEmgDenoise_init (fs delay channels : Z) : res SwtEmgDenoise :=
  banks <- append_banks (Z.to_nat channels) [] ;;
  let k := Z.to_nat channels in
  Ok (mkDenoise banks channels fs (repeat [] k) (repeat [] k) (repeat [] k)
        3 (repeat (zq 10) 3) (repeat (zq 4) 3) 0 delay).

Record SEMGOnlineFilter := mkFilter {
  num_channels : Z;
  sampling_rate : Z;
  num_initialization_samples : Qc;
  swt_denoising : SwtEmgDenoise;
  qrs_detector : QrsDetector.t;
  heart_rate_calculator : HeartRateCalculator.t;
  envelope_calculators : list EnvelopeCalculator.t;
  received_measurement_values_cnt : Z;
  best_ecg_signal : Z;
  better_ecg_detector : option BetterEcgDetector.t
}.

(** [SEMGOnlineFilter(num_channels, delay, fs, envelope_window,
    initialization_time)]; the progress bar is left out. *)
Definition SEMGOnlineFilter_init (num_channels delay fs envelope_window : Z)
    (initialization_time : Qc) : res SEMGOnlineFilter :=
  den <- SwtEmgDenoise_init fs delay num_channels ;;
  det <- QrsDetector.init b_baseline a_baseline b_band a_band delay ;;
  hrc <- HeartRateCalculator.init delay ;;
  let envs := repeat (EnvelopeCalculator.init false envelope_window)
                (Z.to_nat num_channels) in
  better <-
    (if (1 <? num_channels)%Z then
       b <- BetterEcgDetector.init b_baseline a_baseline b_band a_band
              num_channels initialization_time fs ;;
       Ok (Some b)
     else Ok None) ;;
  Ok (mkFilter num_channels fs (initialization_time * zq fs) den det hrc envs
        0 0 better).

End Constants.

End MultiChannel.

(** ** Concrete coefficient vectors for the evaluations *)

(** The taps PyWavelets tabulates for the wavelet db2, read as decimal
    fractions. *)
Module Db2.

Definition c0 : Qc := dec 48296291314469025 100000000000000000.
Definition c1 : Qc := dec 836516303737469 1000000000000000.
Definition c2 : Qc := dec 22414386804185735 100000000000000000.
Definition c3 : Qc := dec (-12940952255092145) 100000000000000000.

Definition dec_lo : list Qc := [c3; c2; c1; c0].
Definition dec_hi : list Qc := [- c0; c1; - c2; c3].
Definition rec_lo : list Qc := [c0; c1; c2; c3].
Definition rec_hi : list Qc := [c3; - c2; c1; - c0].

End Db2.

(** Coefficient vectors of the shapes SciPy returns for the two Butterworth
    filters (3 and 9 entries, leading denominator 1) that let the sample
    through unchanged; the evaluations of the detector use them where the
    values of the real coefficients do not matter. *)
Module PassThrough.

Definition b3 : list Qc := [1; 0; 0].
Definition a3 : list Qc := [1; 0; 0].
Definition b9 : list Qc := [1; 0; 0; 0; 0; 0; 0; 0; 0].
Definition a9 : list Qc := [1; 0; 0; 0; 0; 0; 0; 0; 0].

End PassThrough.

(** ** The perfect reconstruction condition on the wavelet taps *)

Module Wavelet.



(** Rational taps that reconstruct perfectly: an orthogonal filter of
    four taps 1/2, 1/2, 1/2, -1/2 and its mirror filters. *)
Definition h : Qc := dec 1 2.

End Wavelet.

(** ** Filters and delay lines as transformers of sample streams *)

Module Streams.

(** The FIR filter with the taps [b] after the samples [u 0 .. u (n-1)]. *)
Fixpoint fir_state (b : list Qc) (u : nat -> Qc) (n : nat) : OnlineFilter.t :=
  match n with
  | O => OnlineFilter.init 0 b []
  | S k => fst (OnlineFilter.filter (fir_state b u k) (u k))
  end.

(** What it returns at tick [n]. *)
Definition fir_out (b : list Qc) (u : nat -> Qc) (n : nat) : Qc :=
  snd (OnlineFilter.filter (fir_state b u n) (u n)).

(** The convolution sum [b_0 * u(n) + b_1 * u(n-1) + ...], added up in the
    order of the filter loop. *)
Fixpoint conv_from (b : list Qc) (u : nat -> Qc) (n k : nat) (acc : Qc) : Qc :=
  match b with
  | [] => acc
  | c :: rest => conv_from rest u n (S k) (acc + c * u (n - k)%nat)
  end.

Definition conv (b : list Qc) (u : nat -> Qc) (n : nat) : Qc :=
  conv_from b u n 0 0.

(** One tick of a delay buffer of [iswt]: write at the pointer, advance
    the pointer around the buffer, read at the new pointer. *)
Definition delay_step (bp : list Qc * Z) (v : Qc) : (list Qc * Z) * Qc :=
  let buf' := list_set (Z.to_nat (snd bp)) v (fst bp) in
  let p' := ((snd bp + 1) mod Z.of_nat (length (fst bp)))%Z in
  ((buf', p'), nth (Z.to_nat p') buf' 0).

Fixpoint delay_state (len : nat) (v : nat -> Qc) (n : nat) : list Qc * Z :=
  match n with
  | O => (zeros len, 0%Z)
  | S k => fst (delay_step (delay_state len v k) (v k))
  end.

Definition delay_out (len : nat) (v : nat -> Qc) (n : nat) : Qc :=
  snd (delay_step (delay_state len v n) (v n)).

Import OnlineFilter.

(** The filter after [n] samples: its pointer, its call count, and the
    newest samples, which sit in the ring at their tick modulo its size. *)
Record fir_inv (b : list Qc) (u : nat -> Qc) (n : nat)
    (f : OnlineFilter.t) : Prop := {
  fi_type : type_of_filter f = 0%Z;
  fi_coeffs : coefficients_in f = b;
  fi_norm : norm f = 1;
  fi_length : length (buffer_input f) = length b;
  fi_pointer : input_pointer f = Z.of_nat (n mod length b);
  fi_cnt : cnt f = (Z.of_nat n + 1)%Z;
  fi_ring : forall t, (t < n)%nat -> (n - t <= length b)%nat ->
                      nth (t mod length b) (buffer_input f) 0 = u t
}.

Record delay_inv (len : nat) (v : nat -> Qc) (n : nat)
    (bp : list Qc * Z) : Prop := {
  di_length : length (fst bp) = len;
  di_pointer : snd bp = Z.of_nat (n mod len);
  di_ring : forall t, (t < n)%nat -> (n - t <= len)%nat ->
                      nth (t mod len) (fst bp) 0 = v t
}.

End Streams.

(** ** The streams inside the round trip of a 3-level bank *)

Module RoundTripStreams.
Import Streams FilterBank.

Section RoundTrip.

Variables dl dh rl rh : list Qc.
Variable x : nat -> Qc.

(** The taps of the three levels. *)
Let dl1 := dl.
Let dl2 := upsample dl.
Let dl3 := upsample (upsample dl).
Let dh1 := dh.
Let dh2 := upsample dh.
Let dh3 := upsample (upsample dh).
Let rl1 := rl.
Let rl2 := upsample rl.
Let rl3 := upsample (upsample rl).
Let rh1 := rh.
Let rh2 := upsample rh.
Let rh3 := upsample (upsample rh).

(** The streams between the filters of the round trip. *)
Definition low1 : nat -> Qc := fir_out dl1 x.
Definition high1 : nat -> Qc := fir_out dh1 x.
Definition low2 : nat -> Qc := fir_out dl2 low1.
Definition high2 : nat -> Qc := fir_out dh2 low1.
Definition low3 : nat -> Qc := fir_out dl3 low2.
Definition high3 : nat -> Qc := fir_out dh3 low2.
Definition sum3 (n : nat) : Qc := fir_out rl3 low3 n + fir_out rh3 high3 n.
Definition detail2 : nat -> Qc := fir_out rh2 high2.
Definition sum2 (n : nat) : Qc :=
  delay_out 13 detail2 n + fir_out rl2 sum3 n / zq 2.
Definition detail1 : nat -> Qc := fir_out rh1 high1.
Definition sum1 (n : nat) : Qc :=
  delay_out 19 detail1 n + fir_out rl1 sum2 n / zq 2.

(** The bank after [n] ticks of the round trip. *)
Definition bank_at (n : nat) : t :=
  mk 3 21
     [fst (delay_state 13 detail2 n); fst (delay_state 19 detail1 n); zeros 22]
     [snd (delay_state 13 detail2 n); snd (delay_state 19 detail1 n)]
     [fir_state dl1 x n; fir_state dl2 low1 n; fir_state dl3 low2 n]
     [fir_state dh1 x n; fir_state dh2 low1 n; fir_state dh3 low2 n]
     [fir_state rl1 sum2 n; fir_state rl2 sum3 n; fir_state rl3 low3 n]
     [fir_state rh1 high1 n; fir_state rh2 high2 n; fir_state rh3 high3 n].

End RoundTrip.

End RoundTripStreams.

(** ** The window of the envelope calculator *)

Module EnvelopeWindow.
Import EnvelopeCalculator.

(** The magnitudes of the [m] newest samples at tick [t], newest first. *)
Definition window (x : nat -> Qc) (t m : nat) : list Qc :=
  map (fun i => Qcabs (x (t - i)%nat)) (seq 0 m).

(** The number of samples the window holds once it is full. *)
Definition capacity (delayed : bool) (w : Z) : nat :=
  if delayed then Z.to_nat w else Z.to_nat ((w + 1) / 2).

(** The calculator that has seen the samples [x 0 .. x (k-1)]. *)
Definition seen (dl : bool) (w : Z) (x : nat -> Qc) (k : nat) : t :=
  let m := Nat.min k (capacity dl w) in
  mk dl (window x (k - 1) m) w (list_sum (window x (k - 1) m)) (Z.of_nat m).

End EnvelopeWindow.

(** ** The two kinds of values the channel scoring compares *)

Module SelectionKinds.

Definition is_float (v : num) : Prop :=
  match v with PyFloat _ => True | PyInt _ => False end.

Definition is_count (v : num) : Prop :=
  match v with PyInt z => (1 <= z)%Z | PyFloat _ => False end.

End SelectionKinds.

(** ** The pending peaks of the detector *)

Module QrsPending.
Import QrsDetector.

(** The detector in front of the validity filter. *)
Definition before_accept (d : t) (x : Qc) : t :=
  box (fst (threshold (smooth d x))) (snd (threshold (smooth d x))).

(** The detector between two calls, as far as the peaks are concerned: at
    most one peak is pending, its index is below [look_at_value], and the
    recorded indices are not negative. *)
Record pending_ok (d : t) : Prop := {
  look_small : (look_at_value d < refractory)%Z;
  max_idx_nonneg : (0 <= snd (peak_max_values d))%Z;
  min_idx_nonneg : (0 <= snd (peak_min_values d))%Z;
  one_pending : found_peaks d = []
                \/ exists a, found_peaks d = (a :: nil) /\ (a < look_at_value d)%Z
}.

End QrsPending.

(** ** States that hold nothing but zeros *)

Module QuietStates.

Definition all_zero (l : list Qc) : Prop := Forall (fun v => v = 0) l.

Import OnlineFilter.

Definition quiet_filter (f : t) : Prop :=
  all_zero (buffer_input f) /\ all_zero (buffer_output f).

Import QrsDetector.

(** A detector that has seen nothing but zeros. *)
Record quiet_detector (d : t) : Prop := {
  q_baseline : quiet_filter (baseline_filter d);
  q_bandpass : quiet_filter (bandpass d);
  q_buffered : all_zero (buffered_signal d);
  q_filtered : all_zero (filtered_signal d);
  q_squared : all_zero (squared_signal d);
  q_mean : all_zero (mean_signal d);
  q_sum : sum_for_mean d = 0;
  q_max1 : last_max d = 0;
  q_max2 : pre_last_max d = 0;
  q_max3 : pre_pre_last_max d = 0;
  q_max4 : pre_pre_pre_last_max d = 0;
  q_box : box_last d = 0%Z;
  q_peaks : found_peaks d = [];
  q_idx : up_idx d = down_idx d
}.

Import BetterEcgDetector.

(** A selector with [n] channels that has been fed [k] tuples of zeros. *)
Record quiet_selector (n k : nat) (b : t) : Prop := {
  s_n : num_ecgs b = n;
  s_signals : length (ecg_signals b) = n;
  s_heights : ecg_peak_heights b = repeat [] n;
  s_detectors : length (peak_detectors b) = n;
  s_quiet : Forall quiet_detector (peak_detectors b);
  s_filter : quiet_filter (baseline_filter b);
  s_fed : length (nth 0 (ecg_signals b) []) = k
}.

Import FilterBank.

Record quiet_bank (fb : t) : Prop := {
  qb_dl : Forall quiet_filter (decomposition_filter_low fb);
  qb_dh : Forall quiet_filter (decomposition_filter_high fb);
  qb_rl : Forall quiet_filter (recomposition_filter_low fb);
  qb_rh : Forall quiet_filter (recomposition_filter_high fb);
  qb_buffers : Forall all_zero (buffers fb)
}.

Definition zero_pair (c : Qc * Qc) : Prop := c = (0, 0).

End QuietStates.

(** ** Inputs and objects of the evaluations *)

Module Examples.

(** A step input: [a] before tick [T0], [b] from tick [T0] on. *)
Definition step (T0 : nat) (a b : Qc) (t : nat) : Qc :=
  if (t <? T0)%nat then a else b.


Import SwtEmgDenoise.

(** The denoiser of the evaluations: db2 taps, 1024 Hz, delay 300. *)
Definition fresh : t :=
  init Db2.dec_lo Db2.dec_hi Db2.rec_lo Db2.rec_hi 1024 300.

Import QrsDetector.

(** A detector with delay 300 whose two filters let the samples through. *)
Definition det0 : t :=
  match init PassThrough.b3 PassThrough.a3 PassThrough.b9 PassThrough.a9 300 with
  | Ok d => d
  | Raise _ => dummy
  end.

(** [n] samples, all 0 but a 1 at each tick of [l]. *)
Definition pulses (l : list nat) (n : nat) : list Qc :=
  map (fun t => if existsb (Nat.eqb t) l then 1 else 0) (seq 0 n).


(** The calls of a run that return 1 or record a peak: the number of the
    call, the flag, and the recorded index. *)
Fixpoint events (i : nat) (l : list (Z * option Z))
  : list (nat * Z * option Z) :=
  match l with
  | [] => []
  | (r, a) :: rest =>
      match r, a with
      | 0%Z, None => events (S i) rest
      | _, _ => (i, r, a) :: events (S i) rest
      end
  end.

Import BetterEcgDetector.

(** A selector with three channels that recorded one, three and one
    positive peaks of heights 10, 1 and 1. *)
Definition three_channels : t :=
  mk (zq 5120) 3 [] [(1, 0); (3, 0); (1, 0)]%Z
     [zq 10 :: nil; [1; 1; 1]; 1 :: nil] [] FilterBank.dummy.

(** Three channels with one positive peak each, the tallest in the middle. *)
Definition middle_highest : t :=
  mk (zq 5120) 3 [] [(1, 0); (1, 0); (1, 0)]%Z
     [1 :: nil; zq 10 :: nil; 1 :: nil] [] FilterBank.dummy.

(** Two channels, 5 seconds at 1024 Hz, filters that let the samples
    through. *)
Definition two_quiet_channels : t :=
  match init PassThrough.b3 PassThrough.a3 PassThrough.b9 PassThrough.a9
             2 (zq 5) 1024 with
  | Ok b => b
  | Raise _ => mk 0 0 [] [] [] [] FilterBank.dummy
  end.

End Examples.

(** ** The single-channel denoiser over a stream *)

Module DenoiseStreams.
Import SwtEmgDenoise.

(** Feeding a list of ticks, each a sample, a peak flag and a heart rate:
    the final denoiser and the value returned by each call. *)
Fixpoint run (s : t) (ticks : list (Qc * Z * Z)) : res (t * list Qc) :=
  match ticks with
  | [] => Ok (s, [])
  | (sig, peak, heartrate) :: rest =>
      r <- swt_emg_denoising s sig peak heartrate ;;
      rs <- run (fst r) rest ;;
      Ok (fst rs, snd r :: snd rs)
  end.

(** A median window of at most [fs / 4] values. *)
Definition window_bounded (fs : Z) (dq : list Qc) : Prop :=
  (4 * Z.of_nat (length dq) <= Z.max 0 fs)%Z.

(** The denoiser between two calls. *)
Record ready (s : t) : Prop := {
  three_levels : num_level s = 3%nat;
  three_qrs : length (qrs_thresholds s) = 3%nat;
  three_emg : length (emg_thresholds s) = 3%nat;
  window1 : window_bounded (fs s) (coefficients_highpass_1 s);
  window2 : window_bounded (fs s) (coefficients_highpass_2 s);
  window3 : window_bounded (fs s) (coefficients_highpass_3 s)
}.

(** A three-layer bank that has seen nothing but zeros. *)
Record quiet_three_layer (fb : ThreeLayerFilterBank.t) : Prop := {
  qt_buffer1 : QuietStates.all_zero (ThreeLayerFilterBank.buffer1 fb);
  qt_buffer2 : QuietStates.all_zero (ThreeLayerFilterBank.buffer2 fb);
  qt_dl1 : QuietStates.quiet_filter
             (ThreeLayerFilterBank.decomposition_filter_low_1 fb);
  qt_dh1 : QuietStates.quiet_filter
             (ThreeLayerFilterBank.decomposition_filter_high_1 fb);
  qt_dl2 : QuietStates.quiet_filter
             (ThreeLayerFilterBank.decomposition_filter_low_2 fb);
  qt_dh2 : QuietStates.quiet_filter
             (ThreeLayerFilterBank.decomposition_filter_high_2 fb);
  qt_dl3 : QuietStates.quiet_filter
             (ThreeLayerFilterBank.decomposition_filter_low_3 fb);
  qt_dh3 : QuietStates.quiet_filter
             (ThreeLayerFilterBank.decomposition_filter_high_3 fb);
  qt_rl1 : QuietStates.quiet_filter
             (ThreeLayerFilterBank.recomposition_filter_low_1 fb);
  qt_rh1 : QuietStates.quiet_filter
             (ThreeLayerFilterBank.recomposition_filter_high_1 fb);
  qt_rl2 : QuietStates.quiet_filter
             (ThreeLayerFilterBank.recomposition_filter_low_2 fb);
  qt_rh2 : QuietStates.quiet_filter
             (ThreeLayerFilterBank.recomposition_filter_high_2 fb);
  qt_rl3 : QuietStates.quiet_filter
             (ThreeLayerFilterBank.recomposition_filter_low_3 fb);
  qt_rh3 : QuietStates.quiet_filter
             (ThreeLayerFilterBank.recomposition_filter_high_3 fb)
}.

End DenoiseStreams.

(** ** The recursive filter as a difference equation *)

Module DirectForm.

(** The first [n] samples of a stream, newest first. *)
Fixpoint history (u : nat -> Qc) (n : nat) : list Qc :=
  match n with
  | O => []
  | S k => u k :: history u k
  end.

(** [c_0 * l_0 + c_1 * l_1 + ...], as far as both lists reach. *)
Fixpoint dot (c l : list Qc) : Qc :=
  match c, l with
  | c0 :: cs, x :: xs => c0 * x + dot cs xs
  | _, _ => 0
  end.

(** The first [n] outputs, newest first, of the difference equation
    [a_0 y(n) = b_0 u(n) + b_1 u(n-1) + ... - a_1 y(n-1) - a_2 y(n-2) - ...]
    with all samples before tick 0 equal to 0. *)
Fixpoint outputs (b a : list Qc) (u : nat -> Qc) (n : nat) : list Qc :=
  match n with
  | O => []
  | S k =>
      (dot b (history u (S k)) - dot (tl a) (outputs b a u k)) / hd 1 a
      :: outputs b a u k
  end.

(** The IIR filter [OnlineFilter(1, b, a)] after the samples
    [u 0 .. u (n-1)], and what it returns at tick [n]. *)
Fixpoint iir_state (b a : list Qc) (u : nat -> Qc) (n : nat)
  : OnlineFilter.t :=
  match n with
  | O => OnlineFilter.init 1 b a
  | S k => fst (OnlineFilter.filter (iir_state b a u k) (u k))
  end.

Definition iir_out (b a : list Qc) (u : nat -> Qc) (n : nat) : Qc :=
  snd (OnlineFilter.filter (iir_state b a u n) (u n)).

(** A ring of [L] cells after [T] writes: the value written [j] writes ago
    sits [j] cells behind the write position. *)
Definition ring_holds (L T : nat) (buf h : list Qc) : Prop :=
  length buf = L
  /\ forall j, (j < L)%nat -> nth ((T + L - 1 - j) mod L) buf 0 = nth j h 0.

(** The filter after [n] samples. *)
Record iir_inv (b a : list Qc) (u : nat -> Qc) (n : nat)
    (f : OnlineFilter.t) : Prop := {
  ii_type : OnlineFilter.type_of_filter f = 1%Z;
  ii_in : OnlineFilter.coefficients_in f = b;
  ii_out : OnlineFilter.coefficients_out f = tl a;
  ii_norm : OnlineFilter.norm f = hd 1 a;
  ii_inputs : ring_holds (length b) n (OnlineFilter.buffer_input f)
                (history u n);
  ii_outputs : ring_holds (length a - 1) n (OnlineFilter.buffer_output f)
                 (outputs b a u n);
  ii_pin : OnlineFilter.input_pointer f = Z.of_nat (n mod length b);
  ii_pout : OnlineFilter.output_pointer f = Z.of_nat (n mod (length a - 1))
}.

End DirectForm.

(** ** The history of the heart-rate calculator *)

Module BeatHistory.
Import HeartRateCalculator.

(** Ages that grow strictly along the list, all of them above [lo]. *)
Fixpoint ascending (lo : Z) (l : list Z) : Prop :=
  match l with
  | [] => True
  | a :: t => (lo < a)%Z /\ ascending a t
  end.

(** The calculator between two calls: at most four beats, each at least
    one tick old, the newest first, and a positive heart rate. *)
Record history_ok (h : t) : Prop := {
  ages_ascend : ascending 0 (last_beats h);
  at_most_four : (length (last_beats h) <= 4)%nat;
  rate_positive : (1 <= heart_rate h)%Z
}.

End BeatHistory.

(** ** The buffers of the detector *)

Module QrsBuffers.
Import QrsDetector.

(** The sizes of the four signal buffers between two calls. *)
Record buffers_bounded (d : t) : Prop := {
  length_known : (280 <= signal_length d)%Z;
  buffered_full : length (buffered_signal d) = Z.to_nat (signal_length d);
  filtered_short : (length (filtered_signal d) <= 2)%nat;
  squared_window : length (squared_signal d) = Z.to_nat (signal_length d)
                   \/ length (squared_signal d) = win_len;
  mean_bounded : (length (mean_signal d) <= Z.to_nat (signal_length d))%nat
}.

End QrsBuffers.

(** ** The channels of the selection, seen by its one baseline filter *)

Module SelectorStreams.
Import BetterEcgDetector DirectForm.

(** The samples of the tuples [x 0], [x 1], ... of [n] channels in the
    order in which the selection filters them: channel by channel within
    a tuple. *)
Definition interleaved (n : nat) (x : nat -> list Qc) (m : nat) : Qc :=
  nth (m mod n)%nat (x (m / n)%nat) 0.

(** The first [k] values the detector of channel [c] receives when the
    one baseline filter, with the coefficients [bb] and [ab], filters the
    interleaved samples. *)
Definition filtered (bb ab : list Qc) (n : nat) (x : nat -> list Qc)
    (c k : nat) : list Qc :=
  map (fun j => iir_out bb ab (interleaved n x) (j * n + c)%nat) (seq 0 k).

(** The selection after [k] tuples and the first [i] channels of the
    next one; no peak height is recorded during the first 300 tuples. *)
Record fed (bb ab : list Qc) (dur : Qc) (n : nat) (x : nat -> list Qc)
    (k i : nat) (b : t) : Prop := {
  fed_channels : num_ecgs b = n;
  fed_duration : duration b = dur;
  fed_length : length (ecg_signals b) = n;
  fed_filter : baseline_filter b
               = iir_state bb ab (interleaved n x) (k * n + i)%nat;
  fed_done : forall c, (c < i)%nat ->
               nth c (ecg_signals b) [] = filtered bb ab n x c (S k);
  fed_todo : forall c, (i <= c < n)%nat ->
               nth c (ecg_signals b) [] = filtered bb ab n x c k;
  fed_heights : ((k < 300)%nat \/ (k = 300%nat /\ i = 0%nat)) ->
                ecg_peak_heights b = repeat [] n
}.


End SelectorStreams.

(** ** The round trip of the three-layer bank *)

Module ThreeLayerStreams.
Import Streams RoundTripStreams FilterBank ThreeLayerFilterBank.

(** One tick: [swt], then [iswt] on the lowpass of level 3 and the three
    highpass values [swt] returned. *)
Definition roundtrip (fb : t) (x : Qc) : t * Qc :=
  let '(fb1, (c3, c2, c1)) := swt fb x in
  iswt fb1 (fst c3) (snd c3) (snd c2) (snd c1).

Fixpoint roundtrip_state (fb : t) (x : nat -> Qc) (n : nat) : t :=
  match n with
  | O => fb
  | S k => fst (roundtrip (roundtrip_state fb x k) (x k))
  end.

Definition roundtrip_out (fb : t) (x : nat -> Qc) (n : nat) : Qc :=
  snd (roundtrip (roundtrip_state fb x n) (x n)).

(** One tick of a delay buffer of this bank: [push], then the read at the
    new pointer. *)
Definition push_step (bp : list Qc * Z) (v : Qc) : (list Qc * Z) * Qc :=
  let r := push (fst bp) (snd bp) v in
  (r, nth (pymod (snd r) (length (fst r))) (fst r) 0).

Fixpoint push_state (len : nat) (v : nat -> Qc) (n : nat) : list Qc * Z :=
  match n with
  | O => (zeros len, 0%Z)
  | S k => fst (push_step (push_state len v k) (v k))
  end.

Definition push_out (len : nat) (v : nat -> Qc) (n : nat) : Qc :=
  snd (push_step (push_state len v n) (v n)).

Section RoundTrip.

Variables dl dh rl rh : list Qc.
Variable x : nat -> Qc.

(** The sums of the levels 2 and 1 with the delay buffers of this bank. *)
Definition pushed_sum2 (n : nat) : Qc :=
  push_out 13 (detail2 dl dh rh x) n
  + fir_out (upsample rl) (sum3 dl dh rl rh x) n / zq 2.

Definition pushed_sum1 (n : nat) : Qc :=
  push_out 19 (detail1 dh rh x) n + fir_out rl pushed_sum2 n / zq 2.

(** The bank after [n] ticks of the round trip. *)
Definition bank_after (n : nat) : t :=
  mk (fst (push_state 19 (detail1 dh rh x) n))
     (fst (push_state 13 (detail2 dl dh rh x) n))
     (snd (push_state 19 (detail1 dh rh x) n))
     (snd (push_state 13 (detail2 dl dh rh x) n))
     (fir_state dl x n) (fir_state dh x n)
     (fir_state (upsample dl) (low1 dl x) n)
     (fir_state (upsample dh) (low1 dl x) n)
     (fir_state (upsample (upsample dl)) (low2 dl x) n)
     (fir_state (upsample (upsample dh)) (low2 dl x) n)
     (fir_state rl pushed_sum2 n)
     (fir_state rh (high1 dh x) n)
     (fir_state (upsample rl) (sum3 dl dh rl rh x) n)
     (fir_state (upsample rh) (high2 dl dh x) n)
     (fir_state (upsample (upsample rl)) (low3 dl x) n)
     (fir_state (upsample (upsample rh)) (high3 dl dh x) n).

End RoundTrip.

End ThreeLayerStreams.

(** * Properties *)

(** ** Facts on rationals, sums and lists *)


Lemma zq_pos (z : Z) : (0 < z)%Z -> 0 < zq z.
Proof.
  intros H. unfold zq, Qclt. cbn [this Q2Qc].
  rewrite !Qred_correct. unfold Qlt. cbn [Qnum Qden inject_Z]. lia.
Qed.

Lemma zq_nonzero (z : Z) : (0 < z)%Z -> zq z <> 0.
Proof. intros H E. pose proof (zq_pos H) as P. rewrite E in P.
  exact (Qclt_not_eq _ _ P eq_refl). Qed.

Lemma zq_succ (k : nat) : zq (Z.of_nat (S k)) = zq (Z.of_nat k) + 1.
Proof.
  apply Qc_is_canon. unfold zq. cbn [this Q2Qc Qcplus].
  rewrite !Qred_correct. rewrite Nat2Z.inj_succ.
  unfold Z.succ. rewrite inject_Z_plus. reflexivity.
Qed.


Lemma fold_plus_shift (l : list Qc) (a : Qc) :
  fold_left Qcplus l a = a + fold_left Qcplus l 0.
Proof.
  revert a; induction l as [|y l IH]; intros a; cbn [fold_left].
  - ring.
  - rewrite IH, (IH (0 + y)). ring.
Qed.

Lemma list_sum_cons (a : Qc) (l : list Qc) :
  list_sum (a :: l) = a + list_sum l.
Proof. unfold list_sum; cbn [fold_left]. rewrite fold_plus_shift. ring. Qed.

Lemma list_sum_app (l1 l2 : list Qc) :
  list_sum (l1 ++ l2) = list_sum l1 + list_sum l2.
Proof.
  induction l1 as [|a l1 IH]; cbn [app].
  - unfold list_sum at 2; cbn. ring.
  - rewrite !list_sum_cons, IH. ring.
Qed.

Lemma list_sum_removelast (l : list Qc) :
  l <> [] -> list_sum (removelast l) = list_sum l - last l 0.
Proof.
  intros H. rewrite (app_removelast_last 0 H) at 2.
  rewrite list_sum_app, list_sum_cons. unfold list_sum at 3; cbn. ring.
Qed.


Lemma list_sum_constant (c : Qc) (l : list Qc) :
  Forall (fun v => v = c) l -> list_sum l = zq (Z.of_nat (length l)) * c.
Proof.
  induction 1 as [|a l Ha _ IH].
  - unfold list_sum; cbn [fold_left length Z.of_nat].
    change (zq 0) with 0. ring.
  - rewrite list_sum_cons, IH, Ha. cbn [length]. rewrite zq_succ. ring.
Qed.

Lemma Qcltb_lt (a b : Qc) : Qcltb a b = true <-> a < b.
Proof.
  unfold Qcltb. rewrite Qclt_alt. destruct (a ?= b); split; congruence.
Qed.

Lemma Qcltb_ge (a b : Qc) : Qcltb a b = false <-> b <= a.
Proof.
  split; intros H.
  - apply Qcnot_lt_le. intros L. apply Qcltb_lt in L. congruence.
  - destruct (Qcltb a b) eqn:E; [|reflexivity].
    apply Qcltb_lt in E. exfalso. exact (Qcle_not_lt _ _ H E).
Qed.

Lemma zq_lt (a b : Z) : (a < b)%Z -> zq a < zq b.
Proof.
  intros H. unfold zq, Qclt. cbn [this Q2Qc].
  rewrite !Qred_correct. unfold Qlt. cbn [Qnum Qden inject_Z]. lia.
Qed.

Lemma list_set_length {A} (i : nat) (v : A) (l : list A) :
  length (list_set i v l) = length l.
Proof.
  revert i; induction l as [|a l IH]; intros [|i]; cbn [list_set length];
    auto.
Qed.

Lemma list_set_same {A} (i : nat) (d : A) (l : list A) :
  list_set i (nth i l d) l = l.
Proof.
  revert i; induction l as [|a l IH]; intros [|i]; cbn [list_set nth];
    try reflexivity. f_equal. apply IH.
Qed.

Lemma list_set_Forall {A} (P : A -> Prop) (i : nat) (v : A) (l : list A) :
  P v -> Forall P l -> Forall P (list_set i v l).
Proof.
  intros Hv H. revert i; induction H as [|a l Ha Hl IH]; intros [|i];
    cbn [list_set]; constructor; auto.
Qed.

Lemma list_set_nth_eq {A} (i : nat) (v d : A) (l : list A) :
  (i < length l)%nat -> nth i (list_set i v l) d = v.
Proof.
  revert i; induction l as [|a l IH]; intros [|i] H; cbn [length] in H;
    cbn [list_set nth]; try lia; [reflexivity | apply IH; lia].
Qed.

Lemma list_set_nth_neq {A} (i j : nat) (v d : A) (l : list A) :
  i <> j -> nth j (list_set i v l) d = nth j l d.
Proof.
  revert i j; induction l as [|a l IH]; intros [|i] [|j] H;
    cbn [list_set nth]; try reflexivity; try lia. apply IH. lia.
Qed.


(** ** The heart-rate calculator *)

Module HeartRateFacts.
Import HeartRateCalculator.

Lemma run_app (h : t) (a b : list Z) :
  run h (a ++ b) =
  (fst (run (fst (run h a)) b), snd (run h a) ++ snd (run (fst (run h a)) b)).
Proof.
  revert h; induction a as [|p a IH]; intros h; cbn [run app fst snd].
  - destruct (run h b); reflexivity.
  - destruct (get_heartrate h p) as [h1 r] eqn:E.
    rewrite IH. destruct (run h1 a) as [h2 rs]; cbn [fst snd].
    destruct (run h2 b); reflexivity.
Qed.

Lemma run_length (h : t) (a : list Z) : length (snd (run h a)) = length a.
Proof.
  revert h; induction a as [|p a IH]; intros h; cbn [run]; [reflexivity|].
  destruct (get_heartrate h p) as [h1 r].
  specialize (IH h1). destruct (run h1 a); cbn [snd length] in *; congruence.
Qed.

Lemma run_quiet (k : nat) (d : Z) (bs : list Z) (hr : Z) (s : bool) :
  run (mk d bs hr s) (quiet k) =
  (mk d (map (fun b => (b + Z.of_nat k)%Z) bs) hr s, repeat hr k).
Proof.
  revert bs; induction k as [|k IH]; intros bs.
  - simpl. f_equal. f_equal. rewrite <- (map_id bs) at 1.
    apply map_ext; intros; lia.
  - change (quiet (S k)) with (0%Z :: quiet k).
    cbn [run get_heartrate Z.eqb delay last_beats heart_rate started].
    rewrite IH. f_equal. f_equal. rewrite map_map.
    apply map_ext; intros; lia.
Qed.

(** The call that delivers the flag after the flags [a]. *)
Lemma run_nth (h : t) (a b : list Z) (p : Z) :
  nth (length a) (snd (run h (a ++ p :: b))) 0%Z =
  snd (get_heartrate (fst (run h a)) p).
Proof.
  rewrite run_app; cbn [snd fst].
  rewrite <- (run_length h a).
  cbn [run]. destruct (get_heartrate (fst (run h a)) p) as [h1 r].
  destruct (run h1 b) as [h2 rs]. cbn [snd].
  apply nth_middle.
Qed.

Lemma quiet_length k : length (quiet k) = k.
Proof. apply repeat_length. Qed.

(** Without a beat nothing changes but the ages. *)
Lemma no_beat_keeps_rate (h : t) (flags : list Z) :
  count_occ Z.eq_dec flags 1%Z = 0%nat ->
  heart_rate (fst (run h flags)) = heart_rate h
  /\ started (fst (run h flags)) = started h
  /\ length (last_beats (fst (run h flags))) = length (last_beats h)
  /\ Forall (fun r => r = heart_rate h) (snd (run h flags)).
Proof.
  revert h; induction flags as [|p fl IH]; intros h Hc.
  - simpl; auto.
  - simpl in Hc. destruct (Z.eq_dec p 1) as [->|Hp]; [discriminate|].
    cbn [run]. unfold get_heartrate.
    destruct (Z.eqb_spec p 1) as [|_]; [contradiction|].
    match goal with |- context [run ?h1 fl] =>
      destruct (IH h1 Hc) as (A & B & C & D); destruct (run h1 fl) as [h2 rs]
    end.
    cbn [fst snd heart_rate started last_beats] in *.
    rewrite A, B, C, length_map. repeat split; auto.
Qed.

Lemma run_cons (h : t) (p : Z) (l : list Z) :
  run h (p :: l) =
  (fst (run (fst (get_heartrate h p)) l),
   snd (get_heartrate h p) :: snd (run (fst (get_heartrate h p)) l)).
Proof.
  cbn [run]. destruct (get_heartrate h p) as [h1 r]. cbn [fst snd].
  destruct (run h1 l); reflexivity.
Qed.

(** The first beat after construction empties the history. *)
Lemma first_beat (d : Z) (bs : list Z) (hr : Z) :
  get_heartrate (mk d bs hr true) 1 = (mk d [] hr false, hr).
Proof. reflexivity. Qed.

Lemma second_beat (d hr : Z) :
  get_heartrate (mk d [] hr false) 1 = (mk d [1%Z] hr false, hr).
Proof. reflexivity. Qed.

Lemma third_beat (d hr a : Z) :
  get_heartrate (mk d [a] hr false) 1 =
  (mk d [1%Z; (a + 1)%Z] (Z.quot (a - 0 + 0) 1) false, Z.quot (a - 0 + 0) 1).
Proof. reflexivity. Qed.

Lemma fourth_beat (d hr a b : Z) :
  get_heartrate (mk d [a; b] hr false) 1 =
  (mk d [1%Z; (a + 1)%Z; (b + 1)%Z] (Z.quot (a - 0 + (b - a + 0)) 2) false,
   Z.quot (a - 0 + (b - a + 0)) 2).
Proof. reflexivity. Qed.

End HeartRateFacts.

Section HeartRate.

Import HeartRateCalculator HeartRateFacts.

(** C5: five beats spaced [I] samples apart give [I] at the fourth beat,
    the first beat after construction is dropped from the history, and
    with a single beat every call returns the default 768. *)
Theorem C5_regular_beats_give_the_interval (d : Z) (h0 : t) (pre I : nat) :
  init d = Ok h0 -> (1 <= I)%nat ->
  nth (pre + 3 * I) (snd (run h0 (quiet pre ++ train I 4))) 0%Z = Z.of_nat I
  /\ last_beats (fst (run h0 (quiet pre ++ [1%Z]))) = []
  /\ (forall flags, count_occ Z.eq_dec flags 1%Z = 1%nat ->
      Forall (fun r => r = 768%Z) (snd (run h0 flags))).
Proof.
  intros Hinit HI. unfold init in Hinit.
  destruct ((0 <=? d)%Z && (d <=? 500)%Z); [|discriminate].
  injection Hinit as <-.
  split; [|split].
  - (* the flags before the fourth beat *)
    set (gap := quiet (I - 1)).
    assert (Hsplit : quiet pre ++ train I 4 =
      (quiet pre ++ 1%Z :: gap ++ 1%Z :: gap ++ 1%Z :: gap) ++ 1%Z :: gap ++ [1%Z]).
    { cbn [train]. fold gap. rewrite <- !app_assoc. cbn [app].
      repeat (rewrite <- ?app_assoc; cbn [app]). reflexivity. }
    assert (Hlen : length (quiet pre ++ 1%Z :: gap ++ 1%Z :: gap ++ 1%Z :: gap)
                   = (pre + 3 * I)%nat).
    { unfold gap. repeat (rewrite ?length_app; cbn [length]).
      rewrite !quiet_length. lia. }
    rewrite Hsplit, <- Hlen, run_nth.
    unfold gap.
    rewrite run_app, run_quiet; cbn [fst map].
    rewrite run_cons, first_beat; cbn [fst].
    rewrite run_app, run_quiet; cbn [fst map].
    rewrite run_cons, second_beat; cbn [fst].
    rewrite run_app, run_quiet; cbn [fst map].
    rewrite run_cons, third_beat; cbn [fst].
    rewrite run_quiet; cbn [fst map].
    rewrite fourth_beat; cbn [snd].
    replace (1 + Z.of_nat (I - 1) - 0 + _)%Z with (Z.of_nat I * 2)%Z by lia.
    apply Z.quot_mul; lia.
  - rewrite run_app, run_quiet; cbn [fst map]. rewrite run_cons, first_beat.
    reflexivity.
  - intros flags Hc.
    (* split the flags at the single beat *)
    assert (Hin : In 1%Z flags) by (apply (count_occ_In Z.eq_dec); lia).
    destruct (in_split _ _ Hin) as (a & b & ->).
    rewrite count_occ_app in Hc. simpl in Hc.
    destruct (Z.eq_dec 1 1) as [_|]; [|contradiction].
    assert (Ha : count_occ Z.eq_dec a 1%Z = 0%nat) by lia.
    assert (Hb : count_occ Z.eq_dec b 1%Z = 0%nat) by lia.
    rewrite run_app; cbn [snd].
    destruct (no_beat_keeps_rate (mk d [] 768 true) a Ha) as (A & B & C & D).
    cbn [heart_rate started last_beats length] in *.
    apply Forall_app; split; [exact D|].
    destruct (fst (run (mk d [] 768 true) a)) as [d1 bs hr st].
    cbn [heart_rate started last_beats length] in *; subst.
    destruct bs; [|discriminate].
    rewrite run_cons, first_beat; cbn [fst snd].
    match goal with |- context [run ?h1 b] =>
      destruct (no_beat_keeps_rate h1 b Hb) as (_ & _ & _ & D');
      destruct (run h1 b) as [h2 rs]
    end.
    cbn [snd heart_rate] in *. constructor; auto.
Qed.

Lemma C5_witness :
  nth (7 + 3 * 5) (snd (run (mk 300 [] 768 true) (quiet 7 ++ train 5 4))) 0%Z
    = 5%Z.
Proof.
  exact (proj1 (@C5_regular_beats_give_the_interval 300 (mk 300 [] 768 true)
                  7 5 eq_refl (le_S _ _ (le_S _ _ (le_S _ _ (le_S _ _ (le_n 1))))))).
Defined.

End HeartRate.

(** ** The envelope calculator *)

Module EnvelopeFacts.
Import EnvelopeCalculator EnvelopeWindow.

Lemma window_length (x : nat -> Qc) (t : nat) (m : nat) : length (window x t m) = m.
Proof. unfold window. rewrite length_map, length_seq. reflexivity. Qed.

Lemma window_cons (x : nat -> Qc) (t : nat) (m : nat) :
  Qcabs (x (S t)) :: window x t m = window x (S t) (S m).
Proof.
  unfold window. cbn [seq map]. f_equal.
  rewrite <- seq_shift, map_map. apply map_ext; intros; reflexivity.
Qed.

Lemma window_removelast (x : nat -> Qc) (t : nat) (m : nat) :
  removelast (window x t (S m)) = window x t m.
Proof.
  unfold window. rewrite seq_S, map_app. cbn [map].
  apply removelast_last.
Qed.

Lemma window_first (x : nat -> Qc) (m : nat) : Qcabs (x 0%nat) :: window x 0 m = window x 0 (S m).
Proof.
  unfold window. cbn [seq map]. f_equal.
  rewrite <- seq_shift, map_map. apply map_ext; intros; reflexivity.
Qed.


Lemma window_constant (x : nat -> Qc) (t : nat) (m : nat) (c : Qc) :
  (forall i, (i < m)%nat -> Qcabs (x (t - i)%nat) = c) ->
  Forall (fun v => v = c) (window x t m).
Proof.
  intros H. unfold window. apply Forall_forall. intros v Hv.
  apply in_map_iff in Hv as (i & <- & Hi). apply in_seq in Hi. apply H; lia.
Qed.

Lemma capacity_pos (dl : bool) (w : Z) : (1 <= w)%Z -> (1 <= capacity dl w)%nat.
Proof.
  intros H. unfold capacity. destruct dl; [lia|].
  assert (1 <= (w + 1) / 2)%Z by (apply Z.div_le_lower_bound; lia). lia.
Qed.

Lemma grows_iff (dl : bool) (w : Z) (m : nat) : (1 <= w)%Z ->
  (if dl then (Z.of_nat m <? w)%Z else (2 * Z.of_nat m <? w)%Z)
  = (m <? capacity dl w)%nat.
Proof.
  intros H. unfold capacity. destruct dl.
  - destruct (Z.ltb_spec (Z.of_nat m) w), (Nat.ltb_spec m (Z.to_nat w));
      try reflexivity; lia.
  - pose proof (Z.div_mod (w + 1) 2 ltac:(lia)) as D.
    pose proof (Z.mod_pos_bound (w + 1) 2 ltac:(lia)) as B.
    destruct (Z.ltb_spec (2 * Z.of_nat m) w),
      (Nat.ltb_spec m (Z.to_nat ((w + 1) / 2))); try reflexivity; lia.
Qed.

Lemma pop_window (x : nat -> Qc) (t m : nat) :
  pop (window x t (S m)) = Ok (window x t m, last (window x t (S m)) 0).
Proof.
  unfold pop. destruct (window x t (S m)) as [|v0 rest] eqn:E.
  - pose proof (window_length x t (S m)) as L. rewrite E in L. discriminate.
  - rewrite <- E, window_removelast. reflexivity.
Qed.

Lemma window_sum_removelast (x : nat -> Qc) (t m : nat) :
  list_sum (window x t (S m)) - last (window x t (S m)) 0
  = list_sum (window x t m).
Proof.
  rewrite <- list_sum_removelast, window_removelast; [reflexivity|].
  intros E. pose proof (window_length x t (S m)) as L.
  rewrite E in L. discriminate.
Qed.

Lemma step_seen (dl : bool) (w : Z) (x : nat -> Qc) (k : nat) : (1 <= w)%Z ->
  calculate_envelope (seen dl w x k) (x k) =
  Ok (seen dl w x (S k),
      list_sum (window x k (Nat.min (S k) (capacity dl w)))
      / zq (Z.of_nat (Nat.min (S k) (capacity dl w)))).
Proof.
  intros Hw. pose proof (capacity_pos dl Hw) as Hc.
  unfold calculate_envelope, advance, seen.
  cbn [delayed n window_len buffer sum].
  rewrite (grows_iff dl (Nat.min k (capacity dl w)) Hw).
  replace (S k - 1)%nat with k by lia.
  destruct (Nat.ltb_spec (Nat.min k (capacity dl w)) (capacity dl w)) as [Hlt|Hge].
  - (* the window grows *)
    assert (Hk : Nat.min k (capacity dl w) = k) by lia.
    assert (Hk' : Nat.min (S k) (capacity dl w) = S k) by lia.
    rewrite Hk, Hk'. cbn [bind delayed n window_len buffer sum fst snd].
    assert (Hb : Qcabs (x k) :: window x (k - 1) k = window x k (S k)).
    { destruct k as [|j]; [apply window_first|].
      replace (S j - 1)%nat with j by lia. apply window_cons. }
    rewrite <- Hb, list_sum_cons, Nat2Z.inj_succ. unfold Z.succ.
    rewrite (Qcplus_comm (Qcabs (x k))). reflexivity.
  - (* the window slides *)
    assert (Hk : Nat.min k (capacity dl w) = capacity dl w) by lia.
    assert (Hk' : Nat.min (S k) (capacity dl w) = capacity dl w) by lia.
    rewrite Hk, Hk'.
    destruct k as [|j]; [lia|]. replace (S j - 1)%nat with j by lia.
    destruct (capacity dl w) as [|c] eqn:Ec; [lia|].
    rewrite pop_window.
    cbn [bind delayed n window_len buffer sum fst snd].
    rewrite window_sum_removelast, <- window_cons, list_sum_cons.
    rewrite (Qcplus_comm (Qcabs (x (S j)))). reflexivity.
Qed.

Lemma state_at_seen (dl : bool) (w : Z) (x : nat -> Qc) (k : nat) : (1 <= w)%Z ->
  state_at (init dl w) x k = Ok (seen dl w x k).
Proof.
  intros Hw. induction k as [|k IH].
  - reflexivity.
  - cbn [state_at]. rewrite IH. cbn [bind]. rewrite step_seen by exact Hw.
    reflexivity.
Qed.

(** The envelope at tick [k] is the mean magnitude of the newest samples. *)
Lemma out_at_mean (dl : bool) (w : Z) (x : nat -> Qc) (k : nat) : (1 <= w)%Z ->
  out_at (init dl w) x k =
  Ok (list_sum (window x k (Nat.min (S k) (capacity dl w)))
      / zq (Z.of_nat (Nat.min (S k) (capacity dl w)))).
Proof.
  intros Hw. unfold out_at. rewrite state_at_seen by exact Hw.
  cbn [bind]. rewrite step_seen by exact Hw. reflexivity.
Qed.

(** A window of equal magnitudes has that magnitude as its mean. *)
Lemma out_at_constant (dl : bool) (w : Z) (x : nat -> Qc) (k : nat) (c : Qc) : (1 <= w)%Z ->
  (forall i, (i < Nat.min (S k) (capacity dl w))%nat ->
             Qcabs (x (k - i)%nat) = c) ->
  out_at (init dl w) x k = Ok c.
Proof.
  intros Hw H. rewrite out_at_mean by exact Hw. f_equal.
  pose proof (capacity_pos dl Hw) as Hc.
  rewrite (list_sum_constant (window_constant x k H)), window_length.
  rewrite Qcmult_comm. apply Qcdiv_mult_l. apply zq_nonzero. lia.
Qed.

End EnvelopeFacts.

Section Envelope.

Import EnvelopeCalculator EnvelopeWindow EnvelopeFacts.



Import Examples.

(** C7, as stated, fails: with a window of 4 and a step from 0 to 1 at
    tick 10 the centred calculator returns 1/4 at tick 10 while the causal
    one returns 1 at tick 10 + 4/2. *)
Lemma C7_counterexample :
  out_at (init true 4) (step 10 0 1) 10 = Ok (dec 1 4)
  /\ out_at (init false 4) (step 10 0 1) (10 + 2) = Ok 1
  /\ out_at (init true 4) (step 10 0 1) 10
     <> out_at (init false 4) (step 10 0 1) (10 + 2).
Proof.
  assert (A : out_at (init true 4) (step 10 0 1) 10 = Ok (dec 1 4)).
  { rewrite out_at_mean by lia. f_equal; try (apply Qc_is_canon; reflexivity). }
  assert (B : out_at (init false 4) (step 10 0 1) (10 + 2) = Ok 1).
  { rewrite out_at_mean by lia. f_equal; try (apply Qc_is_canon; reflexivity). }
  split; [exact A|]. split; [exact B|].
  rewrite A, B. intros E. injection E as E. discriminate E.
Qed.

(** C7, amended: away from the step the two modes agree with the shift of
    half a window: at every tick [t] with [t + window_len/2] before the
    step, and at every tick from [T0 + window_len - 1] on, the centred
    output at [t] is the causal output at [t + window_len/2]. *)
Theorem C7_modes_agree_away_from_the_step (w : Z) (T0 : nat) (a b : Qc)
    (t : nat) :
  (1 <= w)%Z ->
  (t + Z.to_nat (w / 2) < T0 \/ T0 + Z.to_nat w - 1 <= t)%nat ->
  exists v, out_at (init true w) (step T0 a b) t = Ok v
         /\ out_at (init false w) (step T0 a b) (t + Z.to_nat (w / 2)) = Ok v.
Proof.
  intros Hw Ht.
  assert (Hcap : (capacity false w <= capacity true w)%nat).
  { unfold capacity.
    assert ((w + 1) / 2 <= w)%Z by (apply Z.div_le_upper_bound; lia). lia. }
  assert (Hc1 : capacity true w = Z.to_nat w) by reflexivity.
  destruct Ht as [Ht|Ht].
  - exists (Qcabs a). split; apply out_at_constant; try exact Hw;
      intros i _; unfold step;
      match goal with |- context [(?u <? T0)%nat] =>
        destruct (Nat.ltb_spec u T0); [reflexivity|lia] end.
  - exists (Qcabs b). split; apply out_at_constant; try exact Hw;
      intros i Hi; unfold step;
      match goal with |- context [(?u <? T0)%nat] =>
        destruct (Nat.ltb_spec u T0); [lia|reflexivity] end.
Qed.

Lemma C7_witness :
  exists v, out_at (init true 4) (step 10 0 1) 13 = Ok v
         /\ out_at (init false 4) (step 10 0 1) (13 + Z.to_nat (4 / 2)) = Ok v.
Proof.
  apply (@C7_modes_agree_away_from_the_step 4 10 0 1 13); [lia|].
  right. vm_compute. apply le_n.
Defined.

End Envelope.

(** ** The construction of the multi-channel filter *)

Module ConstructionFacts.
Import MultiChannel.

Section Constants.

Variables dec_lo dec_hi rec_lo rec_hi : list Qc.
Variables b_baseline a_baseline b_band a_band : list Qc.

Lemma append_banks_raises (k : nat) (banks : list FilterBank.t) :
  append_banks dec_lo dec_hi rec_lo rec_hi (S k) banks = Raise TypeError.
Proof. reflexivity. Qed.

Lemma denoise_init_raises (fs delay channels : Z) :
  (1 <= channels)%Z ->
  SwtEmgDenoise_init dec_lo dec_hi rec_lo rec_hi fs delay channels
  = Raise TypeError.
Proof.
  intros H. unfold SwtEmgDenoise_init.
  destruct (Z.to_nat channels) as [|k] eqn:E; [lia|].
  rewrite append_banks_raises. reflexivity.
Qed.

End Constants.

End ConstructionFacts.

(** C8, as stated, fails for a channel count of 0: the loop that calls
    [FilterBank()] has no pass and both constructors return an object. *)
Lemma C8_counterexample :
  (exists d, MultiChannel.SwtEmgDenoise_init Db2.dec_lo Db2.dec_hi Db2.rec_lo
               Db2.rec_hi 1024 300 0 = Ok d)
  /\ (exists f, MultiChannel.SEMGOnlineFilter_init Db2.dec_lo Db2.dec_hi
                  Db2.rec_lo Db2.rec_hi PassThrough.b3 PassThrough.a3
                  PassThrough.b9 PassThrough.a9 0 300 1024 256 (zq 5) = Ok f).
Proof. split; eexists; reflexivity. Qed.

(** C8, amended: for every sampling rate, delay and channel count of at
    least 1 the construction of the multi-channel denoiser, and with it the
    construction of the public filter, raises [TypeError] at the first
    [FilterBank()]. *)
Theorem C8_construction_raises_TypeError
    (dec_lo dec_hi rec_lo rec_hi b_baseline a_baseline b_band a_band : list Qc)
    (num_channels delay fs envelope_window : Z) (initialization_time : Qc) :
  (1 <= num_channels)%Z ->
  MultiChannel.SwtEmgDenoise_init dec_lo dec_hi rec_lo rec_hi fs delay
    num_channels = Raise TypeError
  /\ MultiChannel.SEMGOnlineFilter_init dec_lo dec_hi rec_lo rec_hi
       b_baseline a_baseline b_band a_band num_channels delay fs
       envelope_window initialization_time = Raise TypeError.
Proof.
  intros H. split.
  - apply ConstructionFacts.denoise_init_raises, H.
  - unfold MultiChannel.SEMGOnlineFilter_init.
    rewrite ConstructionFacts.denoise_init_raises by exact H. reflexivity.
Qed.

Lemma C8_witness :
  MultiChannel.SwtEmgDenoise_init Db2.dec_lo Db2.dec_hi Db2.rec_lo Db2.rec_hi
    1024 300 2 = Raise TypeError
  /\ MultiChannel.SEMGOnlineFilter_init Db2.dec_lo Db2.dec_hi Db2.rec_lo
       Db2.rec_hi PassThrough.b3 PassThrough.a3 PassThrough.b9 PassThrough.a9
       2 300 1024 256 (zq 5) = Raise TypeError.
Proof.
  apply C8_construction_raises_TypeError. lia.
Defined.

(** ** The channel scoring *)

Module SelectionFacts.
Import BetterEcgDetector SelectionKinds.

Lemma argmax_from_bound (l : list num) (i : nat) (best : Qc) (bi : nat) :
  (bi < i)%nat -> (argmax_from l i best bi < i + length l)%nat.
Proof.
  revert i best bi; induction l as [|v l IH]; intros i best bi H; cbn [argmax_from length].
  - lia.
  - destruct (Qcltb best (num_val v)).
    + specialize (IH (S i) (num_val v) i ltac:(lia)). lia.
    + specialize (IH (S i) best bi ltac:(lia)). lia.
Qed.

Lemma np_argmax_ok (l : list num) :
  l <> [] -> exists i, np_argmax l = Ok i /\ (i < length l)%nat.
Proof.
  destruct l as [|v l]; [congruence|]. intros _.
  eexists; split; [reflexivity|].
  pose proof (@argmax_from_bound l 1 (num_val v) 0 ltac:(lia)).
  cbn [length]. lia.
Qed.

Lemma py_max_ok (P : num -> Prop) (l : list num) :
  l <> [] -> Forall P l -> exists v, py_max l = Ok v /\ P v.
Proof.
  intros Hl HP. destruct (np_argmax_ok Hl) as (i & E & Hi).
  unfold py_max. rewrite E. cbn [bind]. eexists; split; [reflexivity|].
  rewrite Forall_forall in HP. apply HP, nth_In, Hi.
Qed.

Lemma nonempty_of_length {A} (l : list A) : (0 < length l)%nat -> l <> [].
Proof. destruct l; cbn; [lia | congruence]. Qed.

(** What the interior branch does, by the kind of the compared values. *)
Lemma interior_branch (P : num -> Prop) (e : exn) (b : t) (values : list num)
    (first : nat) :
  (forall a v, P v -> np_argmax_scalar a v = Raise e) ->
  Forall P values ->
  np_argmax values = Ok first ->
  (0 < first)%nat -> (first < num_ecgs b - 1)%nat ->
  length values = num_ecgs b ->
  get_first_and_second_max_ecg b values = Raise e.
Proof.
  intros Hax HP E H0 H1 HL. unfold get_first_and_second_max_ecg.
  rewrite E. cbn [bind].
  destruct (Nat.eqb_spec first (num_ecgs b - 1)) as [|_]; [lia|].
  destruct (Nat.eqb_spec first 0) as [|_]; [lia|].
  assert (Hl : firstn first values <> []).
  { apply nonempty_of_length. rewrite length_firstn. lia. }
  assert (Hr : skipn (first + 1) values <> []).
  { apply nonempty_of_length. rewrite length_skipn. lia. }
  destruct (@py_max_ok (fun _ => True) _ Hl) as (ml & El & _).
  { apply Forall_forall; auto. }
  destruct (@py_max_ok P _ Hr) as (mr & Er & Pr).
  { rewrite Forall_forall in *. intros v Hv. apply HP.
    rewrite <- (firstn_skipn (first + 1) values). apply in_or_app; auto. }
  rewrite El, Er. cbn [bind]. rewrite (Hax ml mr Pr). reflexivity.
Qed.

Lemma float_axis (a v : num) : is_float v -> np_argmax_scalar a v = Raise TypeError.
Proof. destruct v; cbn; [contradiction | reflexivity]. Qed.

Lemma count_axis (a v : num) : is_count v -> np_argmax_scalar a v = Raise AxisError.
Proof.
  destruct v as [z|]; cbn; [|contradiction]. intros H.
  destruct (Z.eqb_spec z 0), (Z.eqb_spec z (-1)); try lia. reflexivity.
Qed.

(** With two channels the first maximum is at an end of the list. *)
Lemma two_channels (b : t) (v0 v1 : num) :
  num_ecgs b = 2%nat ->
  exists first, get_first_and_second_max_ecg b [v0; v1]
                = Ok (first, (1 - first)%nat) /\ (first < 2)%nat.
Proof.
  intros Hn. unfold get_first_and_second_max_ecg. rewrite Hn.
  cbn [np_argmax argmax_from bind].
  destruct (Qcltb (num_val v0) (num_val v1)).
  - exists 1%nat. split; [reflexivity | lia].
  - exists 0%nat. split; [reflexivity | lia].
Qed.

Lemma means_of_float (hs : list (list Qc)) (ms : list num) :
  means_of hs = Ok ms -> Forall is_float ms /\ length ms = length hs.
Proof.
  revert ms; induction hs as [|h hs IH]; intros ms; cbn [means_of].
  - intros [= <-]. split; [constructor | reflexivity].
  - destruct (mean h) as [m|]; cbn [bind]; [|discriminate].
    destruct (means_of hs) as [ms'|]; cbn [bind]; [|discriminate].
    intros [= <-]. destruct (IH ms' eq_refl) as [F L].
    split; [constructor; [exact I | exact F] | cbn; congruence].
Qed.

Lemma means_of_nonempty (hs : list (list Qc)) :
  Forall (fun h => h <> []) hs -> exists ms, means_of hs = Ok ms.
Proof.
  induction 1 as [|h hs Hh _ [ms IH]]; cbn [means_of].
  - eexists; reflexivity.
  - destruct h; [congruence|]. cbn [mean bind]. rewrite IH.
    eexists; reflexivity.
Qed.

End SelectionFacts.

Section Selection.

Import BetterEcgDetector SelectionKinds SelectionFacts Examples.

(** C9, as stated, fails: here the highest mean is at channel 0 and the
    highest polarity count at the interior channel 1; the second argument
    of [np.argmax] is then the integer 1, which numpy refuses as an axis
    with [AxisError], not with [TypeError]. *)
Lemma C9_counterexample :
  get_first_and_second_max_ecg three_channels [PyInt 1; PyInt 3; PyInt 1]
    = Raise AxisError
  /\ score three_channels = Raise AxisError
  /\ score three_channels <> Raise TypeError.
Proof.
  assert (E : score three_channels = Raise AxisError) by reflexivity.
  split; [reflexivity|]. split; [exact E|]. rewrite E. discriminate.
Qed.

(** C9, amended: with three or more channels the scoring raises
    [TypeError] whenever the highest mean peak height is at an interior
    index; when the means pass and the highest polarity count (every count
    being at least 1) is at an interior index it raises numpy's
    [AxisError]; with exactly two channels the branch is not reached and
    the scoring returns an index whenever every channel has recorded a
    peak. *)
Theorem C9_interior_maximum_raises (b : t) :
  length (ecg_peak_heights b) = num_ecgs b ->
  length (ecg_peak_directions b) = num_ecgs b ->
  (forall means first,
      means_of (ecg_peak_heights b) = Ok means ->
      np_argmax means = Ok first ->
      (0 < first < num_ecgs b - 1)%nat ->
      score b = Raise TypeError)
  /\ (forall means r first,
      means_of (ecg_peak_heights b) = Ok means ->
      get_first_and_second_max_ecg b means = Ok r ->
      Forall (fun c => (1 <= most_common_count c)%Z) (ecg_peak_directions b) ->
      np_argmax (map (fun c => PyInt (most_common_count c))
                     (ecg_peak_directions b)) = Ok first ->
      (0 < first < num_ecgs b - 1)%nat ->
      score b = Raise AxisError)
  /\ (num_ecgs b = 2%nat ->
      Forall (fun h => h <> []) (ecg_peak_heights b) ->
      exists i, score b = Ok i /\ (0 <= i < 2)%Z).
Proof.
  intros Hh Hd. unfold score.
  assert (F1 : firstn (num_ecgs b) (ecg_peak_heights b) = ecg_peak_heights b)
    by (rewrite <- Hh; apply firstn_all).
  assert (F2 : firstn (num_ecgs b) (ecg_peak_directions b)
               = ecg_peak_directions b)
    by (rewrite <- Hd; apply firstn_all).
  rewrite F1, F2.
  split; [|split].
  - intros means first Em Ef Hf. rewrite Em. cbn [bind].
    destruct (means_of_float _ Em) as [F L].
    rewrite (@interior_branch is_float TypeError b means first);
      try reflexivity; try assumption; try lia.
    apply float_axis.
  - intros means [r1 r2] first Em Er Hc Ef Hf. rewrite Em. cbn [bind].
    rewrite Er. cbn [bind].
    rewrite (@interior_branch is_count AxisError b _ first);
      try reflexivity; try assumption; try lia.
    + apply count_axis.
    + apply Forall_map. exact Hc.
    + rewrite length_map. exact Hd.
  - intros Hn Hne.
    destruct (ecg_peak_heights b) as [|h0 [|h1 [|? ?]]] eqn:Eh;
      cbn [length] in Hh; try lia.
    destruct (ecg_peak_directions b) as [|c0 [|c1 [|? ?]]] eqn:Ec;
      cbn [length] in Hd; try lia.
    destruct (means_of_nonempty Hne) as [ms Em]. rewrite Em. cbn [bind].
    destruct (means_of_float _ Em) as [_ L]. cbn [length] in L.
    destruct ms as [|m0 [|m1 [|? ?]]]; cbn [length] in L; try lia.
    destruct (two_channels b m0 m1 Hn) as (f1 & E1 & B1). rewrite E1.
    cbn [bind map].
    destruct (two_channels b (PyInt (most_common_count c0))
                (PyInt (most_common_count c1)) Hn) as (f2 & E2 & B2).
    rewrite E2. cbn [bind]. rewrite Hn.
    match goal with |- context [np_argmax ?l] =>
      destruct (@np_argmax_ok l) as (i & Ei & Hi) end.
    { destruct f1 as [|[|]], f2 as [|[|]]; try lia; cbn; discriminate. }
    rewrite Ei. cbn [bind]. exists (Z.of_nat i). split; [reflexivity|].
    rewrite length_map in Hi.
    assert (length (add_at (1 - f2) 1
              (add_at f2 (dec 21 10)
                 (add_at (1 - f1) 1 (add_at f1 (zq 2) (repeat 0 2))))) = 2%nat).
    { destruct f1 as [|[|]], f2 as [|[|]]; try lia; reflexivity. }
    lia.
Qed.

Lemma C9_witness : score middle_highest = Raise TypeError.
Proof.
  eapply (proj1 (@C9_interior_maximum_raises middle_highest eq_refl eq_refl)).
  - reflexivity.
  - vm_compute. reflexivity.
  - cbn. lia.
Defined.

End Selection.

(** ** The denoiser *)

Module DenoiseFacts.
Import SwtEmgDenoise.

Lemma insert_sorted_length (x : Qc) (l : list Qc) :
  length (insert_sorted x l) = S (length l).
Proof.
  induction l as [|y l IH]; cbn [insert_sorted length]; [reflexivity|].
  destruct (Qcleb x y); cbn [length]; congruence.
Qed.

Lemma sorted_length (l : list Qc) : length (sorted l) = length l.
Proof.
  induction l as [|y l IH]; cbn [sorted fold_right length]; [reflexivity|].
  fold (sorted l). rewrite insert_sorted_length. congruence.
Qed.

Lemma median_ok (v : Qc) (l : list Qc) : exists m, median (v :: l) = Ok m.
Proof.
  unfold median. rewrite sorted_length. cbn [length].
  destruct (Nat.odd (S (length l))); eexists; reflexivity.
Qed.

Lemma push_median_ok (dq : list Qc) (fs : Z) (v : Qc) :
  exists q m, push_median dq fs v = Ok (q, m).
Proof.
  unfold push_median. destruct (median_ok v dq) as [m ->]. cbn [bind].
  eexists; eexists; reflexivity.
Qed.

(** One pass writes one pair: the lowpass of the level, or 0 at level 3,
    and the thresholded detail. *)
Lemma level_pass_entry (fs new last : Z) (n : nat) (st : pass) (idx : nat)
    (coeff : Qc * Qc) (e m : Qc) :
  exists st1 d,
    level_pass fs new last n st idx coeff e m = Ok st1
    /\ emg st1 = list_set idx
                   (if (n - idx =? 3)%nat then (0, d) else (fst coeff, d))
                   (emg st).
Proof.
  unfold level_pass.
  destruct (n - idx =? 1)%nat; [|destruct (n - idx =? 2)%nat].
  - destruct (push_median_ok (dq1 st) fs (Qcabs (snd coeff))) as (q & md & ->).
    cbn [bind dq1 dq2 dq3 emg]. eexists; eexists; split; reflexivity.
  - destruct (push_median_ok (dq2 st) fs (Qcabs (snd coeff))) as (q & md & ->).
    cbn [bind dq1 dq2 dq3 emg]. eexists; eexists; split; reflexivity.
  - destruct (push_median_ok (dq3 st) fs (Qcabs (snd coeff))) as (q & md & ->).
    cbn [bind dq1 dq2 dq3 emg]. eexists; eexists; split; reflexivity.
Qed.

End DenoiseFacts.

Section Denoise.

Import SwtEmgDenoise DenoiseFacts Examples.

(** C4, as stated, fails on the first tick of a fresh denoiser fed the
    sample 1: the pair of the finest level (the last of the list) keeps
    its lowpass value, which is not 0, and it is the lowpass of the
    coarsest level, not 0 either when it leaves [swt], that is replaced
    by 0. *)
Lemma C4_counterexample :
  exists fb last st c3 c2 c1,
    thresholded fresh 1 0 768 = Ok (fb, last, st)
    /\ snd (ThreeLayerFilterBank.swt (filter_bank fresh) 1) = (c3, c2, c1)
    /\ fst (nth 2 (emg st) (0, 0)) = fst c1
    /\ fst c1 <> 0
    /\ fst c3 <> 0
    /\ fst (nth 0 (emg st) (0, 0)) = 0.
Proof.
  do 6 eexists. split; [vm_compute; reflexivity|].
  split; [vm_compute; reflexivity|].
  cbn [emg nth fst snd].
  split; [reflexivity|].
  split; [intros E; apply (f_equal this) in E; vm_compute in E; discriminate E|].
  split; [intros E; apply (f_equal this) in E; vm_compute in E; discriminate E|].
  reflexivity.
Qed.

(** C4, amended: on every tick the pair of the coarsest level (level 3,
    the first of the list) gets the lowpass 0, the pairs of the levels 2
    and 1 keep the lowpass values of [swt], and the inverse transform is
    called with 0 and the three thresholded details only: no lowpass
    value of [swt] reaches it. *)
Theorem C4_coarsest_lowpass_is_zeroed (s : t) (sig : Qc) (peak heartrate : Z) :
  num_level s = 3%nat ->
  length (qrs_thresholds s) = 3%nat ->
  length (emg_thresholds s) = 3%nat ->
  exists fb last st d3 d2 d1,
    thresholded s sig peak heartrate = Ok (fb, last, st)
    /\ (let '(c3, c2, c1) :=
          snd (ThreeLayerFilterBank.swt (filter_bank s) sig) in
        emg st = [(0, d3); (fst c2, d2); (fst c1, d1)])
    /\ iswt_arguments (emg st) = (0, d3, d2, d1)
    /\ exists s', swt_emg_denoising s sig peak heartrate
                  = Ok (s', snd (ThreeLayerFilterBank.iswt fb 0 d3 d2 d1)).
Proof.
  intros Hn Hq He.
  destruct (qrs_thresholds s) as [|q0 [|q1 [|q2 [|? ?]]]] eqn:Eq;
    cbn [length] in Hq; try lia.
  destruct (emg_thresholds s) as [|e0 [|e1 [|e2 [|? ?]]]] eqn:Ee;
    cbn [length] in He; try lia.
  unfold swt_emg_denoising, thresholded. rewrite Hn, Eq, Ee.
  destruct (ThreeLayerFilterBank.swt (filter_bank s) sig)
    as [fb [[c3 c2] c1]] eqn:Es.
  cbn [level_loop snd].
  set (new1 := if (_ =? 0)%Z then (- heartrate)%Z else _).
  set (last1 := if (_ =? 0)%Z then 0%Z else _).
  match goal with |- context [level_pass ?f ?a ?b 3 ?st 0 c3 q0 e0] =>
    destruct (level_pass_entry f a b 3 st 0 c3 q0 e0) as (st1 & d3 & -> & E1)
  end.
  cbn [bind].
  destruct (level_pass_entry (fs s) new1 last1 3 st1 1 c2 q1 e1)
    as (st2 & d2 & -> & E2).
  cbn [bind].
  destruct (level_pass_entry (fs s) new1 last1 3 st2 2 c1 q2 e2)
    as (st3 & d1 & -> & E3).
  cbn [bind].
  assert (E : emg st3 = [(0, d3); (fst c2, d2); (fst c1, d1)]).
  { rewrite E3, E2, E1. reflexivity. }
  exists fb, last1, st3, d3, d2, d1.
  split; [reflexivity|]. split; [exact E|].
  split; [rewrite E; reflexivity|].
  rewrite E. cbn [iswt_arguments nth snd].
  change (zq 0) with 0.
  destruct (ThreeLayerFilterBank.iswt fb 0 d3 d2 d1) as [fb1 out].
  eexists; reflexivity.
Qed.

Lemma C4_witness :
  exists fb last st d3 d2 d1,
    thresholded fresh 1 0 768 = Ok (fb, last, st)
    /\ (let '(c3, c2, c1) :=
          snd (ThreeLayerFilterBank.swt (filter_bank fresh) 1) in
        emg st = [(0, d3); (fst c2, d2); (fst c1, d1)])
    /\ iswt_arguments (emg st) = (0, d3, d2, d1)
    /\ exists s', swt_emg_denoising fresh 1 0 768
                  = Ok (s', snd (ThreeLayerFilterBank.iswt fb 0 d3 d2 d1)).
Proof.
  apply (@C4_coarsest_lowpass_is_zeroed fresh 1 0 768); reflexivity.
Defined.

End Denoise.

(** ** The peaks of the QRS detector *)

Module QrsFacts.
Import QrsDetector QrsPending.

Ltac break_ifs :=
  repeat match goal with
         | |- context [if ?c then _ else _] => destruct c
         end.

(** *** What the stages before the validity filter leave untouched *)

Lemma smooth_found_peaks (d : t) (x : Qc) :
  found_peaks (smooth d x) = map (fun p => (p + 1)%Z) (found_peaks d)
  /\ look_at_value (smooth d x) = look_at_value d
  /\ signal_length (smooth d x) = signal_length d
  /\ peak_max_values (smooth d x) = peak_max_values d
  /\ peak_min_values (smooth d x) = peak_min_values d
  /\ box_last (smooth d x) = box_last d
  /\ up_idx (smooth d x) = up_idx d
  /\ down_idx (smooth d x) = down_idx d.
Proof.
  unfold smooth.
  destruct (OnlineFilter.filter (baseline_filter d) x) as [bf x1].
  destruct (OnlineFilter.filter (bandpass d) _) as [bp y].
  cbn [found_peaks look_at_value signal_length peak_max_values
       peak_min_values box_last up_idx down_idx].
  repeat split.
Qed.

Lemma threshold_frame (d : t) :
  found_peaks (fst (threshold d)) = found_peaks d
  /\ look_at_value (fst (threshold d)) = look_at_value d
  /\ signal_length (fst (threshold d)) = signal_length d
  /\ peak_max_values (fst (threshold d)) = peak_max_values d
  /\ peak_min_values (fst (threshold d)) = peak_min_values d
  /\ box_last (fst (threshold d)) = box_last d
  /\ up_idx (fst (threshold d)) = up_idx d
  /\ down_idx (fst (threshold d)) = down_idx d.
Proof.
  unfold threshold, shift_maxima. break_ifs;
    cbn [fst set_maxima found_peaks look_at_value signal_length
         peak_max_values peak_min_values box_last up_idx down_idx
         last_max pre_last_max pre_pre_last_max pre_pre_pre_last_max max_cnt];
    break_ifs;
    cbn [fst set_maxima found_peaks look_at_value signal_length
         peak_max_values peak_min_values box_last up_idx down_idx];
    repeat split.
Qed.

Lemma box_frame (d : t) (v : Qc) :
  found_peaks (box d v) = found_peaks d
  /\ look_at_value (box d v) = look_at_value d
  /\ signal_length (box d v) = signal_length d
  /\ ((0 <= snd (peak_max_values d))%Z ->
      (0 <= snd (peak_max_values (box d v)))%Z)
  /\ ((0 <= snd (peak_min_values d))%Z ->
      (0 <= snd (peak_min_values (box d v)))%Z).
Proof.
  unfold box. break_ifs;
    cbn [set_boxes found_peaks look_at_value signal_length peak_max_values
         peak_min_values snd];
    repeat split; intros; try assumption; unfold half_win; lia.
Qed.

Lemma peak_values_nonneg (d : t) :
  (0 <= snd (peak_max_values d))%Z -> (0 <= snd (peak_min_values d))%Z ->
  (0 <= snd (peak_values d))%Z.
Proof. intros. unfold peak_values. break_ifs; assumption. Qed.

(** A pending index that does not exceed the refractory period blocks the
    validity filter. *)
Lemma accept_blocked (d : t) (a : Z) (rest : list Z) :
  found_peaks d = a :: rest ->
  (0 <= snd (peak_max_values d))%Z -> (0 <= snd (peak_min_values d))%Z ->
  (a <= refractory)%Z ->
  refractory_passed d = false /\ accept d = (d, None).
Proof.
  intros E Pmax Pmin Ha.
  assert (R : refractory_passed d = false).
  { unfold refractory_passed. rewrite E.
    pose proof (peak_values_nonneg _ Pmax Pmin).
    destruct (Z.ltb_spec refractory (a - snd (peak_values d)));
      [lia | reflexivity]. }
  split; [exact R|]. unfold accept. rewrite R, andb_false_r. reflexivity.
Qed.

Lemma accept_index_nonneg (d : t) (i : Z) :
  (0 <= snd (peak_max_values d))%Z -> (0 <= snd (peak_min_values d))%Z ->
  snd (accept d) = Some i -> (0 <= i)%Z.
Proof.
  intros Pmax Pmin. unfold accept. break_ifs; cbn [snd]; intros [= <-].
  apply peak_values_nonneg; assumption.
Qed.

Lemma accept_found_peaks (d : t) (fp : list Z) :
  found_peaks d = fp ->
  found_peaks (fst (accept d))
  = match snd (accept d) with
    | Some i => i :: fp
    | None => fp
    end.
Proof. intros <-. unfold accept. break_ifs; reflexivity. Qed.

Lemma accept_frame (d : t) :
  look_at_value (fst (accept d)) = look_at_value d
  /\ peak_max_values (fst (accept d)) = peak_max_values d
  /\ peak_min_values (fst (accept d)) = peak_min_values d
  /\ found_peaks (fst (accept d))
     = match snd (accept d) with
       | Some i => i :: found_peaks d
       | None => found_peaks d
       end.
Proof. unfold accept. break_ifs; cbn; repeat split. Qed.

Lemma report_spec (d : t) :
  look_at_value (fst (report d)) = look_at_value d
  /\ snd (peak_max_values (fst (report d))) = (snd (peak_max_values d) + 1)%Z
  /\ snd (peak_min_values (fst (report d))) = (snd (peak_min_values d) + 1)%Z.
Proof. unfold report. break_ifs; cbn; repeat split. Qed.

Lemma report_empty (d : t) :
  found_peaks d = [] -> snd (report d) = 0%Z /\ found_peaks (fst (report d)) = [].
Proof. intros E. unfold report. rewrite E. cbn. split; reflexivity. Qed.

Lemma report_one (d : t) (a : Z) :
  found_peaks d = (a :: nil) ->
  ((look_at_value d < a)%Z ->
     snd (report d) = 0%Z /\ found_peaks (fst (report d)) = [])
  /\ (a = look_at_value d ->
     snd (report d) = 1%Z /\ found_peaks (fst (report d)) = [])
  /\ ((a < look_at_value d)%Z ->
     snd (report d) = 0%Z /\ found_peaks (fst (report d)) = (a :: nil)).
Proof.
  intros E. unfold report. rewrite E.
  cbn [length last drop_last Nat.ltb Nat.leb andb firstn Nat.sub].
  destruct (Z.ltb_spec (look_at_value d) a) as [C|C];
    cbn [length last drop_last Nat.ltb Nat.leb andb firstn Nat.sub];
    [|destruct (Z.eqb_spec a (look_at_value d)) as [C2|C2]];
    cbn [fst snd set_boxes found_peaks];
    (split; [|split]); intros C3; try lia; split; reflexivity.
Qed.

Opaque smooth threshold box accept report.

Lemma qrs_detection_eq (d : t) (x : Qc) :
  qrs_detection d x = report (fst (accept (before_accept d x))).
Proof.
  unfold qrs_detection, before_accept.
  destruct (threshold (smooth d x)); reflexivity.
Qed.

Lemma accepted_eq (d : t) (x : Qc) :
  accepted d x = snd (accept (before_accept d x)).
Proof.
  unfold accepted, before_accept.
  destruct (threshold (smooth d x)); reflexivity.
Qed.

Lemma before_accept_frame (d : t) (x : Qc) :
  pending_ok d ->
  found_peaks (before_accept d x) = map (fun p => (p + 1)%Z) (found_peaks d)
  /\ look_at_value (before_accept d x) = look_at_value d
  /\ (0 <= snd (peak_max_values (before_accept d x)))%Z
  /\ (0 <= snd (peak_min_values (before_accept d x)))%Z.
Proof.
  intros [Hl Hmax Hmin _]. unfold before_accept.
  destruct (box_frame (fst (threshold (smooth d x)))
              (snd (threshold (smooth d x)))) as (B1 & B2 & _ & B4 & B5).
  destruct (threshold_frame (smooth d x)) as (T1 & T2 & _ & T4 & T5 & _).
  destruct (smooth_found_peaks d x) as (S1 & S2 & _ & S4 & S5 & _).
  rewrite B1, B2, T1, T2, S1, S2. repeat split.
  - apply B4. rewrite T4, S4. exact Hmax.
  - apply B5. rewrite T5, S5. exact Hmin.
Qed.

(** While a peak is pending the comparison with the refractory period
    cannot succeed: the pending index is at most [look_at_value], which is
    below the refractory period. *)
Lemma refractory_passed_iff_empty (d : t) (x : Qc) :
  pending_ok d ->
  refractory_passed (before_accept d x)
  = match found_peaks d with [] => true | _ => false end.
Proof.
  intros H. destruct (before_accept_frame x H) as (F & L & Pmax & Pmin).
  destruct H as [Hl _ _ [E|(a & E & Ha)]]; rewrite E in *; cbn [map] in F.
  - unfold refractory_passed. rewrite F. reflexivity.
  - apply (accept_blocked _ F Pmax Pmin). lia.
Qed.

(** One call, by what is pending when it starts. *)
Lemma step_pending (d : t) (x : Qc) (a : Z) :
  pending_ok d -> found_peaks d = (a :: nil) ->
  accepted d x = None
  /\ (if (a + 1 =? look_at_value d)%Z
      then snd (qrs_detection d x) = 1%Z
           /\ found_peaks (fst (qrs_detection d x)) = []
      else snd (qrs_detection d x) = 0%Z
           /\ found_peaks (fst (qrs_detection d x)) = ((a + 1)%Z :: nil)).
Proof.
  intros H E.
  destruct (before_accept_frame x H) as (F & L & Pmax & Pmin).
  assert (Ha : (a < look_at_value d)%Z).
  { destruct H as [_ _ _ [E'|(a' & E' & Ha')]]; rewrite E' in E;
      [discriminate | injection E as <-; exact Ha']. }
  assert (F' : found_peaks (before_accept d x) = ((a + 1)%Z :: nil)).
  { etransitivity; [exact F|]. rewrite E. reflexivity. }
  pose proof (look_small H) as Hl.
  destruct (accept_blocked _ F' Pmax Pmin ltac:(lia)) as [_ A].
  rewrite accepted_eq, qrs_detection_eq, A. cbn [fst snd].
  split; [reflexivity|].
  destruct (report_one _ F') as (_ & R2 & R3).
  destruct (Z.eqb_spec (a + 1) (look_at_value d)) as [C|C].
  - apply R2. congruence.
  - apply R3. lia.
Qed.

Lemma step_idle (d : t) (x : Qc) :
  pending_ok d -> found_peaks d = [] ->
  match accepted d x with
  | None => snd (qrs_detection d x) = 0%Z
            /\ found_peaks (fst (qrs_detection d x)) = []
  | Some i =>
      (0 <= i)%Z
      /\ ((look_at_value d < i)%Z ->
            snd (qrs_detection d x) = 0%Z
            /\ found_peaks (fst (qrs_detection d x)) = [])
      /\ (i = look_at_value d ->
            snd (qrs_detection d x) = 1%Z
            /\ found_peaks (fst (qrs_detection d x)) = [])
      /\ ((i < look_at_value d)%Z ->
            snd (qrs_detection d x) = 0%Z
            /\ found_peaks (fst (qrs_detection d x)) = (i :: nil))
  end.
Proof.
  intros H E.
  destruct (before_accept_frame x H) as (F & L & Pmax & Pmin).
  assert (F' : found_peaks (before_accept d x) = []).
  { etransitivity; [exact F|]. rewrite E. reflexivity. }
  pose proof (accept_found_peaks _ F') as A4.
  pose proof (@accept_index_nonneg (before_accept d x)) as Hi.
  destruct (accept_frame (before_accept d x)) as (A1 & _).
  rewrite accepted_eq, qrs_detection_eq.
  destruct (snd (accept (before_accept d x))) as [i|].
  - destruct (report_one _ A4) as (R1 & R2 & R3).
    assert (LL : look_at_value (fst (accept (before_accept d x)))
                 = look_at_value d) by congruence.
    split; [exact (Hi i Pmax Pmin eq_refl)|].
    split; [|split]; intros C.
    + apply R1. congruence.
    + apply R2. congruence.
    + apply R3. congruence.
  - apply report_empty. exact A4.
Qed.

Lemma step_keeps_pending_ok (d : t) (x : Qc) :
  pending_ok d -> pending_ok (fst (qrs_detection d x)).
Proof.
  intros H.
  destruct (before_accept_frame x H) as (F & L & Pmax & Pmin).
  destruct (accept_frame (before_accept d x)) as (A1 & A2 & A3 & _).
  destruct (report_spec (fst (accept (before_accept d x)))) as (R1 & R2 & R3).
  assert (HL : look_at_value (fst (qrs_detection d x)) = look_at_value d).
  { rewrite qrs_detection_eq, R1, A1, L. reflexivity. }
  constructor.
  - rewrite HL. apply H.
  - rewrite qrs_detection_eq, R2, A2. lia.
  - rewrite qrs_detection_eq, R3, A3. lia.
  - rewrite HL. destruct (one_pending H) as [E|(a & E & Ha)].
    + pose proof (step_idle x H E) as S.
      destruct (accepted d x) as [i|].
      * destruct S as (_ & S1 & S2 & S3).
        destruct (Z.lt_trichotomy i (look_at_value d)) as [C|[C|C]].
        -- right. exists i. split; [apply S3; exact C | exact C].
        -- left. apply S2; exact C.
        -- left. apply S1; exact C.
      * left. apply S.
    + destruct (step_pending x H E) as (_ & S).
      destruct (Z.eqb_spec (a + 1) (look_at_value d)).
      * left. apply S.
      * right. exists (a + 1)%Z. split; [apply S | lia].
Qed.

Section Butterworth.

Variables b_baseline a_baseline b_band a_band : list Qc.

Lemma init_pending_ok (D : Z) (d0 : t) :
  init b_baseline a_baseline b_band a_band D = Ok d0 ->
  pending_ok d0 /\ look_at_value d0 = (D - 1)%Z /\ (280 <= D <= 400)%Z.
Proof.
  unfold init. destruct (Z.leb_spec 280 D), (Z.leb_spec D 400);
    cbn [andb]; try discriminate.
  intros [= <-]. split; [|split; [reflexivity | lia]].
  constructor; cbn; unfold refractory; try lia. left; reflexivity.
Qed.

End Butterworth.

Lemma state_pending_ok (d0 : t) (x : nat -> Qc) (n : nat) :
  pending_ok d0 -> pending_ok (state_at d0 x n).
Proof.
  intros H. induction n as [|n IH]; cbn [state_at]; [exact H|].
  apply step_keeps_pending_ok, IH.
Qed.

Lemma state_look (d0 : t) (x : nat -> Qc) (n : nat) :
  pending_ok d0 -> look_at_value (state_at d0 x n) = look_at_value d0.
Proof.
  intros H. induction n as [|n IH]; cbn [state_at]; [reflexivity|].
  rewrite <- IH.
  pose proof (state_pending_ok x n H) as P.
  destruct (before_accept_frame (x n) P) as (_ & L & _).
  destruct (accept_frame (before_accept (state_at d0 x n) (x n))) as (A1 & _).
  destruct (report_spec (fst (accept (before_accept (state_at d0 x n) (x n)))))
    as (R1 & _).
  rewrite qrs_detection_eq, R1, A1, L. reflexivity.
Qed.

End QrsFacts.

Module QrsStreams.
Import QrsDetector QrsPending QrsFacts.

Section Stream.

Variable d0 : t.
Variable x : nat -> Qc.
Hypothesis Hok : pending_ok d0.
Hypothesis Hempty : found_peaks d0 = [].








End Stream.

End QrsStreams.

Section Peaks.

Import QrsDetector QrsPending QrsFacts QrsStreams Examples.




(** C6: two unit pulses 200 samples apart, at the ticks 100 and 300, are
    both recorded as peaks (calls 252 and 452, index 152 each, so the
    samples of the ticks 100 and 300) and both are flagged (calls 399 and
    599), although they are less than 512 samples apart. *)
Theorem C6_close_peaks_are_both_recorded :
  events 0 (snd (run det0 (pulses [100%nat; 300%nat] 700)))
  = [(252%nat, 0%Z, Some 152%Z); (399%nat, 1%Z, None);
     (452%nat, 0%Z, Some 152%Z); (599%nat, 1%Z, None)].
Proof. vm_compute. reflexivity. Qed.

End Peaks.

(** ** All-zero input *)

Module QuietFacts.
Import QuietStates.

Lemma all_zero_nth (l : list Qc) (i : nat) : all_zero l -> nth i l 0 = 0.
Proof.
  intros H. revert i. induction H as [|a l Ha _ IH]; intros [|i]; cbn [nth];
    auto.
Qed.

Lemma all_zero_set (l : list Qc) (i : nat) :
  all_zero l -> all_zero (list_set i 0 l).
Proof.
  intros H. revert i. induction H as [|a l Ha Hl IH]; intros [|i];
    cbn [list_set]; constructor; auto; try apply IH.
Qed.

Lemma all_zero_repeat (n : nat) : all_zero (repeat 0 n).
Proof. induction n; cbn [repeat]; constructor; auto. Qed.

Lemma all_zero_firstn (n : nat) (l : list Qc) :
  all_zero l -> all_zero (firstn n l).
Proof.
  intros H. revert n. induction H as [|a l Ha Hl IH]; intros [|n];
    cbn [firstn]; constructor; auto; try apply IH.
Qed.

Lemma all_zero_skipn (n : nat) (l : list Qc) :
  all_zero l -> all_zero (skipn n l).
Proof.
  intros H. revert n. induction H as [|a l Ha Hl IH]; intros [|n];
    cbn [skipn]; try constructor; auto; try apply IH.
Qed.

Lemma all_zero_app (l1 l2 : list Qc) :
  all_zero l1 -> all_zero l2 -> all_zero (l1 ++ l2).
Proof. intros. apply Forall_app; split; assumption. Qed.

Lemma all_zero_last (l : list Qc) : all_zero l -> last l 0 = 0.
Proof.
  induction 1 as [|a l Ha Hl IH]; [reflexivity|].
  destruct l; [exact Ha | exact IH].
Qed.

Lemma all_zero_max (l : list Qc) : all_zero l -> QrsDetector.list_max l = 0.
Proof.
  intros H. destruct H as [|a l Ha Hl]; [reflexivity|].
  cbn [QrsDetector.list_max]. subst a.
  induction Hl as [|b l Hb _ IH]; cbn [fold_left]; [reflexivity|].
  subst b. exact IH.
Qed.

Import OnlineFilter.

Lemma periodic_extension_zero (fuel n i : nat) (buf : list Qc) :
  all_zero buf -> all_zero (periodic_extension fuel n i buf).
Proof.
  revert n i buf; induction fuel as [|k IH]; intros n i buf H;
    cbn [periodic_extension]; [exact H|].
  apply IH. rewrite (all_zero_nth i H). apply all_zero_set, H.
Qed.

Lemma accumulate_zero (coeffs buf : list Qc) (p : Z) (len : nat) (idx : Z) :
  all_zero buf -> accumulate coeffs buf p len idx 0 = 0.
Proof.
  intros H. revert idx; induction coeffs as [|c cs IH]; intros idx;
    cbn [accumulate]; [reflexivity|].
  rewrite (all_zero_nth _ H).
  replace (0 + c * 0) with 0 by ring. apply IH.
Qed.

Lemma feedback_zero (coeffs buf : list Qc) (p : Z) (len : nat) (idx : Z) :
  all_zero buf -> feedback coeffs buf p len idx 0 = 0.
Proof.
  intros H. revert idx; induction coeffs as [|c cs IH]; intros idx;
    cbn [feedback]; [reflexivity|].
  rewrite (all_zero_nth _ H).
  replace (0 - c * 0) with 0 by ring. apply IH.
Qed.

Lemma zero_div (q : Qc) : 0 / q = 0.
Proof. unfold Qcdiv. apply Qcmult_0_l. Qed.

(** A filter whose buffers hold zeros answers the sample 0 with 0 and
    keeps zeros in its buffers. *)
Lemma filter_zero (f : t) :
  quiet_filter f ->
  snd (filter f 0) = 0 /\ quiet_filter (fst (filter f 0)).
Proof.
  intros [Hi Ho]. unfold filter.
  set (buf1 := list_set (Z.to_nat (input_pointer f)) 0 (buffer_input f)).
  assert (H1 : all_zero buf1) by (apply all_zero_set, Hi).
  set (buf2 := if _ && _ then _ else buf1).
  assert (H2 : all_zero buf2).
  { unfold buf2. destruct (_ && _); [apply periodic_extension_zero|]; exact H1. }
  rewrite (accumulate_zero _ _ _ _ H2).
  destruct (type_of_filter f =? 1)%Z.
  - rewrite (feedback_zero _ _ _ _ Ho), zero_div. cbn [fst snd].
    split; [reflexivity|]. split; cbn [buffer_input buffer_output];
      [exact H2 | apply all_zero_set, Ho].
  - rewrite zero_div. cbn [fst snd]. split; [reflexivity|].
    split; cbn [buffer_input buffer_output]; assumption.
Qed.

Lemma filter_init_quiet (ty : Z) (c_in c_out : list Qc) :
  quiet_filter (init ty c_in c_out).
Proof.
  split; cbn [init buffer_input buffer_output].
  - apply all_zero_repeat.
  - destruct (ty =? 1)%Z; [apply all_zero_repeat | constructor].
Qed.

End QuietFacts.

Module QuietDetector.
Import QrsDetector QuietStates QuietFacts.

Lemma all_zero_drop_last (l : list Qc) : all_zero l -> all_zero (drop_last l).
Proof. apply all_zero_firstn. Qed.

Lemma smooth_quiet (d : t) : quiet_detector d -> quiet_detector (smooth d 0).
Proof.
  intros Q. unfold smooth.
  destruct (filter_zero (q_baseline Q)) as [B1 B2].
  destruct (OnlineFilter.filter (baseline_filter d) 0) as [bf x1].
  cbn [fst snd] in B1, B2. subst x1. cbn [hd].
  destruct (filter_zero (q_bandpass Q)) as [P1 P2].
  destruct (OnlineFilter.filter (bandpass d) 0) as [bp y].
  cbn [fst snd] in P1, P2. subst y.
  set (filtered := if (2 <? _)%nat then _ else _).
  assert (Hf : all_zero filtered).
  { unfold filtered. destruct (2 <? _)%nat;
      [apply all_zero_drop_last|]; constructor; auto; apply (q_filtered Q). }
  set (squared := if (1 <? _)%nat then _ else _).
  assert (Hs : all_zero squared).
  { unfold squared. destruct (1 <? _)%nat; [|apply (q_squared Q)].
    rewrite !(all_zero_nth _ Hf).
    replace ((0 - 0) * (0 - 0)) with 0 by ring.
    constructor; [reflexivity|]. constructor; [reflexivity|].
    unfold slice. apply all_zero_skipn, all_zero_firstn, (q_squared Q). }
  set (sum2 := if (win_len <? _)%nat then _ else _).
  assert (Hsum : sum2 = 0).
  { unfold sum2. rewrite (q_sum Q), (all_zero_nth _ Hs), (all_zero_last Hs).
    destruct (win_len <? _)%nat; ring. }
  rewrite Hsum, zero_div.
  set (mean1 := if (_ <? _)%Z then _ else _).
  assert (Hm : all_zero mean1).
  { unfold mean1.
    assert (all_zero (repeat 0 half_win ++ skipn (half_win - 1) (mean_signal d))).
    { apply all_zero_app; [apply all_zero_repeat|].
      apply all_zero_skipn, (q_mean Q). }
    destruct (_ <? _)%Z; [apply all_zero_drop_last|]; assumption. }
  constructor; cbn [baseline_filter bandpass buffered_signal filtered_signal
                    squared_signal mean_signal sum_for_mean last_max
                    pre_last_max pre_pre_last_max pre_pre_pre_last_max box_last
                    found_peaks up_idx down_idx]; try assumption;
    try apply Q.
  - constructor; [reflexivity|]. apply all_zero_drop_last, (q_buffered Q).
  - reflexivity.
  - rewrite (q_peaks Q). reflexivity.
Qed.

Lemma threshold_quiet (d : t) :
  quiet_detector d -> quiet_detector (fst (threshold d)) /\ snd (threshold d) = 0.
Proof.
  intros Q. unfold threshold, shift_maxima.
  rewrite (all_zero_max (q_mean Q)).
  rewrite (q_max1 Q), (q_max2 Q), (q_max3 Q), (q_max4 Q).
  change (Qcltb (zq 1000 * Qcmax (Qcmax 0 0) 0) 0) with false. cbv iota.
  rewrite (q_max1 Q), (q_max2 Q), (q_max3 Q), (q_max4 Q).
  change (Qceqb 0 0) with true. cbn [andb].
  destruct (signal_length d <=? max_cnt d)%Z; cbn [fst snd set_maxima
      last_max pre_last_max pre_pre_last_max pre_pre_pre_last_max max_cnt];
    (split; [|reflexivity]);
    constructor; cbn [set_maxima baseline_filter bandpass buffered_signal
                      filtered_signal squared_signal mean_signal sum_for_mean
                      last_max pre_last_max pre_pre_last_max
                      pre_pre_pre_last_max box_last found_peaks up_idx
                      down_idx]; try apply Q; reflexivity.
Qed.

Lemma box_quiet (d : t) : quiet_detector d -> box d 0 = d.
Proof.
  intros Q. unfold box, above. rewrite (all_zero_nth _ (q_mean Q)).
  change (Qcltb (thr * 0) 0) with false. cbv iota.
  rewrite (q_box Q). reflexivity.
Qed.

Lemma accept_quiet (d : t) : quiet_detector d -> accept d = (d, None).
Proof.
  intros Q. unfold accept, box_is_valid. rewrite (q_idx Q), Z.sub_diag.
  change (130 <=? 0)%Z with false. rewrite !andb_false_r. reflexivity.
Qed.

Lemma report_quiet (d : t) :
  quiet_detector d -> snd (report d) = 0%Z /\ quiet_detector (fst (report d)).
Proof.
  intros Q. unfold report. rewrite (q_peaks Q).
  cbn [length Nat.ltb Nat.leb andb fst snd]. split; [reflexivity|].
  constructor; cbn [set_boxes baseline_filter bandpass buffered_signal
                    filtered_signal squared_signal mean_signal sum_for_mean
                    last_max pre_last_max pre_pre_last_max
                    pre_pre_pre_last_max box_last found_peaks up_idx down_idx];
    try apply Q; try reflexivity.
  rewrite (q_idx Q). reflexivity.
Qed.

(** A quiet_detector detector answers the sample 0 with the flag 0, records no
    peak and stays quiet_detector. *)
Lemma qrs_detection_quiet (d : t) :
  quiet_detector d ->
  snd (qrs_detection d 0) = 0%Z /\ accepted d 0 = None
  /\ quiet_detector (fst (qrs_detection d 0)).
Proof.
  intros Q. unfold qrs_detection, accepted.
  destruct (threshold_quiet (smooth_quiet Q)) as [T1 T2].
  destruct (threshold (smooth d 0)) as [d2 v]. cbn [fst snd] in T1, T2.
  subst v. rewrite (box_quiet T1), (accept_quiet T1). cbn [fst snd].
  destruct (report_quiet T1) as [R1 R2].
  split; [exact R1|]. split; [reflexivity | exact R2].
Qed.

Lemma detector_init_quiet (b_baseline a_baseline b_band a_band : list Qc) (D : Z)
    (d : t) :
  init b_baseline a_baseline b_band a_band D = Ok d -> quiet_detector d.
Proof.
  unfold init. destruct (_ && _); [|discriminate]. intros [= <-].
  constructor; cbn; try reflexivity; try apply filter_init_quiet;
    try apply all_zero_repeat; constructor.
Qed.

End QuietDetector.

Module QuietSelector.
Import BetterEcgDetector QuietStates QuietFacts.

Lemma feed_channel_zero (n k i : nat) (b : t) :
  quiet_selector n k b -> (i < n)%nat ->
  exists b', feed_channel b i (repeat 0 n) = Ok b'
             /\ quiet_selector n (if (i =? 0)%nat then S k else k) b'
             /\ duration b' = duration b.
Proof.
  intros Q Hi. unfold feed_channel.
  rewrite (nth_error_repeat 0 Hi).
  destruct (filter_zero (s_filter Q)) as [F1 F2].
  destruct (OnlineFilter.filter (baseline_filter b) 0) as [bf value].
  cbn [fst snd] in F1, F2. subst value.
  assert (Qd : quiet_detector (nth i (peak_detectors b) QrsDetector.dummy)).
  { pose proof (s_quiet Q) as H. rewrite Forall_forall in H.
    apply H, nth_In. rewrite (s_detectors Q). exact Hi. }
  destruct (QuietDetector.qrs_detection_quiet Qd) as (D1 & _ & D3).
  destruct (QrsDetector.qrs_detection _ 0) as [det peak].
  cbn [fst snd] in D1, D3. subst peak. cbn [Z.eqb andb].
  eexists. split; [reflexivity|]. split; [|reflexivity].
  constructor; cbn [num_ecgs ecg_signals ecg_peak_heights peak_detectors
                    baseline_filter].
  - apply Q.
  - rewrite list_set_length. apply Q.
  - rewrite list_set_same. apply Q.
  - rewrite list_set_length. apply Q.
  - apply list_set_Forall; [exact D3 | apply Q].
  - exact F2.
  - destruct (Nat.eqb_spec i 0) as [->|Hne].
    + rewrite list_set_nth_eq by (rewrite (s_signals Q); lia).
      rewrite length_app, (s_fed Q). cbn. lia.
    + rewrite list_set_nth_neq by exact Hne. apply Q.
Qed.

Lemma feed_channels_zero (n c i k : nat) (b : t) :
  quiet_selector n k b -> (i + c = n)%nat ->
  exists b', feed_channels b i c (repeat 0 n) = Ok b'
             /\ quiet_selector n (if (i =? 0)%nat && (0 <? c)%nat then S k else k) b'
             /\ duration b' = duration b.
Proof.
  revert i k b. induction c as [|c IH]; intros i k b Q Hn.
  - exists b. cbn [feed_channels]. rewrite andb_false_r. auto.
  - cbn [feed_channels].
    destruct (@feed_channel_zero n k i b Q ltac:(lia)) as (b1 & -> & Q1 & E1).
    cbn [bind].
    destruct (IH (S i) _ b1 Q1 ltac:(lia)) as (b2 & E2 & Q2 & E3).
    exists b2. split; [exact E2|]. split; [|congruence].
    cbn [Nat.eqb andb] in Q2. destruct (i =? 0)%nat; exact Q2.
Qed.

Lemma score_without_peaks (n k : nat) (b : t) :
  quiet_selector n k b -> (1 <= n)%nat -> score b = Raise StatisticsError.
Proof.
  intros Q Hn. unfold score. rewrite (s_n Q), (s_heights Q).
  destruct n as [|m]; [lia|]. reflexivity.
Qed.

(** One call with a tuple of zeros. *)
Lemma find_better_ecg_zero (n k : nat) (b : t) :
  quiet_selector n k b -> (1 <= n)%nat ->
  (zq (Z.of_nat (S k)) < duration b ->
   exists b', find_better_ecg b (repeat 0 n) = Ok (b', (-1)%Z)
              /\ quiet_selector n (S k) b' /\ duration b' = duration b)
  /\ (duration b <= zq (Z.of_nat (S k)) ->
      find_better_ecg b (repeat 0 n) = Raise StatisticsError).
Proof.
  intros Q Hn. unfold find_better_ecg. rewrite (s_n Q).
  destruct (@feed_channels_zero n n 0 k b Q eq_refl) as (b1 & -> & Q1 & E1).
  cbn [bind]. cbn [Nat.eqb andb] in Q1.
  destruct (Nat.ltb_spec 0 n) as [_|]; [|lia].
  rewrite (s_fed Q1), E1. split; intros H.
  - apply Qcltb_lt in H. rewrite H. exists b1. auto.
  - apply Qcltb_ge in H. rewrite H.
    rewrite (score_without_peaks Q1 Hn). reflexivity.
Qed.

Section Butterworth.

Variables b_baseline a_baseline b_band a_band : list Qc.

Lemma detectors_quiet (k : nat) :
  exists ds, detectors b_baseline a_baseline b_band a_band k = Ok ds
             /\ length ds = k /\ Forall quiet_detector ds.
Proof.
  induction k as [|k (ds & E & L & F)]; cbn [detectors].
  - exists []. split; [reflexivity|]. split; [reflexivity | constructor].
  - destruct (QrsDetector.init b_baseline a_baseline b_band a_band 300)
      as [d|] eqn:Ed; [|discriminate Ed].
    cbn [bind]. rewrite E. cbn [bind]. exists (d :: ds).
    split; [reflexivity|]. split; [cbn; congruence|].
    constructor; [|exact F]. exact (QuietDetector.detector_init_quiet _ _ _ _ _ Ed).
Qed.

Lemma selector_init_quiet (num_ECGs : Z) (duration_s : Qc) (fs : Z) (b0 : t) :
  init b_baseline a_baseline b_band a_band num_ECGs duration_s fs = Ok b0 ->
  quiet_selector (Z.to_nat num_ECGs) 0 b0 /\ (2 <= Z.to_nat num_ECGs)%nat
  /\ duration b0 = duration_s * zq fs.
Proof.
  unfold init. destruct (Z.ltb_spec 1 num_ECGs); cbn [negb]; [|discriminate].
  destruct (Qcltb (dec 5 2) duration_s); cbn [negb]; [|discriminate].
  destruct (detectors_quiet (Z.to_nat num_ECGs)) as (ds & -> & L & F).
  cbn [bind]. intros [= <-]. split; [|split; [lia | reflexivity]].
  constructor; cbn [num_ecgs ecg_signals ecg_peak_heights peak_detectors
                    baseline_filter]; try reflexivity; try assumption.
  - apply repeat_length.
  - apply QuietFacts.filter_init_quiet.
  - destruct (Z.to_nat num_ECGs); reflexivity.
Qed.

End Butterworth.

(** While the window has not elapsed every call on zeros returns -1. *)
Lemma state_at_zero (n : nat) (b0 : t) (k : nat) :
  quiet_selector n 0 b0 -> (1 <= n)%nat ->
  (k = 0%nat \/ zq (Z.of_nat k) < duration b0) ->
  exists bk, state_at b0 (fun _ => repeat 0 n) k = Ok bk
             /\ quiet_selector n k bk /\ duration bk = duration b0.
Proof.
  intros Q Hn. induction k as [|k IH]; intros Hk.
  - exists b0. auto.
  - destruct Hk as [Hk|Hk]; [discriminate|].
    destruct IH as (bk & E & Qk & Dk).
    { destruct k; [left; reflexivity | right].
      eapply Qclt_trans; [|exact Hk]. apply zq_lt. lia. }
    cbn [state_at]. rewrite E. cbn [bind].
    destruct (find_better_ecg_zero Qk Hn) as [Hlt _].
    destruct Hlt as (b' & -> & Q' & D'); [rewrite Dk; exact Hk|].
    cbn [bind fst]. exists b'.
    split; [reflexivity|]. split; [exact Q' | congruence].
Qed.

End QuietSelector.

Section QuietChannels.

Import BetterEcgDetector QuietStates QuietSelector Examples.

(** C3: fed tuples of zeros, no channel records a peak; every call before
    the configured sample count returns -1, and the call that reaches it
    raises [StatisticsError] from the mean of an empty list of heights
    instead of returning a channel index. *)
Theorem C3_scoring_raises_without_peaks
    (b_baseline a_baseline b_band a_band : list Qc) (num_ECGs : Z)
    (duration_s : Qc) (fs : Z) (b0 : t) (N : nat) :
  init b_baseline a_baseline b_band a_band num_ECGs duration_s fs = Ok b0 ->
  (N = 0%nat \/ zq (Z.of_nat N) < duration_s * zq fs) ->
  duration_s * zq fs <= zq (Z.of_nat (S N)) ->
  (forall k, (k < N)%nat ->
     out_at b0 (fun _ => repeat 0 (Z.to_nat num_ECGs)) k = Ok (-1)%Z)
  /\ out_at b0 (fun _ => repeat 0 (Z.to_nat num_ECGs)) N
     = Raise StatisticsError.
Proof.
  intros Hinit Hbefore Hafter.
  destruct (selector_init_quiet _ _ _ _ _ _ _ Hinit) as (Q & Hn & Hd).
  rewrite <- Hd in Hbefore, Hafter.
  assert (Hn1 : (1 <= Z.to_nat num_ECGs)%nat) by lia.
  split.
  - intros k Hk. unfold out_at.
    assert (Hk' : zq (Z.of_nat (S k)) < duration b0).
    { destruct Hbefore as [->|Hb]; [lia|].
      destruct (Nat.eq_dec (S k) N) as [->|Hne]; [exact Hb|].
      eapply Qclt_trans; [|exact Hb]. apply zq_lt. lia. }
    destruct (@state_at_zero _ b0 k Q Hn1) as (bk & -> & Qk & Dk).
    { destruct k; [left; reflexivity | right].
      eapply Qclt_trans; [|exact Hk']. apply zq_lt. lia. }
    cbn [bind]. destruct (find_better_ecg_zero Qk Hn1) as [Hlt _].
    destruct Hlt as (b' & -> & _); [rewrite Dk; exact Hk'|]. reflexivity.
  - unfold out_at.
    destruct (@state_at_zero _ b0 N Q Hn1 Hbefore) as (bN & -> & QN & DN).
    cbn [bind]. destruct (find_better_ecg_zero QN Hn1) as [_ Hge].
    rewrite Hge by (rewrite DN; exact Hafter). reflexivity.
Qed.

Lemma C3_witness :
  (forall k, (k < Z.to_nat 5119)%nat ->
     out_at two_quiet_channels (fun _ => repeat 0 (Z.to_nat 2)) k = Ok (-1)%Z)
  /\ out_at two_quiet_channels (fun _ => repeat 0 (Z.to_nat 2)) (Z.to_nat 5119)
     = Raise StatisticsError.
Proof.
  apply (@C3_scoring_raises_without_peaks
           PassThrough.b3 PassThrough.a3 PassThrough.b9 PassThrough.a9
           2 (zq 5) 1024 two_quiet_channels (Z.to_nat 5119)).
  - reflexivity.
  - right. vm_compute. reflexivity.
  - vm_compute. discriminate.
Defined.

End QuietChannels.

(** ** The round trip through the filter bank *)

Module RingFacts.
Import OnlineFilter Streams.

Lemma periodic_extension_length (fuel n i : nat) (buf : list Qc) :
  length (periodic_extension fuel n i buf) = length buf.
Proof.
  revert n i buf; induction fuel as [|k IH]; intros n i buf;
    cbn [periodic_extension]; [reflexivity|].
  rewrite IH. apply list_set_length.
Qed.

(** The periodic extension writes at [n] and beyond only. *)
Lemma periodic_extension_below (fuel n i j : nat) (buf : list Qc) :
  (j < n)%nat ->
  nth j (periodic_extension fuel n i buf) 0 = nth j buf 0.
Proof.
  revert n i buf; induction fuel as [|k IH]; intros n i buf H;
    cbn [periodic_extension]; [reflexivity|].
  rewrite IH by lia. apply list_set_nth_neq. lia.
Qed.

Lemma mod_index (n k L : nat) :
  (1 <= L)%nat -> (k <= n)%nat ->
  pymod (Z.of_nat (S n mod L) - 1 - Z.of_nat k) L = ((n - k) mod L)%nat.
Proof.
  intros HL Hk. unfold pymod.
  rewrite Nat2Z.inj_mod.
  replace (Z.of_nat (S n) mod Z.of_nat L - 1 - Z.of_nat k)%Z
    with (Z.of_nat (S n) mod Z.of_nat L - (1 + Z.of_nat k))%Z by lia.
  rewrite Zminus_mod_idemp_l.
  replace (Z.of_nat (S n) - (1 + Z.of_nat k))%Z with (Z.of_nat (n - k)) by lia.
  rewrite <- Nat2Z.inj_mod. apply Nat2Z.id.
Qed.

Lemma next_pointer (n L : nat) :
  (1 <= L)%nat ->
  (if (Z.of_nat (n mod L) =? Z.of_nat L - 1)%Z then 0%Z
   else (Z.of_nat (n mod L) + 1)%Z) = Z.of_nat (S n mod L).
Proof.
  intros HL.
  pose proof (Nat.mod_upper_bound n L ltac:(lia)) as B.
  replace (S n) with (n + 1)%nat by lia.
  rewrite (Nat.Div0.add_mod n 1 L).
  destruct (Z.eqb_spec (Z.of_nat (n mod L)) (Z.of_nat L - 1)) as [E|E].
  - assert (E' : (n mod L = L - 1)%nat) by lia. rewrite E'.
    destruct (Nat.eq_dec L 1) as [->|H1]; [reflexivity|].
    rewrite (Nat.mod_small 1 L) by lia.
    replace (L - 1 + 1)%nat with L by lia. rewrite Nat.Div0.mod_same.
    reflexivity.
  - assert (1 < L)%nat by lia.
    rewrite (Nat.mod_small 1 L) by lia.
    rewrite (Nat.mod_small (n mod L + 1) L) by lia. lia.
Qed.

Lemma mod_distinct (t n L : nat) :
  (t < n)%nat -> (n - t < L)%nat -> (t mod L <> n mod L)%nat.
Proof.
  intros Ht Hd E.
  assert (HL : (L <> 0)%nat) by lia.
  pose proof (Nat.div_mod_eq t L). pose proof (Nat.div_mod_eq n L).
  assert (t / L <= n / L)%nat by (apply Nat.Div0.div_le_mono; lia).
  assert (n / L = t / L \/ t / L + 1 <= n / L)%nat as [Q|Q] by lia; nia.
Qed.

Section Fir.

Variable b : list Qc.
Variable u : nat -> Qc.
Hypothesis Hb : (1 <= length b)%nat.

Lemma fir_inv_init : fir_inv b u 0 (init 0 b []).
Proof.
  constructor; cbn [init type_of_filter coefficients_in norm buffer_input
                    input_pointer cnt Z.eqb]; try reflexivity.
  - apply repeat_length.
  - rewrite Nat.Div0.mod_0_l. reflexivity.
  - intros; lia.
Qed.

Lemma accumulate_conv (coeffs buf : list Qc) (p : Z) (len n k : nat)
    (acc : Qc) :
  (forall j, (k <= j < k + length coeffs)%nat ->
             nth (pymod (p - 1 - Z.of_nat j) len) buf 0 = u (n - j)%nat) ->
  accumulate coeffs buf p len (Z.of_nat k) acc = conv_from coeffs u n k acc.
Proof.
  revert k acc; induction coeffs as [|c cs IH]; intros k acc H;
    cbn [accumulate conv_from]; [reflexivity|].
  rewrite (H k) by (cbn [length]; lia).
  replace (Z.of_nat k + 1)%Z with (Z.of_nat (S k)) by lia.
  apply IH. intros j Hj. apply H. cbn [length]. lia.
Qed.

Lemma Qcdiv_1 (q : Qc) : q / 1 = q.
Proof. unfold Qcdiv. change (/ 1) with 1. ring. Qed.

(** One call: the invariant moves on, and once the ring holds as many
    samples as there are taps the returned value is the convolution. *)
Lemma fir_step (n : nat) (f : t) :
  fir_inv b u n f ->
  fir_inv b u (S n) (fst (filter f (u n)))
  /\ ((length b - 1 <= n)%nat -> snd (filter f (u n)) = conv b u n).
Proof.
  intros I. unfold filter.
  rewrite (fi_type I), (fi_coeffs I), (fi_norm I), (fi_pointer I), (fi_cnt I).
  cbn [Z.eqb]. rewrite Nat2Z.id.
  set (L := length b) in *.
  pose proof (Nat.mod_upper_bound n L ltac:(lia)) as Bn.
  set (buf1 := list_set (n mod L) (u n) (buffer_input f)).
  set (buf2 := if true && _ then _ else buf1).
  assert (Hlen : length buf2 = L).
  { unfold buf2. destruct (true && _);
      [rewrite periodic_extension_length|]; unfold buf1;
      rewrite list_set_length; apply (fi_length I). }
  assert (Hring : forall t, (t < S n)%nat -> (S n - t <= L)%nat ->
                            nth (t mod L) buf2 0 = u t).
  { intros t Ht Hd.
    assert (Hbuf1 : nth (t mod L) buf1 0 = u t).
    { unfold buf1. destruct (Nat.eq_dec t n) as [->|Hne].
      - apply list_set_nth_eq. rewrite (fi_length I). exact Bn.
      - rewrite list_set_nth_neq
          by (intros E; apply (@mod_distinct t n L); lia).
        apply (fi_ring I); lia. }
    unfold buf2. destruct (Z.ltb_spec (Z.of_nat n + 1) (Z.of_nat L - 1));
      cbn [andb]; [|exact Hbuf1].
    rewrite periodic_extension_below; [exact Hbuf1|].
    rewrite (Nat.mod_small t L), (Nat.mod_small n L) by lia. lia. }
  rewrite (next_pointer n Hb). fold L.
  cbn [fst snd]. split.
  - constructor; cbn [type_of_filter coefficients_in norm buffer_input
                      input_pointer cnt]; try reflexivity; try assumption.
    lia.
  - intros Hn. rewrite Qcdiv_1. unfold conv.
    change 0%Z with (Z.of_nat 0).
    apply accumulate_conv. intros j Hj.
    rewrite mod_index by lia. apply Hring; lia.
Qed.

Lemma fir_state_inv (n : nat) : fir_inv b u n (fir_state b u n).
Proof.
  induction n as [|n IH]; cbn [fir_state]; [apply fir_inv_init|].
  apply fir_step, IH.
Qed.

(** From tick [len(b) - 1] on the filter returns the convolution of its
    taps with its input. *)
Lemma fir_out_conv (n : nat) :
  (length b - 1 <= n)%nat -> fir_out b u n = conv b u n.
Proof. intros H. unfold fir_out. apply fir_step; [apply fir_state_inv | exact H]. Qed.

End Fir.

Section Delay.

Variable len : nat.
Variable v : nat -> Qc.
Hypothesis Hlen : (1 <= len)%nat.

Lemma delay_step_inv (n : nat) (bp : list Qc * Z) :
  delay_inv len v n bp ->
  delay_inv len v (S n) (fst (delay_step bp (v n)))
  /\ ((len - 1 <= n)%nat ->
      snd (delay_step bp (v n)) = v (n - (len - 1))%nat).
Proof.
  intros I. unfold delay_step. cbn [fst snd].
  rewrite (di_pointer I), (di_length I), Nat2Z.id.
  pose proof (Nat.mod_upper_bound n len ltac:(lia)) as Bn.
  assert (Hp : ((Z.of_nat (n mod len) + 1) mod Z.of_nat len)%Z
               = Z.of_nat (S n mod len)).
  { replace (Z.of_nat (n mod len) + 1)%Z with (Z.of_nat (n mod len + 1)) by lia.
    rewrite <- Nat2Z.inj_mod. f_equal.
    replace (S n) with (n + 1)%nat by lia.
    rewrite (Nat.Div0.add_mod n 1 len).
    destruct (Nat.eq_dec len 1) as [->|H1].
    - rewrite !Nat.mod_1_r. reflexivity.
    - rewrite (Nat.mod_small 1 len) by lia. reflexivity. }
  rewrite Hp, Nat2Z.id.
  assert (Hring : forall t, (t < S n)%nat -> (S n - t <= len)%nat ->
             nth (t mod len) (list_set (n mod len) (v n) (fst bp)) 0 = v t).
  { intros t Ht Hd. destruct (Nat.eq_dec t n) as [->|Hne].
    - apply list_set_nth_eq. rewrite (di_length I). exact Bn.
    - rewrite list_set_nth_neq
        by (intros E; apply (@mod_distinct t n len); lia).
      apply (di_ring I); lia. }
  split.
  - constructor; cbn [fst snd]; [|reflexivity|exact Hring].
    rewrite list_set_length. apply (di_length I).
  - intros Hn.
    replace (S n mod len)%nat with ((n - (len - 1)) mod len)%nat.
    + apply Hring; lia.
    + replace (S n) with ((n - (len - 1)) + 1 * len)%nat by lia.
      rewrite Nat.Div0.mod_add. reflexivity.
Qed.

Lemma delay_state_inv (n : nat) : delay_inv len v n (delay_state len v n).
Proof.
  induction n as [|n IH]; cbn [delay_state].
  - constructor; cbn [fst snd].
    + apply repeat_length.
    + rewrite Nat.Div0.mod_0_l. reflexivity.
    + intros; lia.
  - apply delay_step_inv, IH.
Qed.


End Delay.

(** *** Convolutions *)

Lemma conv_from_ext (b : list Qc) (u w : nat -> Qc) (n m k : nat) (acc : Qc) :
  (forall j, (k <= j < k + length b)%nat -> u (n - j)%nat = w (m - j)%nat) ->
  conv_from b u n k acc = conv_from b w m k acc.
Proof.
  revert k acc; induction b as [|c cs IH]; intros k acc H;
    cbn [conv_from]; [reflexivity|].
  rewrite (H k) by (cbn [length]; lia).
  apply IH. intros j Hj. apply H. cbn [length]. lia.
Qed.



End RingFacts.

Module BankFacts.
Import Streams RoundTripStreams RingFacts FilterBank.

Opaque OnlineFilter.filter.

Section RoundTrip.

Variables dl dh rl rh : list Qc.
Variable x : nat -> Qc.

Lemma bank_at_0 : init dl dh rl rh 3 = bank_at dl dh rl rh x 0.
Proof. reflexivity. Qed.

Lemma roundtrip_bank_at (n : nat) :
  roundtrip (bank_at dl dh rl rh x n) (x n) = (bank_at dl dh rl rh x (S n), sum1 dl dh rl rh x n / zq 2).
Proof.
  unfold roundtrip, swt, iswt, bank_at, sum1, sum2, sum3, detail1, detail2,
    high1, high2, high3, low1, low2, low3, fir_out, delay_out, delay_step.
  cbn [num_levels delay buffers buffer_pointers decomposition_filter_low
       decomposition_filter_high recomposition_filter_low
       recomposition_filter_high filter_at swt_loop iswt_loop nth list_set
       fst snd length Nat.sub Nat.add rev app hd tl map fir_state
       delay_state].
  reflexivity.
Qed.

Lemma roundtrip_state_bank (n : nat) :
  roundtrip_state (init dl dh rl rh 3) x n = bank_at dl dh rl rh x n.
Proof.
  induction n as [|n IH]; cbn [roundtrip_state]; [apply bank_at_0|].
  rewrite IH, roundtrip_bank_at. reflexivity.
Qed.

(** The value the round trip returns at tick [n]. *)
Lemma roundtrip_out_streams (n : nat) :
  roundtrip_out (init dl dh rl rh 3) x n = sum1 dl dh rl rh x n / zq 2.
Proof.
  unfold roundtrip_out. rewrite roundtrip_state_bank, roundtrip_bank_at.
  reflexivity.
Qed.

End RoundTrip.

End BankFacts.

Module ReconstructionFacts.
Import Streams RoundTripStreams RingFacts FilterBank BankFacts.

Section Taps.

(** The taps of the four filters. *)
Variables d0 d1 d2 d3 e0 e1 e2 e3 r0 r1 r2 r3 s0 s1 s2 s3 : Qc.

Let dl := [d0; d1; d2; d3].
Let dh := [e0; e1; e2; e3].
Let rl := [r0; r1; r2; r3].
Let rh := [s0; s1; s2; s3].

Hypothesis P0 : r0 * d0 + s0 * e0 = 0.
Hypothesis P1 : r0 * d1 + r1 * d0 + (s0 * e1 + s1 * e0) = 0.
Hypothesis P2 :
  r0 * d2 + r1 * d1 + r2 * d0 + (s0 * e2 + s1 * e1 + s2 * e0) = 0.
Hypothesis P3 :
  r0 * d3 + r1 * d2 + r2 * d1 + r3 * d0
  + (s0 * e3 + s1 * e2 + s2 * e1 + s3 * e0) = zq 2.
Hypothesis P4 :
  r1 * d3 + r2 * d2 + r3 * d1 + (s1 * e3 + s2 * e2 + s3 * e1) = 0.
Hypothesis P5 : r2 * d3 + r3 * d2 + (s2 * e3 + s3 * e2) = 0.
Hypothesis P6 : r3 * d3 + s3 * e3 = 0.






Variable x : nat -> Qc.





End Taps.

End ReconstructionFacts.

Module QuietBank.
Import FilterBank QuietStates QuietFacts.

Lemma filter_at_zero (fs : list OnlineFilter.t) (i : nat) :
  Forall quiet_filter fs ->
  snd (filter_at fs i 0) = 0 /\ Forall quiet_filter (fst (filter_at fs i 0)).
Proof.
  intros H. unfold filter_at. cbn [fst snd].
  assert (Q : quiet_filter (nth i fs dummy)).
  { destruct (Nat.lt_ge_cases i (length fs)) as [Hi|Hi].
    - rewrite Forall_forall in H. apply H, nth_In, Hi.
    - rewrite nth_overflow by exact Hi. apply filter_init_quiet. }
  destruct (filter_zero Q) as [F1 F2]. split; [exact F1|].
  apply list_set_Forall; assumption.
Qed.

Lemma swt_loop_zero (fuel i : nat) (lows highs : list OnlineFilter.t)
    (coeffs : list (Qc * Qc)) :
  Forall quiet_filter lows -> Forall quiet_filter highs ->
  Forall zero_pair coeffs ->
  Forall quiet_filter (fst (fst (swt_loop fuel i lows highs 0 coeffs)))
  /\ Forall quiet_filter (snd (fst (swt_loop fuel i lows highs 0 coeffs)))
  /\ Forall zero_pair (snd (swt_loop fuel i lows highs 0 coeffs)).
Proof.
  revert i lows highs coeffs; induction fuel as [|k IH];
    intros i lows highs coeffs Hl Hh Hc; cbn [swt_loop].
  - cbn [fst snd]. auto.
  - destruct (filter_at_zero (S i) Hl) as [L1 L2].
    destruct (filter_at lows (S i) 0) as [lows' lo]. cbn [fst snd] in L1, L2.
    destruct (filter_at_zero (S i) Hh) as [H1 H2].
    destruct (filter_at highs (S i) 0) as [highs' hi]. cbn [fst snd] in H1, H2.
    subst lo hi. apply IH; try assumption.
    apply Forall_app. split; [exact Hc|]. constructor; [reflexivity|constructor].
Qed.

Lemma iswt_loop_zero (hs : list Qc) (i : nat) (lows highs : list OnlineFilter.t)
    (bufs : list (list Qc)) (ptrs : list Z) :
  all_zero hs -> Forall quiet_filter lows -> Forall quiet_filter highs ->
  Forall all_zero bufs ->
  match iswt_loop hs i lows highs bufs ptrs 0 with
  | (lows', highs', bufs', _, res) =>
      Forall quiet_filter lows' /\ Forall quiet_filter highs'
      /\ Forall all_zero bufs' /\ res = 0
  end.
Proof.
  intros Hhs. revert i lows highs bufs ptrs.
  induction Hhs as [|v hs Hv _ IH]; intros i lows highs bufs ptrs Hl Hh Hb;
    cbn [iswt_loop]; [auto|]. subst v.
  destruct (filter_at_zero (length lows - (i + 2)) Hl) as [L1 L2].
  destruct (filter_at lows _ 0) as [lows' lo]. cbn [fst snd] in L1, L2.
  destruct (filter_at_zero (length highs - (i + 2)) Hh) as [H1 H2].
  destruct (filter_at highs _ 0) as [highs' hi]. cbn [fst snd] in H1, H2.
  subst lo hi.
  assert (Hbuf : all_zero (nth i bufs [])).
  { destruct (Nat.lt_ge_cases i (length bufs)) as [Hi|Hi].
    - rewrite Forall_forall in Hb. apply Hb, nth_In, Hi.
    - rewrite nth_overflow by exact Hi. constructor. }
  pose proof (all_zero_set (Z.to_nat (nth i ptrs 0%Z)) Hbuf) as Hbuf'.
  rewrite (all_zero_nth _ Hbuf'), zero_div.
  replace (0 + 0) with 0 by ring.
  apply IH; try assumption. apply list_set_Forall; assumption.
Qed.

(** A bank whose filters and buffers hold zeros returns 0 for the sample
    0 and stays so. *)
Lemma roundtrip_zero (fb : t) :
  quiet_bank fb -> snd (roundtrip fb 0) = 0 /\ quiet_bank (fst (roundtrip fb 0)).
Proof.
  intros Q. unfold roundtrip, swt.
  destruct (filter_at_zero 0 (qb_dl Q)) as [L1 L2].
  destruct (filter_at (decomposition_filter_low fb) 0 0) as [lows0 lo0].
  cbn [fst snd] in L1, L2.
  destruct (filter_at_zero 0 (qb_dh Q)) as [H1 H2].
  destruct (filter_at (decomposition_filter_high fb) 0 0) as [highs0 hi0].
  cbn [fst snd] in H1, H2. subst lo0 hi0.
  assert (Hc0 : Forall zero_pair [(0, 0)])
    by (constructor; [reflexivity | constructor]).
  destruct (swt_loop_zero (num_levels fb - 1) 0 L2 H2 Hc0) as (S1 & S2 & S3).
  destruct (swt_loop (num_levels fb - 1) 0 lows0 highs0 0 [(0, 0)])
    as [[lows highs] coeffs]. cbn [fst snd] in S1, S2, S3.
  assert (Hrev : Forall zero_pair (rev coeffs)).
  { apply Forall_forall. intros c Hc. rewrite Forall_forall in S3.
    apply S3, in_rev, Hc. }
  assert (Hhd : fst (hd (0, 0) (rev coeffs)) = 0).
  { destruct Hrev as [|c l Hc _]; [reflexivity|]. rewrite Hc. reflexivity. }
  assert (Hsnd : all_zero (map snd (rev coeffs))).
  { apply Forall_map. eapply Forall_impl; [|exact Hrev].
    intros c Hc. rewrite Hc. reflexivity. }
  rewrite Hhd. unfold iswt.
  cbn [recomposition_filter_low recomposition_filter_high buffers
       buffer_pointers num_levels delay decomposition_filter_low
       decomposition_filter_high].
  destruct (filter_at_zero (length (recomposition_filter_low fb) - 1)
              (qb_rl Q)) as [R1 R2].
  destruct (filter_at (recomposition_filter_low fb) _ 0) as [rlows rlo].
  cbn [fst snd] in R1, R2.
  assert (Hh0 : hd 0 (map snd (rev coeffs)) = 0).
  { destruct Hsnd as [|c l Hc _]; [reflexivity | exact Hc]. }
  rewrite Hh0.
  destruct (filter_at_zero (length (recomposition_filter_high fb) - 1)
              (qb_rh Q)) as [G1 G2].
  destruct (filter_at (recomposition_filter_high fb) _ 0) as [rhighs rhi].
  cbn [fst snd] in G1, G2. subst rlo rhi.
  replace (0 + 0) with 0 by ring.
  assert (Htl : all_zero (tl (map snd (rev coeffs)))).
  { destruct Hsnd; [constructor | assumption]. }
  pose proof (@iswt_loop_zero _ 0 rlows rhighs (buffers fb)
                (buffer_pointers fb) Htl R2 G2 (qb_buffers Q)) as I.
  destruct (iswt_loop _ 0 rlows rhighs (buffers fb) (buffer_pointers fb) 0)
    as [[[[lows' highs'] bufs'] ptrs'] res].
  destruct I as (I1 & I2 & I3 & ->).
  cbn [fst snd]. split; [apply zero_div|].
  constructor; cbn [decomposition_filter_low decomposition_filter_high
                    recomposition_filter_low recomposition_filter_high
                    buffers]; assumption.
Qed.

Section Wavelet.

Variables dl dh rl rh : list Qc.

Lemma make_filters_quiet (c : list Qc) (n : nat) :
  Forall quiet_filter (make_filters c n).
Proof.
  unfold make_filters. apply Forall_map, Forall_forall.
  intros b _. apply filter_init_quiet.
Qed.

Lemma bank_init_quiet (n : nat) : quiet_bank (init dl dh rl rh n).
Proof.
  constructor; cbn [init decomposition_filter_low decomposition_filter_high
                    recomposition_filter_low recomposition_filter_high
                    buffers]; try apply make_filters_quiet.
  apply Forall_map, Forall_forall. intros k _. apply all_zero_repeat.
Qed.

(** For the input that is 0 at every tick the round trip returns 0 at
    every tick, whatever the number of levels and the taps. *)
Lemma roundtrip_out_zero (levels n : nat) :
  roundtrip_out (init dl dh rl rh levels) (fun _ => 0) n = 0.
Proof.
  unfold roundtrip_out.
  assert (Q : quiet_bank (roundtrip_state (init dl dh rl rh levels) (fun _ => 0) n)).
  { induction n as [|n IH]; cbn [roundtrip_state];
      [apply bank_init_quiet | apply roundtrip_zero, IH]. }
  apply roundtrip_zero, Q.
Qed.

End Wavelet.

End QuietBank.

Module DelayFacts.
Import FilterBank.

Lemma fold_add_shift (l : list Z) (a : Z) :
  fold_left Z.add l a = (a + fold_left Z.add l 0)%Z.
Proof.
  revert a; induction l as [|y l IH]; intros a; cbn [fold_left]; [lia|].
  rewrite IH, (IH (0 + y)%Z). lia.
Qed.

(** The delay of a bank is the sum of [3 * 2^i] over its levels. *)
Lemma sum_of_delays (n : nat) :
  sumZ (filter_delays n) = (3 * (2 ^ Z.of_nat n - 1))%Z.
Proof.
  unfold sumZ, filter_delays. induction n as [|n IH]; [reflexivity|].
  rewrite seq_S, map_app, fold_left_app, IH. cbn [map fold_left Nat.add].
  rewrite Nat2Z.inj_succ, Z.pow_succ_r by lia. lia.
Qed.

End DelayFacts.

Section RoundTrip.

Import FilterBank Examples.





End RoundTrip.

(** ** The recursive filter *)

Module DirectFormFacts.
Import OnlineFilter DirectForm RingFacts.

Lemma dot_nil (c : list Qc) : dot c [] = 0.
Proof. destruct c; reflexivity. Qed.

Lemma skipn_nth_cons (k : nat) (h : list Qc) :
  (k < length h)%nat -> skipn k h = nth k h 0 :: skipn (S k) h.
Proof.
  revert h. induction k as [|k IH]; intros [|x h] H; cbn [length] in H;
    try lia.
  - reflexivity.
  - cbn [skipn nth]. rewrite IH by lia. reflexivity.
Qed.

Lemma dot_skipn (c0 : Qc) (cs h : list Qc) (k : nat) :
  dot (c0 :: cs) (skipn k h) = c0 * nth k h 0 + dot cs (skipn (S k) h).
Proof.
  destruct (Nat.lt_ge_cases k (length h)) as [H|H].
  - rewrite skipn_nth_cons by exact H. reflexivity.
  - rewrite (skipn_all2 h) by lia. rewrite (skipn_all2 h) by lia.
    rewrite nth_overflow by lia. rewrite !dot_nil. ring.
Qed.

(** The loop over the numerator reads the ring as a dot product. *)
Lemma accumulate_dot (coeffs buf : list Qc) (p : Z) (len k : nat)
    (h : list Qc) (acc : Qc) :
  (forall j, (k <= j < k + length coeffs)%nat ->
             nth (pymod (p - 1 - Z.of_nat j) len) buf 0 = nth j h 0) ->
  accumulate coeffs buf p len (Z.of_nat k) acc
  = acc + dot coeffs (skipn k h).
Proof.
  revert k acc. induction coeffs as [|c rest IH]; intros k acc H.
  - cbn [accumulate dot]. ring.
  - cbn [accumulate]. rewrite dot_skipn.
    replace (Z.of_nat k + 1)%Z with (Z.of_nat (S k)) by lia.
    rewrite IH.
    + rewrite (H k) by (cbn [length]; lia). ring.
    + intros j Hj. apply H. cbn [length]. lia.
Qed.

(** The loop over the denominator subtracts one. *)
Lemma feedback_dot (coeffs buf : list Qc) (p : Z) (len k : nat)
    (h : list Qc) (acc : Qc) :
  (forall j, (k <= j < k + length coeffs)%nat ->
             nth (pymod (p - 1 - Z.of_nat j) len) buf 0 = nth j h 0) ->
  feedback coeffs buf p len (Z.of_nat k) acc
  = acc - dot coeffs (skipn k h).
Proof.
  revert k acc. induction coeffs as [|c rest IH]; intros k acc H.
  - cbn [feedback dot]. ring.
  - cbn [feedback]. rewrite dot_skipn.
    replace (Z.of_nat k + 1)%Z with (Z.of_nat (S k)) by lia.
    rewrite IH.
    + rewrite (H k) by (cbn [length]; lia). ring.
    + intros j Hj. apply H. cbn [length]. lia.
Qed.

Lemma behind_pointer (n j L : nat) :
  (1 <= L)%nat -> (j < L)%nat ->
  pymod (Z.of_nat (n mod L) - 1 - Z.of_nat j) L = ((n + L - 1 - j) mod L)%nat.
Proof.
  intros HL Hj. unfold pymod.
  rewrite Nat2Z.inj_mod.
  replace (Z.of_nat n mod Z.of_nat L - 1 - Z.of_nat j)%Z
    with (Z.of_nat n mod Z.of_nat L - (1 + Z.of_nat j))%Z by lia.
  rewrite Zminus_mod_idemp_l.
  replace (Z.of_nat n - (1 + Z.of_nat j))%Z
    with (Z.of_nat (n + L - 1 - j) + (-1) * Z.of_nat L)%Z by lia.
  rewrite Z_mod_plus_full.
  rewrite <- Nat2Z.inj_mod. apply Nat2Z.id.
Qed.

Lemma ring_init (L : nat) : ring_holds L 0 (zeros L) [].
Proof.
  split; [apply repeat_length|].
  intros j _. unfold zeros. rewrite nth_repeat. destruct j; reflexivity.
Qed.

Lemma ring_write (L T : nat) (buf h : list Qc) (v : Qc) :
  (1 <= L)%nat -> ring_holds L T buf h ->
  ring_holds L (S T) (list_set (T mod L) v buf) (v :: h).
Proof.
  intros HL [Hlen Hr].
  pose proof (Nat.mod_upper_bound T L ltac:(lia)) as B.
  assert (E : ((T + L) mod L = T mod L)%nat).
  { replace (T + L)%nat with (T + 1 * L)%nat by lia.
    apply Nat.Div0.mod_add. }
  split; [rewrite list_set_length; exact Hlen|].
  intros [|j] Hj.
  - replace (S T + L - 1 - 0)%nat with (T + L)%nat by lia.
    rewrite E. cbn [nth]. apply list_set_nth_eq. lia.
  - replace (S T + L - 1 - S j)%nat with (T + L - 1 - j)%nat by lia.
    cbn [nth]. rewrite list_set_nth_neq.
    + apply Hr. lia.
    + rewrite <- E. intros C. symmetry in C. revert C.
      apply mod_distinct; lia.
Qed.

Section Iir.

Variables b a : list Qc.
Variable u : nat -> Qc.
Hypothesis Hb : (1 <= length b)%nat.
Hypothesis Ha : (2 <= length a)%nat.

Lemma iir_inv_init : iir_inv b a u 0 (init 1 b a).
Proof.
  split; cbn [init type_of_filter coefficients_in coefficients_out norm
              buffer_input buffer_output input_pointer output_pointer
              Z.eqb history outputs]; try reflexivity.
  - apply ring_init.
  - apply ring_init.
  - rewrite Nat.Div0.mod_0_l. reflexivity.
  - rewrite Nat.Div0.mod_0_l. reflexivity.
Qed.

Lemma tl_length (l : list Qc) : length (tl l) = (length l - 1)%nat.
Proof. destruct l; cbn [tl length]; lia. Qed.

(** One call: the invariant moves on and the returned value is the next
    output of the difference equation. *)
Lemma iir_step (n : nat) (f : t) :
  iir_inv b a u n f ->
  iir_inv b a u (S n) (fst (filter f (u n)))
  /\ snd (filter f (u n)) = hd 0 (outputs b a u (S n)).
Proof.
  intros I.
  pose proof (@ring_write _ _ _ _ (u n) Hb (ii_inputs I)) as Rin.
  assert (HM : (1 <= length a - 1)%nat) by lia.
  set (ret := dot b (history u (S n)) - dot (tl a) (outputs b a u n)).
  pose proof (@ring_write _ _ _ _ (ret / hd 1 a) HM (ii_outputs I)) as Rout.
  assert (Eacc :
    accumulate b (list_set (n mod length b) (u n) (buffer_input f))
      (Z.of_nat (S n mod length b)) (length b) 0 0
    = dot b (history u (S n))).
  { change 0%Z with (Z.of_nat 0).
    rewrite (@accumulate_dot b _ _ (length b) 0 (history u (S n)) 0).
    - cbn [skipn]. ring.
    - intros j Hj. rewrite behind_pointer by lia.
      apply (proj2 Rin). lia. }
  assert (Efb : forall acc,
    feedback (tl a) (buffer_output f) (Z.of_nat (n mod (length a - 1)))
      (length (tl a)) 0 acc
    = acc - dot (tl a) (outputs b a u n)).
  { intros acc. change 0%Z with (Z.of_nat 0).
    rewrite (@feedback_dot (tl a) _ _ (length (tl a)) 0 (outputs b a u n) acc).
    - cbn [skipn]. reflexivity.
    - intros j Hj. rewrite tl_length in *. rewrite behind_pointer by lia.
      apply (proj2 (ii_outputs I)). lia. }
  unfold filter.
  rewrite (ii_type I), (ii_in I), (ii_out I), (ii_norm I), (ii_pin I),
    (ii_pout I).
  cbn [Z.eqb andb Pos.eqb]. rewrite !Nat2Z.id.
  rewrite (@next_pointer n _ Hb).
  rewrite tl_length at 2.
  rewrite (@next_pointer n _ HM).
  rewrite Eacc, Efb. fold ret.
  cbn [fst snd]. split.
  - split; cbn [type_of_filter coefficients_in coefficients_out norm
                buffer_input buffer_output input_pointer output_pointer];
      try reflexivity.
    + exact Rin.
    + exact Rout.
  - reflexivity.
Qed.

Lemma iir_state_inv (n : nat) : iir_inv b a u n (iir_state b a u n).
Proof.
  induction n as [|n IH]; [apply iir_inv_init|].
  cbn [iir_state]. apply iir_step. exact IH.
Qed.

End Iir.

End DirectFormFacts.

(** X1: The IIR filter computes the difference equation of its coefficients:
    with a numerator [b] and a denominator [a] of at least two
    coefficients, the first of them not 0, the value returned at tick [n]
    is [(b_0 u(n) + b_1 u(n-1) + ... - a_1 y(n-1) - a_2 y(n-2) - ...) / a_0],
    where the samples and the outputs before tick 0 count as 0. *)
Theorem iir_filter_is_direct_form (b a : list Qc) (u : nat -> Qc) (n : nat) :
  (1 <= length b)%nat -> (2 <= length a)%nat -> hd 1 a <> 0 ->
  DirectForm.iir_out b a u n
  = (DirectForm.dot b (DirectForm.history u (S n))
     - DirectForm.dot (tl a) (DirectForm.outputs b a u n)) / hd 1 a.
Proof.
  intros Hb Ha _. unfold DirectForm.iir_out.
  destruct (@DirectFormFacts.iir_step b a u Hb Ha n _
              (@DirectFormFacts.iir_state_inv b a u Hb Ha n)) as [_ E].
  rewrite E. reflexivity.
Qed.

Lemma iir_filter_is_direct_form_witness :
  ((1 <= length [zq 1; zq 2])%nat /\ (2 <= length [zq 2; zq 1; zq 1])%nat
   /\ hd 1 [zq 2; zq 1; zq 1] <> 0)
  /\ DirectForm.iir_out [zq 1; zq 2] [zq 2; zq 1; zq 1] (fun k => zq (Z.of_nat k)) 5
     = (DirectForm.dot [zq 1; zq 2]
          (DirectForm.history (fun k => zq (Z.of_nat k)) 6)
        - DirectForm.dot (tl [zq 2; zq 1; zq 1])
            (DirectForm.outputs [zq 1; zq 2] [zq 2; zq 1; zq 1]
               (fun k => zq (Z.of_nat k)) 5))
       / hd 1 [zq 2; zq 1; zq 1].
Proof.
  assert (H1 : (1 <= length [zq 1; zq 2])%nat) by (cbn; lia).
  assert (H2 : (2 <= length [zq 2; zq 1; zq 1])%nat) by (cbn; lia).
  assert (H3 : hd 1 [zq 2; zq 1; zq 1] <> 0).
  { cbn [hd]. intros E. apply (f_equal this) in E. vm_compute in E.
    discriminate. }
  split; [split; [exact H1 | split; [exact H2 | exact H3]]|].
  exact (iir_filter_is_direct_form [zq 1; zq 2] [zq 2; zq 1; zq 1]
           (fun k => zq (Z.of_nat k)) 5 H1 H2 H3).
Defined.

(** ** The FIR filter and the delay buffers *)

Module WarmUpFacts.
Import OnlineFilter Streams DirectForm RingFacts DirectFormFacts.

Lemma history_length (u : nat -> Qc) (n : nat) : length (history u n) = n.
Proof. induction n as [|n IH]; cbn [history length]; [reflexivity | lia]. Qed.

Lemma history_nth (u : nat -> Qc) (n j : nat) :
  (j < n)%nat -> nth j (history u n) 0 = u (n - 1 - j)%nat.
Proof.
  revert j. induction n as [|n IH]; intros j H; [lia|].
  destruct j as [|j]; cbn [history nth].
  - f_equal. lia.
  - rewrite IH by lia. f_equal. lia.
Qed.

Lemma nth_map_seq (f : nat -> Qc) (L j : nat) :
  (j < L)%nat -> nth j (map f (seq 0 L)) 0 = f j.
Proof.
  intros H. rewrite (nth_indep _ 0 (f 0%nat)) by (rewrite length_map, length_seq; exact H).
  rewrite map_nth, seq_nth by exact H. reflexivity.
Qed.

(** The convolution of the steady state as a dot product. *)
Lemma conv_from_dot (b : list Qc) (u : nat -> Qc) (n k : nat) (acc : Qc) :
  (k + length b <= S n)%nat ->
  conv_from b u n k acc = acc + dot b (skipn k (history u (S n))).
Proof.
  revert k acc. induction b as [|c rest IH]; intros k acc H.
  - cbn [conv_from dot]. ring.
  - cbn [length] in H. cbn [conv_from]. rewrite dot_skipn, IH by lia.
    rewrite history_nth by lia.
    replace (S n - 1 - k)%nat with (n - k)%nat by lia. ring.
Qed.

(** The loop of the periodic extension repeats the cells below its start
    with the period of that start. *)
Lemma periodic_extension_repeats (u : nat -> Qc) (q fuel n : nat)
    (buf : list Qc) :
  (1 <= q)%nat -> (q <= n)%nat -> (n + fuel <= length buf)%nat ->
  (forall m, (m < n)%nat -> nth m buf 0 = u (m mod q)%nat) ->
  forall m, (m < n + fuel)%nat ->
    nth m (periodic_extension fuel n (n - q) buf) 0 = u (m mod q)%nat.
Proof.
  revert n buf. induction fuel as [|fuel IH]; intros n buf Hq Hn Hlen H m Hm.
  - cbn [periodic_extension]. apply H. lia.
  - cbn [periodic_extension].
    replace (S (n - q)) with (S n - q)%nat by lia.
    apply IH; try lia.
    + rewrite list_set_length. lia.
    + intros m' Hm'. destruct (Nat.eq_dec m' n) as [->|Hne].
      * rewrite list_set_nth_eq by lia. rewrite H by lia.
        f_equal. replace n with ((n - q) + 1 * q)%nat at 2 by lia.
        rewrite Nat.Div0.mod_add. reflexivity.
      * rewrite list_set_nth_neq by lia. apply H. lia.
Qed.

Section Fir.

Variable b : list Qc.
Variable u : nat -> Qc.

(** What the filter returns while the periodic extension is at work. *)
Lemma fir_out_warm_up (n : nat) :
  (n + 3 <= length b)%nat ->
  fir_out b u n
  = dot b (map (fun j => u (((n + length b - j) mod length b) mod S n)%nat)
               (seq 0 (length b))).
Proof.
  intros Hn. assert (Hb : (1 <= length b)%nat) by lia.
  pose proof (@fir_state_inv b u Hb n) as I.
  unfold fir_out, filter.
  rewrite (fi_type I), (fi_coeffs I), (fi_norm I), (fi_pointer I), (fi_cnt I).
  rewrite Nat.mod_small by lia. rewrite Nat2Z.id.
  replace (Z.of_nat n + 1 <? Z.of_nat (length b) - 1)%Z with true
    by (symmetry; apply Z.ltb_lt; lia).
  replace (Z.of_nat n =? Z.of_nat (length b) - 1)%Z with false
    by (symmetry; apply Z.eqb_neq; lia).
  cbn [Z.eqb andb snd]. rewrite Qcdiv_1.
  set (buf1 := list_set n (u n) (buffer_input (fir_state b u n))).
  assert (Hlen : length buf1 = length b).
  { unfold buf1. rewrite list_set_length. apply (fi_length I). }
  assert (Hlow : forall m, (m < S n)%nat -> nth m buf1 0 = u (m mod S n)%nat).
  { intros m Hm. rewrite Nat.mod_small by lia. unfold buf1.
    destruct (Nat.eq_dec m n) as [->|Hne].
    - apply list_set_nth_eq. rewrite (fi_length I). lia.
    - rewrite list_set_nth_neq by lia.
      rewrite <- (Nat.mod_small m (length b)) at 1 by lia.
      apply (fi_ring I); lia. }
  pose proof (@periodic_extension_repeats u (S n) (length b - (n + 1)) (S n)
                buf1 ltac:(lia) ltac:(lia) ltac:(lia) Hlow) as Hall.
  replace (S n - S n)%nat with 0%nat in Hall by lia.
  replace (length b - (n + 1))%nat with (length b - S n)%nat in Hall by lia.
  replace (n + 1)%nat with (S n) by lia.
  change 0%Z with (Z.of_nat 0) at 1.
  replace (Z.of_nat n + 1)%Z with (Z.of_nat (S n mod length b))
    by (rewrite Nat.mod_small by lia; lia).
  rewrite (@accumulate_dot b _ _ (length b) 0
             (map (fun j => u (((n + length b - j) mod length b) mod S n)%nat)
                  (seq 0 (length b))) 0).
  - cbn [skipn]. ring.
  - intros j Hj. rewrite behind_pointer by lia.
    rewrite nth_map_seq by lia.
    replace (S n + length b - 1 - j)%nat with (n + length b - j)%nat by lia.
    apply Hall.
    pose proof (Nat.mod_upper_bound (n + length b - j) (length b)
                  ltac:(lia)). lia.
Qed.

End Fir.

Lemma dot_constant (c l : list Qc) (v : Qc) :
  length l = length c -> Forall (fun x => x = v) l ->
  dot c l = list_sum c * v.
Proof.
  revert l. induction c as [|c0 cs IH]; intros [|x xs] Hl Hall;
    cbn [length] in Hl; try lia.
  - cbn [dot]. unfold list_sum. cbn [fold_left]. ring.
  - inversion Hall as [|? ? Hx Hxs]; subst.
    cbn [dot]. rewrite list_sum_cons, IH by (try lia; assumption). ring.
Qed.

(** The content of a delay buffer, as a ring. *)
Lemma delay_state_ring (len : nat) (v : nat -> Qc) (n : nat) :
  (1 <= len)%nat ->
  ring_holds len n (fst (delay_state len v n)) (history v n).
Proof.
  intros Hlen. induction n as [|n IH]; [apply ring_init|].
  cbn [delay_state]. unfold delay_step. cbn [fst].
  rewrite (di_pointer (@delay_state_inv len v Hlen n)), Nat2Z.id.
  cbn [history]. apply ring_write; assumption.
Qed.

End WarmUpFacts.

(** X2: From the call number [len(b)] on a FIR filter returns the convolution
    [b_0 u(n) + b_1 u(n-1) + ...] of its taps with the newest samples. *)
Theorem fir_filter_is_convolution (b : list Qc) (u : nat -> Qc) (n : nat) :
  (1 <= length b)%nat -> (length b - 1 <= n)%nat ->
  Streams.fir_out b u n = DirectForm.dot b (DirectForm.history u (S n)).
Proof.
  intros Hb Hn. rewrite (@RingFacts.fir_out_conv b u Hb n Hn).
  unfold Streams.conv. rewrite WarmUpFacts.conv_from_dot by lia.
  cbn [skipn]. ring.
Qed.

Lemma fir_filter_is_convolution_witness :
  ((1 <= length Db2.dec_lo)%nat /\ (length Db2.dec_lo - 1 <= 7)%nat)
  /\ Streams.fir_out Db2.dec_lo (fun k => zq (Z.of_nat k)) 7
     = DirectForm.dot Db2.dec_lo
         (DirectForm.history (fun k => zq (Z.of_nat k)) 8).
Proof.
  assert (H1 : (1 <= length Db2.dec_lo)%nat) by (cbn; lia).
  assert (H2 : (length Db2.dec_lo - 1 <= 7)%nat) by (cbn; lia).
  split; [split; assumption|].
  exact (fir_filter_is_convolution Db2.dec_lo (fun k => zq (Z.of_nat k))
           H1 H2).
Defined.

(** X3: During its first calls a FIR filter of [L] taps repeats the samples it
    has received so far periodically through the rest of its ring: at
    tick [n <= L - 3] the tap [b_j] meets the sample
    [u(((n + L - j) mod L) mod (n + 1))]; on the first call every tap meets
    the first sample, so the output is the sum of the taps times that
    sample. *)
Theorem fir_warm_up_is_periodic (b : list Qc) (u : nat -> Qc) (n : nat) :
  (n + 3 <= length b)%nat ->
  Streams.fir_out b u n
  = DirectForm.dot b
      (map (fun j => u (((n + length b - j) mod length b) mod S n)%nat)
           (seq 0 (length b)))
  /\ (n = 0%nat -> Streams.fir_out b u n = list_sum b * u 0%nat).
Proof.
  intros Hn. split; [apply WarmUpFacts.fir_out_warm_up; exact Hn|].
  intros ->. rewrite WarmUpFacts.fir_out_warm_up by exact Hn.
  apply WarmUpFacts.dot_constant.
  - rewrite length_map, length_seq. reflexivity.
  - apply Forall_forall. intros x Hx. apply in_map_iff in Hx.
    destruct Hx as (j & <- & _). rewrite Nat.mod_1_r. reflexivity.
Qed.

Lemma fir_warm_up_is_periodic_witness :
  (1 + 3 <= length Db2.rec_lo)%nat
  /\ Streams.fir_out Db2.rec_lo (fun k => zq (Z.of_nat k)) 1
     = DirectForm.dot Db2.rec_lo
         (map (fun j => zq (Z.of_nat (((1 + length Db2.rec_lo - j)
                                        mod length Db2.rec_lo) mod 2)%nat))
              (seq 0 (length Db2.rec_lo)))
  /\ (1%nat = 0%nat ->
      Streams.fir_out Db2.rec_lo (fun k => zq (Z.of_nat k)) 1
      = list_sum Db2.rec_lo * zq (Z.of_nat 0)).
Proof.
  assert (H : (1 + 3 <= length Db2.rec_lo)%nat) by (cbn; lia).
  split; [exact H|].
  exact (@fir_warm_up_is_periodic Db2.rec_lo (fun k => zq (Z.of_nat k)) 1 H).
Defined.

(** X4: A delay buffer of [len] cells returns 0 during its first [len - 1]
    ticks and from then on the value written [len - 1] ticks before. *)
Theorem delay_buffer_shifts_its_input (len : nat) (v : nat -> Qc) (n : nat) :
  (1 <= len)%nat ->
  ((n < len - 1)%nat -> Streams.delay_out len v n = 0)
  /\ ((len - 1 <= n)%nat ->
      Streams.delay_out len v n = v (n - (len - 1))%nat).
Proof.
  intros Hlen.
  assert (E : Streams.delay_out len v n
              = nth (len - 1) (DirectForm.history v (S n)) 0).
  { unfold Streams.delay_out, Streams.delay_step. cbn [snd fst].
    pose proof (@RingFacts.delay_state_inv len v Hlen n) as I.
    pose proof (@WarmUpFacts.delay_state_ring len v n Hlen) as R.
    rewrite (Streams.di_pointer I), (Streams.di_length I), Nat2Z.id.
    pose proof (@DirectFormFacts.ring_write len n _ _ (v n) Hlen R) as [_ W].
    replace ((Z.of_nat (n mod len) + 1) mod Z.of_nat len)%Z
      with (Z.of_nat ((S n + len - 1 - (len - 1)) mod len)).
    - rewrite Nat2Z.id. apply W. lia.
    - replace (S n + len - 1 - (len - 1))%nat with (n + 1)%nat by lia.
      rewrite Nat2Z.inj_mod, Nat2Z.inj_add, Nat2Z.inj_mod.
      rewrite Zplus_mod_idemp_l. reflexivity. }
  split; intros H; rewrite E.
  - apply nth_overflow. rewrite WarmUpFacts.history_length. lia.
  - rewrite WarmUpFacts.history_nth by lia. f_equal. lia.
Qed.

Lemma delay_buffer_shifts_its_input_witness :
  (1 <= 13)%nat
  /\ ((20 < 13 - 1)%nat ->
      Streams.delay_out 13 (fun k => zq (Z.of_nat k)) 20 = 0)
  /\ ((13 - 1 <= 20)%nat ->
      Streams.delay_out 13 (fun k => zq (Z.of_nat k)) 20
      = zq (Z.of_nat (20 - (13 - 1)))).
Proof.
  assert (H : (1 <= 13)%nat) by lia.
  split; [exact H|].
  exact (@delay_buffer_shifts_its_input 13 (fun k => zq (Z.of_nat k)) 20 H).
Defined.

(** ** The shape of the filter bank *)

Module ShapeFacts.
Import FilterBank.

Lemma upsample_cons2 (a a' : Qc) (t : list Qc) :
  upsample (a :: a' :: t) = a :: 0 :: upsample (a' :: t).
Proof. reflexivity. Qed.

Lemma upsample_length (l : list Qc) :
  length (upsample l) = (2 * length l - 1)%nat.
Proof.
  induction l as [|a l IH]; [reflexivity|].
  destruct l as [|a' t]; [reflexivity|].
  rewrite upsample_cons2. cbn [length]. rewrite IH. cbn [length]. lia.
Qed.

Lemma upsample_even (l : list Qc) (j : nat) :
  nth (2 * j) (upsample l) 0 = nth j l 0.
Proof.
  revert j. induction l as [|a l IH]; intros j.
  - destruct j; reflexivity.
  - destruct j as [|j]; [destruct l; reflexivity|].
    replace (2 * S j)%nat with (S (S (2 * j))) by lia.
    destruct l as [|a' t].
    + cbn [upsample nth]. destruct j; reflexivity.
    + rewrite upsample_cons2. cbn [nth]. apply IH.
Qed.

Lemma upsample_odd (l : list Qc) (j : nat) :
  nth (2 * j + 1) (upsample l) 0 = 0.
Proof.
  revert j. induction l as [|a l IH]; intros j.
  - destruct j; reflexivity.
  - replace (2 * j + 1)%nat with (S (2 * j)) by lia.
    destruct l as [|a' t].
    + cbn [upsample nth]. destruct (2 * j)%nat; reflexivity.
    + rewrite upsample_cons2. destruct j as [|j]; [reflexivity|].
      replace (2 * S j)%nat with (S (S (2 * j))) by lia.
      cbn [nth]. replace (S (2 * j)) with (2 * j + 1)%nat by lia.
      apply IH.
Qed.

Lemma more_levels_length (n : nat) (last : list Qc) :
  length (more_levels n last) = n.
Proof.
  revert last. induction n as [|n IH]; intros last; cbn [more_levels length];
    [reflexivity | rewrite IH; reflexivity].
Qed.

Lemma more_levels_nth (n i : nat) (last : list Qc) :
  (i < n)%nat ->
  nth i (more_levels n last) [] = Nat.iter (S i) upsample last.
Proof.
  revert i last. induction n as [|n IH]; intros i last H; [lia|].
  cbn [more_levels]. destruct i as [|i]; [reflexivity|].
  cbn [nth]. rewrite IH by lia.
  symmetry. apply Nat.iter_succ_r.
Qed.

Lemma all_levels_length (c : list Qc) (n : nat) :
  length (all_levels c n) = Nat.max n 2.
Proof.
  unfold all_levels, get_sampled_coefficients. cbn [length].
  rewrite more_levels_length. lia.
Qed.

Lemma all_levels_nth (c : list Qc) (n i : nat) :
  (2 <= n)%nat -> (i < n)%nat ->
  nth i (all_levels c n) [] = Nat.iter i upsample c.
Proof.
  intros Hn Hi. unfold all_levels, get_sampled_coefficients.
  destruct i as [|[|i]]; [reflexivity | reflexivity |].
  cbn [nth]. rewrite more_levels_nth by lia.
  symmetry. apply Nat.iter_succ_r.
Qed.

Lemma iter_upsample_length (c : list Qc) (i : nat) :
  (1 <= length c)%nat ->
  (1 <= length (Nat.iter i upsample c))%nat
  /\ (Z.of_nat (length (Nat.iter i upsample c)) - 1)%Z
     = ((Z.of_nat (length c) - 1) * 2 ^ Z.of_nat i)%Z.
Proof.
  intros Hc. induction i as [|i [IH1 IH2]].
  - cbn [Nat.iter nat_rect]. split; [exact Hc|]. rewrite Z.pow_0_r. lia.
  - rewrite Nat.iter_succ. rewrite upsample_length. split; [lia|].
    rewrite Nat2Z.inj_succ, Z.pow_succ_r by lia. lia.
Qed.

Lemma buffer_lengths_length (acc : Z) (ds : list Z) :
  length (buffer_lengths acc ds) = length ds.
Proof.
  revert acc. induction ds as [|d ds IH]; intros acc;
    cbn [buffer_lengths length]; [reflexivity | rewrite IH; reflexivity].
Qed.

Lemma nth_map_seq_from {A} (f : nat -> A) (d : A) (s n i : nat) :
  (i < n)%nat -> nth i (map f (seq s n)) d = f (s + i)%nat.
Proof.
  revert s i. induction n as [|n IH]; intros s i H; [lia|].
  cbn [seq map]. destruct i as [|i]; cbn [nth].
  - f_equal. lia.
  - rewrite IH by lia. f_equal. lia.
Qed.

Lemma filter_delays_nth (n i : nat) :
  (i < n)%nat -> nth i (filter_delays n) 0%Z = (3 * 2 ^ Z.of_nat i)%Z.
Proof.
  intros H. unfold filter_delays. rewrite nth_map_seq_from by exact H.
  reflexivity.
Qed.

End ShapeFacts.

(** X5: One pass of [get_sampled_coefficients] on at least one coefficient
    gives [2 * len - 1] values: the coefficients at the even positions and
    0 at the odd ones. *)
Theorem upsample_puts_zeros_in_between (l : list Qc) (j : nat) :
  (1 <= length l)%nat ->
  length (FilterBank.upsample l) = (2 * length l - 1)%nat
  /\ nth (2 * j) (FilterBank.upsample l) 0 = nth j l 0
  /\ nth (2 * j + 1) (FilterBank.upsample l) 0 = 0.
Proof.
  intros _. split; [apply ShapeFacts.upsample_length|].
  split; [apply ShapeFacts.upsample_even | apply ShapeFacts.upsample_odd].
Qed.

Lemma upsample_puts_zeros_in_between_witness :
  (1 <= length Db2.dec_hi)%nat
  /\ length (FilterBank.upsample Db2.dec_hi) = (2 * length Db2.dec_hi - 1)%nat
  /\ nth (2 * 1) (FilterBank.upsample Db2.dec_hi) 0 = nth 1 Db2.dec_hi 0
  /\ nth (2 * 1 + 1) (FilterBank.upsample Db2.dec_hi) 0 = 0.
Proof.
  assert (H : (1 <= length Db2.dec_hi)%nat) by (cbn; lia).
  split; [exact H|].
  exact (@upsample_puts_zeros_in_between Db2.dec_hi 1 H).
Defined.

(** X6: A bank of [n] levels has the delay [3 * (2^n - 1)], [n] delay buffers
    and [n - 1] buffer pointers; each of its four lists of filters holds
    [n] filters, but 2 when [n] is 0 or 1, since
    [get_sampled_coefficients] returns at least one array. *)
Theorem bank_shape (dl dh rl rh : list Qc) (n : nat) :
  FilterBank.get_delay (FilterBank.init dl dh rl rh n)
  = (3 * (2 ^ Z.of_nat n - 1))%Z
  /\ length (FilterBank.buffers (FilterBank.init dl dh rl rh n)) = n
  /\ length (FilterBank.buffer_pointers (FilterBank.init dl dh rl rh n))
     = (n - 1)%nat
  /\ length (FilterBank.decomposition_filter_low
               (FilterBank.init dl dh rl rh n)) = Nat.max n 2
  /\ length (FilterBank.decomposition_filter_high
               (FilterBank.init dl dh rl rh n)) = Nat.max n 2
  /\ length (FilterBank.recomposition_filter_low
               (FilterBank.init dl dh rl rh n)) = Nat.max n 2
  /\ length (FilterBank.recomposition_filter_high
               (FilterBank.init dl dh rl rh n)) = Nat.max n 2.
Proof.
  unfold FilterBank.get_delay, FilterBank.init, FilterBank.make_filters.
  cbn [FilterBank.delay FilterBank.buffers FilterBank.buffer_pointers
       FilterBank.decomposition_filter_low
       FilterBank.decomposition_filter_high
       FilterBank.recomposition_filter_low
       FilterBank.recomposition_filter_high].
  rewrite !length_map, !ShapeFacts.all_levels_length, repeat_length,
    ShapeFacts.buffer_lengths_length, length_rev.
  unfold FilterBank.filter_delays at 2. rewrite length_map, length_seq.
  rewrite DelayFacts.sum_of_delays. repeat split; reflexivity.
Qed.

(** X7: With a wavelet of 4 taps and at least 2 levels the filter of level
    [i] carries the taps upsampled [i] times, and its delay, the number of
    its taps less one, is the documented [3 * 2^i]. *)
Theorem level_filters_have_the_documented_delay (c : list Qc) (n i : nat) :
  length c = 4%nat -> (2 <= n)%nat -> (i < n)%nat ->
  nth i (FilterBank.make_filters c n) FilterBank.dummy
  = OnlineFilter.init 0 (Nat.iter i FilterBank.upsample c) []
  /\ (Z.of_nat (length (Nat.iter i FilterBank.upsample c)) - 1)%Z
     = nth i (FilterBank.filter_delays n) 0%Z.
Proof.
  intros Hc Hn Hi. split.
  - unfold FilterBank.make_filters.
    change FilterBank.dummy with ((fun b => OnlineFilter.init 0 b []) []).
    rewrite map_nth, ShapeFacts.all_levels_nth by assumption. reflexivity.
  - rewrite ShapeFacts.filter_delays_nth by exact Hi.
    destruct (@ShapeFacts.iter_upsample_length c i ltac:(lia)) as [_ E].
    rewrite E, Hc. reflexivity.
Qed.

Lemma level_filters_have_the_documented_delay_witness :
  (length Db2.dec_lo = 4%nat /\ (2 <= 3)%nat /\ (2 < 3)%nat)
  /\ nth 2 (FilterBank.make_filters Db2.dec_lo 3) FilterBank.dummy
     = OnlineFilter.init 0 (Nat.iter 2 FilterBank.upsample Db2.dec_lo) []
  /\ (Z.of_nat (length (Nat.iter 2 FilterBank.upsample Db2.dec_lo)) - 1)%Z
     = nth 2 (FilterBank.filter_delays 3) 0%Z.
Proof.
  assert (H1 : length Db2.dec_lo = 4%nat) by reflexivity.
  assert (H2 : (2 <= 3)%nat) by lia.
  assert (H3 : (2 < 3)%nat) by lia.
  split; [split; [exact H1 | split; [exact H2 | exact H3]]|].
  exact (@level_filters_have_the_documented_delay Db2.dec_lo 3 2 H1 H2 H3).
Defined.

(** ** Streams of zeros *)

Module ZeroStreams.
Import OnlineFilter Streams DirectForm QuietStates QuietFacts.

Lemma fir_state_quiet (b : list Qc) (n : nat) :
  quiet_filter (fir_state b (fun _ => 0) n).
Proof.
  induction n as [|n IH]; cbn [fir_state].
  - apply filter_init_quiet.
  - apply filter_zero. exact IH.
Qed.

Lemma iir_state_quiet (b a : list Qc) (n : nat) :
  quiet_filter (iir_state b a (fun _ => 0) n).
Proof.
  induction n as [|n IH]; cbn [iir_state].
  - apply filter_init_quiet.
  - apply filter_zero. exact IH.
Qed.

End ZeroStreams.

(** X8: A filter of either type that is fed zeros from its construction on
    returns 0 on every call, whatever its coefficients. *)
Theorem filters_answer_zeros_with_zeros (b a : list Qc) (n : nat) :
  (1 <= length b)%nat -> (2 <= length a)%nat -> hd 1 a <> 0 ->
  Streams.fir_out b (fun _ => 0) n = 0
  /\ DirectForm.iir_out b a (fun _ => 0) n = 0.
Proof.
  intros _ _ _. split.
  - apply QuietFacts.filter_zero, ZeroStreams.fir_state_quiet.
  - apply QuietFacts.filter_zero, ZeroStreams.iir_state_quiet.
Qed.

Lemma filters_answer_zeros_with_zeros_witness :
  ((1 <= length PassThrough.b9)%nat /\ (2 <= length PassThrough.a9)%nat
   /\ hd 1 PassThrough.a9 <> 0)
  /\ Streams.fir_out PassThrough.b9 (fun _ => 0) 40 = 0
  /\ DirectForm.iir_out PassThrough.b9 PassThrough.a9 (fun _ => 0) 40 = 0.
Proof.
  assert (H1 : (1 <= length PassThrough.b9)%nat) by (cbn; lia).
  assert (H2 : (2 <= length PassThrough.a9)%nat) by (cbn; lia).
  assert (H3 : hd 1 PassThrough.a9 <> 0).
  { intros E. apply (f_equal this) in E. vm_compute in E. discriminate. }
  split; [split; [exact H1 | split; [exact H2 | exact H3]]|].
  exact (@filters_answer_zeros_with_zeros PassThrough.b9 PassThrough.a9 40
           H1 H2 H3).
Defined.

(** X9: A bank of any number of levels, with any non-empty taps, answers the
    all-zero stream with 0 at every tick of the round trip. *)
Theorem bank_round_trip_of_zeros (dl dh rl rh : list Qc) (levels n : nat) :
  (1 <= length dl)%nat -> (1 <= length dh)%nat ->
  (1 <= length rl)%nat -> (1 <= length rh)%nat ->
  FilterBank.roundtrip_out (FilterBank.init dl dh rl rh levels)
    (fun _ => 0) n = 0.
Proof. intros _ _ _ _. apply QuietBank.roundtrip_out_zero. Qed.

Lemma bank_round_trip_of_zeros_witness :
  ((1 <= length Db2.dec_lo)%nat /\ (1 <= length Db2.dec_hi)%nat
   /\ (1 <= length Db2.rec_lo)%nat /\ (1 <= length Db2.rec_hi)%nat)
  /\ FilterBank.roundtrip_out
       (FilterBank.init Db2.dec_lo Db2.dec_hi Db2.rec_lo Db2.rec_hi 5)
       (fun _ => 0) 100 = 0.
Proof.
  assert (H1 : (1 <= length Db2.dec_lo)%nat) by (cbn; lia).
  assert (H2 : (1 <= length Db2.dec_hi)%nat) by (cbn; lia).
  assert (H3 : (1 <= length Db2.rec_lo)%nat) by (cbn; lia).
  assert (H4 : (1 <= length Db2.rec_hi)%nat) by (cbn; lia).
  split; [split; [exact H1 | split; [exact H2 | split; [exact H3 | exact H4]]]|].
  exact (@bank_round_trip_of_zeros Db2.dec_lo Db2.dec_hi Db2.rec_lo
           Db2.rec_hi 5 100 H1 H2 H3 H4).
Defined.

(** ** The three-layer bank *)

Module ThreeLayerFacts.
Import Streams RoundTripStreams RingFacts FilterBank ThreeLayerFilterBank
  ThreeLayerStreams.

Lemma fir_state_ext (b : list Qc) (u w : nat -> Qc) (n : nat) :
  (forall k, (k < n)%nat -> u k = w k) -> fir_state b u n = fir_state b w n.
Proof.
  induction n as [|n IH]; intros H; [reflexivity|].
  cbn [fir_state]. rewrite IH by (intros k Hk; apply H; lia).
  rewrite (H n) by lia. reflexivity.
Qed.

Lemma fir_out_ext (b : list Qc) (u w : nat -> Qc) (n : nat) :
  (forall k, (k <= n)%nat -> u k = w k) -> fir_out b u n = fir_out b w n.
Proof.
  intros H. unfold fir_out.
  rewrite (@fir_state_ext b u w n) by (intros k Hk; apply H; lia).
  rewrite (H n) by lia. reflexivity.
Qed.

(** The pointer arithmetic of this bank moves its delay buffers as the
    modulo arithmetic of the general bank does. *)
Lemma push_state_delay (len : nat) (v : nat -> Qc) (n : nat) :
  (1 <= len)%nat ->
  push_state len v n = delay_state len v n
  /\ push_out len v n = delay_out len v n.
Proof.
  intros Hlen.
  assert (Hstep : forall m, push_state len v m = delay_state len v m ->
            push_step (push_state len v m) (v m)
            = delay_step (delay_state len v m) (v m)).
  { intros m E. rewrite E.
    pose proof (@delay_state_inv len v Hlen m) as I.
    pose proof (@delay_state_inv len v Hlen (S m)) as I'.
    pose proof (di_pointer I') as P'. pose proof (di_length I') as L'.
    cbn [delay_state] in P', L'. unfold delay_step in P', L'.
    cbn [fst snd] in P', L'.
    unfold push_step, push, delay_step. cbn [fst snd].
    rewrite P'. rewrite L'.
    rewrite (di_pointer I), (di_length I).
    rewrite (@next_pointer m len Hlen).
    unfold pymod. rewrite <- Nat2Z.inj_mod, Nat.Div0.mod_mod.
    reflexivity. }
  assert (Hst : forall m, push_state len v m = delay_state len v m).
  { induction m as [|m IH]; [reflexivity|].
    cbn [push_state delay_state]. rewrite (Hstep m IH). reflexivity. }
  split; [apply Hst|].
  unfold push_out, delay_out. rewrite (Hstep n (Hst n)). reflexivity.
Qed.

Opaque OnlineFilter.filter.

(** One tick of the round trip, with every intermediate result named. *)
Lemma roundtrip_projections (fb : t) (v : Qc) :
  roundtrip fb v
  = let a1 := OnlineFilter.filter (decomposition_filter_low_1 fb) v in
    let a2 := OnlineFilter.filter (decomposition_filter_high_1 fb) v in
    let a3 := OnlineFilter.filter (decomposition_filter_low_2 fb) (snd a1) in
    let a4 := OnlineFilter.filter (decomposition_filter_high_2 fb) (snd a1) in
    let a5 := OnlineFilter.filter (decomposition_filter_low_3 fb) (snd a3) in
    let a6 := OnlineFilter.filter (decomposition_filter_high_3 fb) (snd a3) in
    let b1 := OnlineFilter.filter (recomposition_filter_low_3 fb) (snd a5) in
    let b2 := OnlineFilter.filter (recomposition_filter_high_3 fb) (snd a6) in
    let b3 := OnlineFilter.filter (recomposition_filter_low_2 fb)
                (snd b1 + snd b2) in
    let b4 := OnlineFilter.filter (recomposition_filter_high_2 fb) (snd a4) in
    let p2 := push_step (buffer2 fb, pointer_buffer2 fb) (snd b4) in
    let b5 := OnlineFilter.filter (recomposition_filter_low_1 fb)
                (snd p2 + snd b3 / zq 2) in
    let b6 := OnlineFilter.filter (recomposition_filter_high_1 fb) (snd a2) in
    let p1 := push_step (buffer1 fb, pointer_buffer1 fb) (snd b6) in
    (mk (fst (fst p1)) (fst (fst p2)) (snd (fst p1)) (snd (fst p2))
        (fst a1) (fst a2) (fst a3) (fst a4) (fst a5) (fst a6)
        (fst b5) (fst b6) (fst b3) (fst b4) (fst b1) (fst b2),
     (snd p1 + snd b5 / zq 2) / zq 2).
Proof.
  unfold roundtrip, swt, iswt, push_step.
  cbv zeta.
  repeat match goal with
         | |- context [OnlineFilter.filter ?f ?w] =>
             destruct (OnlineFilter.filter f w);
             cbn [fst snd buffer1 buffer2 pointer_buffer1 pointer_buffer2
                  decomposition_filter_low_1 decomposition_filter_high_1
                  decomposition_filter_low_2 decomposition_filter_high_2
                  decomposition_filter_low_3 decomposition_filter_high_3
                  recomposition_filter_low_1 recomposition_filter_high_1
                  recomposition_filter_low_2 recomposition_filter_high_2
                  recomposition_filter_low_3 recomposition_filter_high_3
                  push]
         end.
  reflexivity.
Qed.

Section RoundTrip.

Variables dl dh rl rh : list Qc.
Variable x : nat -> Qc.

Lemma bank_after_0 : init dl dh rl rh = bank_after dl dh rl rh x 0.
Proof. reflexivity. Qed.

Lemma roundtrip_bank_after (n : nat) :
  roundtrip (bank_after dl dh rl rh x n) (x n)
  = (bank_after dl dh rl rh x (S n), pushed_sum1 dl dh rl rh x n / zq 2).
Proof.
  rewrite roundtrip_projections.
  unfold bank_after, pushed_sum1, pushed_sum2, sum3,
    detail1, detail2, high1, high2, high3, low1, low2, low3, fir_out,
    push_out.
  cbn [buffer1 buffer2 pointer_buffer1 pointer_buffer2
       decomposition_filter_low_1 decomposition_filter_high_1
       decomposition_filter_low_2 decomposition_filter_high_2
       decomposition_filter_low_3 decomposition_filter_high_3
       recomposition_filter_low_1 recomposition_filter_high_1
       recomposition_filter_low_2 recomposition_filter_high_2
       recomposition_filter_low_3 recomposition_filter_high_3
       fir_state push_state].
  rewrite <- !surjective_pairing.
  reflexivity.
Qed.

Lemma roundtrip_state_bank_after (n : nat) :
  roundtrip_state (init dl dh rl rh) x n = bank_after dl dh rl rh x n.
Proof.
  induction n as [|n IH]; cbn [roundtrip_state]; [apply bank_after_0|].
  rewrite IH, roundtrip_bank_after. reflexivity.
Qed.

Lemma pushed_sum2_eq (n : nat) :
  pushed_sum2 dl dh rl rh x n = sum2 dl dh rl rh x n.
Proof.
  unfold pushed_sum2, sum2.
  rewrite (proj2 (@push_state_delay 13 _ n ltac:(lia))). reflexivity.
Qed.

Lemma pushed_sum1_eq (n : nat) :
  pushed_sum1 dl dh rl rh x n = sum1 dl dh rl rh x n.
Proof.
  unfold pushed_sum1, sum1.
  rewrite (proj2 (@push_state_delay 19 _ n ltac:(lia))).
  rewrite (@fir_out_ext rl _ (sum2 dl dh rl rh x) n)
    by (intros k _; apply pushed_sum2_eq).
  reflexivity.
Qed.

End RoundTrip.

End ThreeLayerFacts.

(** X10: The three-layer bank of the single-channel denoiser and the general
    bank with 3 levels return the same value at every tick of the round
    trip, for every input stream and all non-empty taps. *)
Theorem three_layer_bank_agrees_with_the_general_bank
    (dl dh rl rh : list Qc) (x : nat -> Qc) (n : nat) :
  (1 <= length dl)%nat -> (1 <= length dh)%nat ->
  (1 <= length rl)%nat -> (1 <= length rh)%nat ->
  ThreeLayerStreams.roundtrip_out (ThreeLayerFilterBank.init dl dh rl rh) x n
  = FilterBank.roundtrip_out (FilterBank.init dl dh rl rh 3) x n.
Proof.
  intros _ _ _ _.
  rewrite BankFacts.roundtrip_out_streams.
  unfold ThreeLayerStreams.roundtrip_out.
  rewrite ThreeLayerFacts.roundtrip_state_bank_after,
    ThreeLayerFacts.roundtrip_bank_after.
  cbn [snd]. rewrite ThreeLayerFacts.pushed_sum1_eq. reflexivity.
Qed.

Lemma three_layer_bank_agrees_with_the_general_bank_witness :
  ((1 <= length Db2.dec_lo)%nat /\ (1 <= length Db2.dec_hi)%nat
   /\ (1 <= length Db2.rec_lo)%nat /\ (1 <= length Db2.rec_hi)%nat)
  /\ ThreeLayerStreams.roundtrip_out
       (ThreeLayerFilterBank.init Db2.dec_lo Db2.dec_hi Db2.rec_lo Db2.rec_hi)
       (fun k => zq (Z.of_nat k)) 40
     = FilterBank.roundtrip_out
         (FilterBank.init Db2.dec_lo Db2.dec_hi Db2.rec_lo Db2.rec_hi 3)
         (fun k => zq (Z.of_nat k)) 40.
Proof.
  assert (H1 : (1 <= length Db2.dec_lo)%nat) by (cbn; lia).
  assert (H2 : (1 <= length Db2.dec_hi)%nat) by (cbn; lia).
  assert (H3 : (1 <= length Db2.rec_lo)%nat) by (cbn; lia).
  assert (H4 : (1 <= length Db2.rec_hi)%nat) by (cbn; lia).
  split; [split; [exact H1 | split; [exact H2 | split; [exact H3 | exact H4]]]|].
  exact (@three_layer_bank_agrees_with_the_general_bank Db2.dec_lo Db2.dec_hi
           Db2.rec_lo Db2.rec_hi (fun k => zq (Z.of_nat k)) 40 H1 H2 H3 H4).
Defined.

(** ** The history of beats *)

Module BeatFacts.
Import HeartRateCalculator BeatHistory.

Lemma ascending_weaken (lo lo' : Z) (l : list Z) :
  (lo' <= lo)%Z -> ascending lo l -> ascending lo' l.
Proof. destruct l as [|a t]; cbn [ascending]; [tauto | intros ? [? ?]; split; [lia | assumption]]. Qed.

Lemma ascending_firstn (k : nat) (lo : Z) (l : list Z) :
  ascending lo l -> ascending lo (firstn k l).
Proof.
  revert lo l. induction k as [|k IH]; intros lo [|a t] H; cbn [firstn];
    try exact I.
  cbn [ascending] in *. destruct H as [H1 H2]. split; [exact H1|].
  apply IH. exact H2.
Qed.

Lemma ascending_aged (lo : Z) (l : list Z) :
  ascending lo l -> ascending (lo + 1) (map (fun b => (b + 1)%Z) l).
Proof.
  revert lo. induction l as [|a t IH]; intros lo H; cbn [map ascending];
    [exact I|].
  cbn [ascending] in H. destruct H as [H1 H2]. split; [lia|].
  apply IH. exact H2.
Qed.

(** The gaps between ascending ages add up to at least their number. *)
Lemma sum_of_gaps_lower (lo : Z) (a : Z) (l : list Z) :
  ascending lo (a :: l) -> (Z.of_nat (length l) <= sum_of_gaps (a :: l))%Z.
Proof.
  revert lo a. induction l as [|b t IH]; intros lo a H.
  - cbn [sum_of_gaps length]. lia.
  - change (sum_of_gaps (a :: b :: t))
      with ((b - a) + sum_of_gaps (b :: t))%Z.
    cbn [ascending] in H. destruct H as (_ & Hab & Ht).
    pose proof (@IH a b (conj Hab Ht)) as L. cbn [length]. lia.
Qed.

Lemma quot_lower (s k : Z) : (1 <= k)%Z -> (k <= s)%Z -> (1 <= Z.quot s k)%Z.
Proof.
  intros Hk Hs. rewrite Z.quot_div_nonneg by lia.
  apply Z.div_le_lower_bound; lia.
Qed.

(** The last step of the recalculation, on an ordered history. *)
Lemma average_ok (d hr : Z) (l : list Z) (st : bool) :
  ascending (-1) l -> (length l <= 4)%nat -> (1 <= hr)%Z ->
  let h' := if (1 <? length l)%nat
            then mk d l (Z.quot (sum_of_gaps l) (Z.of_nat (length l) - 1)) st
            else mk d l hr st in
  ascending (-1) (last_beats h') /\ (length (last_beats h') <= 4)%nat
  /\ (1 <= heart_rate h')%Z.
Proof.
  intros A L R. cbv zeta.
  destruct (Nat.ltb_spec 1 (length l)) as [H|H]; cbn [last_beats heart_rate].
  - split; [exact A|]. split; [exact L|].
    destruct l as [|a t]; [cbn [length] in H; lia|].
    pose proof (@sum_of_gaps_lower _ _ _ A) as S.
    apply quot_lower; cbn [length] in *; lia.
  - split; [exact A|]. split; [exact L | exact R].
Qed.

(** The recalculation keeps the history in order when it starts from a
    fresh beat in front of an ordered history. *)
Lemma update_history_ok (h : t) :
  history_ok h ->
  let h' := update_heart_rate
              (mk (delay h) (0%Z :: last_beats h) (heart_rate h) (started h)) in
  ascending (-1) (last_beats h') /\ (length (last_beats h') <= 4)%nat
  /\ (1 <= heart_rate h')%Z.
Proof.
  intros [Ha Hl Hr]. cbv zeta. unfold update_heart_rate.
  cbn [last_beats started delay heart_rate].
  change (0 <? length (0%Z :: last_beats h))%nat with true. cbn [andb].
  assert (Hasc : ascending (-1) (0%Z :: last_beats h)).
  { cbn [ascending]. split; [lia | exact Ha]. }
  destruct (started h); cbn [last_beats started delay heart_rate].
  - change (4 <? length (@nil Z))%nat with false.
    cbn [last_beats started delay heart_rate].
    apply average_ok; cbn [ascending length]; [exact I | lia | exact Hr].
  - destruct (Nat.ltb_spec 4 (length (0%Z :: last_beats h))) as [H4|H4];
      cbn [last_beats started delay heart_rate].
    + apply average_ok; [apply ascending_firstn; exact Hasc | | exact Hr].
      rewrite length_firstn. lia.
    + apply average_ok; [exact Hasc | exact H4 | exact Hr].
Qed.

(** One call keeps the history in order and returns a positive rate. *)
Lemma get_heartrate_ok (h : t) (peak : Z) :
  history_ok h ->
  history_ok (fst (get_heartrate h peak))
  /\ (1 <= snd (get_heartrate h peak))%Z.
Proof.
  intros H. unfold get_heartrate. cbn [fst snd].
  destruct (peak =? 1)%Z.
  - destruct (@update_history_ok h H) as (A & L & R).
    split; [|exact R].
    split; cbn [last_beats heart_rate].
    + apply (@ascending_aged (-1)). exact A.
    + rewrite length_map. exact L.
    + exact R.
  - destruct H as [Ha Hl Hr]. split; [|exact Hr].
    split; cbn [last_beats heart_rate].
    + apply (@ascending_weaken (0 + 1) 0); [lia|].
      apply ascending_aged. exact Ha.
    + rewrite length_map. exact Hl.
    + exact Hr.
Qed.

Lemma run_ok (h : t) (flags : list Z) :
  history_ok h ->
  history_ok (fst (run h flags))
  /\ Forall (fun r => (1 <= r)%Z) (snd (run h flags)).
Proof.
  revert h. induction flags as [|p rest IH]; intros h H.
  - cbn [run fst snd]. split; [exact H | constructor].
  - rewrite HeartRateFacts.run_cons. cbn [fst snd].
    destruct (@get_heartrate_ok h p H) as [H1 R].
    destruct (IH _ H1) as [H2 F].
    split; [exact H2 | constructor; assumption].
Qed.

Lemma init_ok (d : Z) (h0 : t) : init d = Ok h0 -> history_ok h0.
Proof.
  unfold init. destruct ((0 <=? d)%Z && (d <=? 500)%Z); [|discriminate].
  intros E. injection E as <-.
  split; cbn [last_beats heart_rate ascending length]; [exact I | lia | lia].
Qed.

(** The gaps of a history add up to the span between its ends. *)
Lemma sum_of_gaps_span (a : Z) (l : list Z) :
  sum_of_gaps (a :: l) = (last (a :: l) 0 - a)%Z.
Proof.
  revert a. induction l as [|b t IH]; intros a.
  - cbn [sum_of_gaps last]. lia.
  - change (sum_of_gaps (a :: b :: t))
      with ((b - a) + sum_of_gaps (b :: t))%Z.
    rewrite IH. change (last (a :: b :: t) 0%Z) with (last (b :: t) 0%Z).
    lia.
Qed.

End BeatFacts.

(** X11: Whatever flags a calculator receives after its construction, every
    heart rate it returns is at least 1, and it retains at most four
    beats, each at least one tick old, the newest first. *)
Theorem heart_rate_stays_positive (d : Z) (h0 : HeartRateCalculator.t)
    (flags : list Z) :
  HeartRateCalculator.init d = Ok h0 ->
  Forall (fun r => (1 <= r)%Z) (snd (HeartRateCalculator.run h0 flags))
  /\ (length (HeartRateCalculator.last_beats
                (fst (HeartRateCalculator.run h0 flags))) <= 4)%nat
  /\ BeatHistory.ascending 0
       (HeartRateCalculator.last_beats
          (fst (HeartRateCalculator.run h0 flags))).
Proof.
  intros Hinit.
  destruct (@BeatFacts.run_ok h0 flags (@BeatFacts.init_ok d h0 Hinit)) as [H F].
  split; [exact F|]. split; [apply H | apply H].
Qed.

Lemma heart_rate_stays_positive_witness :
  HeartRateCalculator.init 300
  = Ok (HeartRateCalculator.mk 300 [] 768 true)
  /\ Forall (fun r => (1 <= r)%Z)
       (snd (HeartRateCalculator.run (HeartRateCalculator.mk 300 [] 768 true)
               [1; 0; 1; 1; 0; 0; 1; 1; 1]%Z))
  /\ (length (HeartRateCalculator.last_beats
                (fst (HeartRateCalculator.run
                        (HeartRateCalculator.mk 300 [] 768 true)
                        [1; 0; 1; 1; 0; 0; 1; 1; 1]%Z))) <= 4)%nat
  /\ BeatHistory.ascending 0
       (HeartRateCalculator.last_beats
          (fst (HeartRateCalculator.run
                  (HeartRateCalculator.mk 300 [] 768 true)
                  [1; 0; 1; 1; 0; 0; 1; 1; 1]%Z))).
Proof.
  assert (H : HeartRateCalculator.init 300
              = Ok (HeartRateCalculator.mk 300 [] 768 true)) by reflexivity.
  split; [exact H|].
  exact (@heart_rate_stays_positive 300 _ [1; 0; 1; 1; 0; 0; 1; 1; 1]%Z H).
Defined.

(** X12: [get_next_beat] on a calculator that has not yet seen a beat: a call
    without a beat returns [False] and changes nothing, and the first
    beat raises [IndexError], because [update_heart_rate] has just emptied
    the history that is then read at index 0. *)
Theorem first_beat_of_get_next_beat_raises (h : HeartRateCalculator.t)
    (value : Z) :
  HeartRateCalculator.started h = true ->
  HeartRateCalculator.last_beats h = [] ->
  (value <> 1%Z ->
   HeartRateCalculator.get_next_beat h value = Ok (h, None))
  /\ HeartRateCalculator.get_next_beat h 1 = Raise IndexError.
Proof.
  intros Hs Hl. unfold HeartRateCalculator.get_next_beat.
  rewrite Hl. split.
  - intros Hv. destruct (Z.eqb_spec value 1) as [E|_]; [contradiction|].
    reflexivity.
  - cbn [Z.eqb Pos.eqb negb andb].
    unfold HeartRateCalculator.update_heart_rate.
    cbn [HeartRateCalculator.last_beats HeartRateCalculator.started length
         Nat.ltb Nat.leb andb].
    rewrite Hs. reflexivity.
Qed.

Lemma first_beat_of_get_next_beat_raises_witness :
  (HeartRateCalculator.started (HeartRateCalculator.mk 300 [] 768 true) = true
   /\ HeartRateCalculator.last_beats (HeartRateCalculator.mk 300 [] 768 true)
      = [])
  /\ (0%Z <> 1%Z ->
      HeartRateCalculator.get_next_beat
        (HeartRateCalculator.mk 300 [] 768 true) 0
      = Ok (HeartRateCalculator.mk 300 [] 768 true, None))
  /\ HeartRateCalculator.get_next_beat
       (HeartRateCalculator.mk 300 [] 768 true) 1 = Raise IndexError.
Proof.
  assert (H1 : HeartRateCalculator.started
                 (HeartRateCalculator.mk 300 [] 768 true) = true)
    by reflexivity.
  assert (H2 : HeartRateCalculator.last_beats
                 (HeartRateCalculator.mk 300 [] 768 true) = [])
    by reflexivity.
  split; [split; assumption|].
  exact (@first_beat_of_get_next_beat_raises
           (HeartRateCalculator.mk 300 [] 768 true) 0 H1 H2).
Defined.

(** X13: Whenever [get_next_beat] returns, it leaves the calculator in the
    state [get_heartrate] would have left it in; and when it returns for
    a beat, the returned index is the delay less the heart rate that
    [get_heartrate] returns. *)
Theorem get_next_beat_moves_as_get_heartrate (h s : HeartRateCalculator.t)
    (value : Z) (r : option Z) :
  HeartRateCalculator.get_next_beat h value = Ok (s, r) ->
  s = fst (HeartRateCalculator.get_heartrate h value)
  /\ (value = 1%Z ->
      r = Some (HeartRateCalculator.delay h
                - snd (HeartRateCalculator.get_heartrate h value))%Z).
Proof.
  unfold HeartRateCalculator.get_next_beat, HeartRateCalculator.get_heartrate.
  destruct (Z.eqb_spec value 1) as [->|Hv]; cbn [negb andb fst snd].
  - set (h1 := HeartRateCalculator.update_heart_rate _).
    assert (D : HeartRateCalculator.delay h1 = HeartRateCalculator.delay h).
    { unfold h1, HeartRateCalculator.update_heart_rate.
      repeat match goal with
             | |- context [if ?c then _ else _] => destruct c
             end; reflexivity. }
    assert (Hd : forall a l, HeartRateCalculator.last_beats h1 = a :: l ->
                             a = 0%Z).
    { unfold h1, HeartRateCalculator.update_heart_rate.
      cbn [HeartRateCalculator.last_beats HeartRateCalculator.started
           HeartRateCalculator.delay HeartRateCalculator.heart_rate length].
      intros a l.
      repeat match goal with
             | |- context [if ?c then _ else _] => destruct c
             end;
        cbn [HeartRateCalculator.last_beats firstn]; intros E;
        try discriminate; injection E; intros; subst; reflexivity. }
    destruct (HeartRateCalculator.last_beats h1) as [|a l] eqn:E;
      [discriminate|].
    intros R. injection R as <- <-. split; [reflexivity|].
    intros _. rewrite (Hd a l eq_refl), D. f_equal.
  - destruct (HeartRateCalculator.last_beats h) as [|a l] eqn:E.
    + cbn [length Nat.eqb]. intros R. injection R as <- <-.
      split; [|intros C; contradiction].
      destruct h. cbn in E. subst. reflexivity.
    + cbn [length Nat.eqb]. intros R. injection R as <- <-.
      split; [reflexivity | intros C; contradiction].
Qed.

Lemma get_next_beat_moves_as_get_heartrate_witness :
  HeartRateCalculator.get_next_beat
    (HeartRateCalculator.mk 300 (700%Z :: nil) 768 false) 1
  = Ok (HeartRateCalculator.mk 300 [1; 701]%Z 700 false, Some (-400)%Z)
  /\ HeartRateCalculator.mk 300 [1; 701]%Z 700 false
     = fst (HeartRateCalculator.get_heartrate
              (HeartRateCalculator.mk 300 (700%Z :: nil) 768 false) 1)
  /\ (1%Z = 1%Z ->
      Some (-400)%Z
      = Some (HeartRateCalculator.delay
                (HeartRateCalculator.mk 300 (700%Z :: nil) 768 false)
              - snd (HeartRateCalculator.get_heartrate
                       (HeartRateCalculator.mk 300 (700%Z :: nil) 768 false) 1))%Z).
Proof.
  assert (H : HeartRateCalculator.get_next_beat
                (HeartRateCalculator.mk 300 (700%Z :: nil) 768 false) 1
              = Ok (HeartRateCalculator.mk 300 [1; 701]%Z 700 false,
                    Some (-400)%Z)) by reflexivity.
  split; [exact H|].
  exact (@get_next_beat_moves_as_get_heartrate _ _ _ _ H).
Defined.

(** X29: Once the first beat has been discarded, a beat on a calculator that
    retains at least one earlier beat sets the heart rate to the age of
    the oldest of the four newest beats (the new one included), divided
    by the number of intervals between them and truncated: the beats in
    between do not matter. *)
Theorem heart_rate_is_span_over_intervals (h : HeartRateCalculator.t)
    (a : Z) (l : list Z) :
  HeartRateCalculator.started h = false ->
  HeartRateCalculator.last_beats h = a :: l ->
  snd (HeartRateCalculator.get_heartrate h 1)
  = Z.quot (last (firstn 4 (0 :: a :: l)) 0)%Z
           (Z.of_nat (length (firstn 4 (0 :: a :: l))) - 1)%Z.
Proof.
  intros Hs Hl. unfold HeartRateCalculator.get_heartrate.
  cbn [Z.eqb Pos.eqb snd].
  unfold HeartRateCalculator.update_heart_rate.
  cbn [HeartRateCalculator.last_beats HeartRateCalculator.started
       HeartRateCalculator.delay HeartRateCalculator.heart_rate].
  rewrite Hs, Hl, andb_false_r.
  cbn [HeartRateCalculator.last_beats HeartRateCalculator.started
       HeartRateCalculator.delay HeartRateCalculator.heart_rate].
  assert (E : HeartRateCalculator.last_beats
                (if (4 <? length (0 :: a :: l)%Z)%nat
                 then HeartRateCalculator.mk (HeartRateCalculator.delay h)
                        (firstn 4 (0 :: a :: l)%Z)
                        (HeartRateCalculator.heart_rate h) false
                 else HeartRateCalculator.mk (HeartRateCalculator.delay h)
                        (0 :: a :: l)%Z
                        (HeartRateCalculator.heart_rate h) false)
              = firstn 4 (0 :: a :: l)%Z).
  { destruct (Nat.ltb_spec 4 (length (0 :: a :: l)%Z)) as [C|C];
      cbn [HeartRateCalculator.last_beats]; [reflexivity|].
    symmetry. apply firstn_all2. exact C. }
  match goal with
  | |- context [if (1 <? length (HeartRateCalculator.last_beats ?X))%nat
                then _ else _] => set (h2 := X) in *
  end.
  rewrite E.
  replace (1 <? length (firstn 4 (0 :: a :: l)%Z))%nat with true
    by (symmetry; apply Nat.ltb_lt; rewrite length_firstn;
        cbn [length]; lia).
  cbn [HeartRateCalculator.heart_rate].
  change (firstn 4 (0 :: a :: l)%Z) with (0%Z :: firstn 3 (a :: l)).
  rewrite BeatFacts.sum_of_gaps_span. f_equal. lia.
Qed.

Lemma heart_rate_is_span_over_intervals_witness :
  (HeartRateCalculator.started
     (HeartRateCalculator.mk 300 [690; 1400; 2100; 2800]%Z 768 false) = false
   /\ HeartRateCalculator.last_beats
        (HeartRateCalculator.mk 300 [690; 1400; 2100; 2800]%Z 768 false)
      = (690 :: [1400; 2100; 2800])%Z)
  /\ snd (HeartRateCalculator.get_heartrate
            (HeartRateCalculator.mk 300 [690; 1400; 2100; 2800]%Z 768 false)
            1)
     = Z.quot (last (firstn 4 (0 :: 690 :: [1400; 2100; 2800])) 0)%Z
              (Z.of_nat (length (firstn 4 (0 :: 690 :: [1400; 2100; 2800])%Z))
               - 1)%Z.
Proof.
  assert (H1 : HeartRateCalculator.started
                 (HeartRateCalculator.mk 300 [690; 1400; 2100; 2800]%Z 768
                    false) = false) by reflexivity.
  assert (H2 : HeartRateCalculator.last_beats
                 (HeartRateCalculator.mk 300 [690; 1400; 2100; 2800]%Z 768
                    false) = (690 :: [1400; 2100; 2800])%Z) by reflexivity.
  split; [split; assumption|].
  exact (@heart_rate_is_span_over_intervals _ _ _ H1 H2).
Defined.

(** ** The window of the envelope *)

Module EnvelopeBounds.
Import EnvelopeCalculator EnvelopeWindow EnvelopeFacts.


Lemma list_sum_scaled (c : Qc) (l : list Qc) :
  list_sum (map (fun v => c * v) l) = c * list_sum l.
Proof.
  induction l as [|a l IH]; cbn [map].
  - unfold list_sum. cbn [fold_left]. ring.
  - rewrite !list_sum_cons, IH. ring.
Qed.


Lemma window_scaled (c : Qc) (x : nat -> Qc) (t m : nat) :
  window (fun i => c * x i) t m = map (fun v => Qcabs c * v) (window x t m).
Proof.
  unfold window. rewrite map_map. apply map_ext. intros i.
  apply Qcabs_Qcmult.
Qed.



(** With a window of no samples the first call already pops from the
    empty deque. *)
Lemma state_at_empty_window (dl : bool) (w : Z) (x : nat -> Qc) (k : nat) :
  (w <= 0)%Z -> state_at (init dl w) x (S k) = Raise IndexError.
Proof.
  intros Hw. induction k as [|k IH].
  - cbn [state_at bind]. unfold calculate_envelope, advance, init.
    cbn [delayed n window_len buffer].
    replace (0 <? w)%Z with false by (symmetry; apply Z.ltb_ge; lia).
    replace (2 * 0 <? w)%Z with false by (symmetry; apply Z.ltb_ge; lia).
    destruct dl; reflexivity.
  - change (state_at (init dl w) x (S (S k)))
      with (e' <- state_at (init dl w) x (S k) ;;
            r <- calculate_envelope e' (x (S k)) ;; Ok (fst r)).
    rewrite IH. reflexivity.
Qed.

End EnvelopeBounds.

(** X14: With a window of at least one sample the envelope at tick [k] is the
    mean of the magnitudes of the newest [min (k + 1) c] samples, where
    the capacity [c] is [window_len] in the delayed mode and half of it,
    rounded up, in the causal mode. *)
Theorem envelope_is_mean_of_newest_magnitudes (dl : bool) (w : Z)
    (x : nat -> Qc) (k : nat) :
  (1 <= w)%Z ->
  let m := Nat.min (S k)
             (if dl then Z.to_nat w else Z.to_nat ((w + 1) / 2)) in
  EnvelopeCalculator.out_at (EnvelopeCalculator.init dl w) x k
  = Ok (list_sum (map (fun i => Qcabs (x (k - i)%nat)) (seq 0 m))
        / zq (Z.of_nat m)).
Proof. intros Hw. apply (@EnvelopeFacts.out_at_mean dl w x k Hw). Qed.

Lemma envelope_is_mean_of_newest_magnitudes_witness :
  (1 <= 5)%Z
  /\ EnvelopeCalculator.out_at (EnvelopeCalculator.init false 5)
       (fun k => zq (Z.of_nat k)) 7
     = Ok (list_sum (map (fun i => Qcabs (zq (Z.of_nat (7 - i))))
                         (seq 0 (Nat.min 8 (Z.to_nat ((5 + 1) / 2)))))
           / zq (Z.of_nat (Nat.min 8 (Z.to_nat ((5 + 1) / 2))))).
Proof.
  assert (H : (1 <= 5)%Z) by lia.
  split; [exact H|].
  exact (@envelope_is_mean_of_newest_magnitudes false 5
           (fun k => zq (Z.of_nat k)) 7 H).
Defined.



(** X16: Scaling the input by [c] scales the envelope by the magnitude of
    [c]. *)
Theorem envelope_scales_with_the_input (dl : bool) (w : Z) (x : nat -> Qc)
    (k : nat) (c : Qc) :
  (1 <= w)%Z ->
  exists v, EnvelopeCalculator.out_at (EnvelopeCalculator.init dl w) x k
            = Ok v
         /\ EnvelopeCalculator.out_at (EnvelopeCalculator.init dl w)
              (fun i => c * x i) k = Ok (Qcabs c * v).
Proof.
  intros Hw. rewrite !(@EnvelopeFacts.out_at_mean dl w _ k Hw).
  eexists. split; [reflexivity|]. f_equal.
  rewrite EnvelopeBounds.window_scaled, EnvelopeBounds.list_sum_scaled.
  unfold Qcdiv. ring.
Qed.

Lemma envelope_scales_with_the_input_witness :
  (1 <= 3)%Z
  /\ exists v, EnvelopeCalculator.out_at (EnvelopeCalculator.init true 3)
                 (fun k => zq (Z.of_nat k)) 6 = Ok v
            /\ EnvelopeCalculator.out_at (EnvelopeCalculator.init true 3)
                 (fun i => - zq 2 * zq (Z.of_nat i)) 6
               = Ok (Qcabs (- zq 2) * v).
Proof.
  assert (H : (1 <= 3)%Z) by lia.
  split; [exact H|].
  exact (@envelope_scales_with_the_input true 3 (fun k => zq (Z.of_nat k)) 6
           (- zq 2) H).
Defined.

(** X17: With a window length of 0 or less every call raises [IndexError]:
    the first call pops from the empty deque. *)
Theorem envelope_raises_without_a_window (dl : bool) (w : Z) (x : nat -> Qc)
    (k : nat) :
  (w <= 0)%Z ->
  EnvelopeCalculator.out_at (EnvelopeCalculator.init dl w) x k
  = Raise IndexError.
Proof.
  intros Hw. unfold EnvelopeCalculator.out_at. destruct k as [|k].
  - cbn [EnvelopeCalculator.state_at bind].
    unfold EnvelopeCalculator.calculate_envelope, EnvelopeCalculator.advance,
      EnvelopeCalculator.init.
    cbn [EnvelopeCalculator.delayed EnvelopeCalculator.n
         EnvelopeCalculator.window_len EnvelopeCalculator.buffer].
    replace (0 <? w)%Z with false by (symmetry; apply Z.ltb_ge; lia).
    replace (2 * 0 <? w)%Z with false by (symmetry; apply Z.ltb_ge; lia).
    destruct dl; reflexivity.
  - rewrite EnvelopeBounds.state_at_empty_window by exact Hw. reflexivity.
Qed.

Lemma envelope_raises_without_a_window_witness :
  (0 <= 0)%Z
  /\ EnvelopeCalculator.out_at (EnvelopeCalculator.init false 0)
       (fun _ => 1) 3 = Raise IndexError.
Proof.
  assert (H : (0 <= 0)%Z) by lia.
  split; [exact H|].
  exact (@envelope_raises_without_a_window false 0 (fun _ => 1) 3 H).
Defined.

(** ** The buffers and the flags of the detector *)

Module QrsBufferFacts.
Import QrsDetector QrsPending QrsBuffers QrsFacts QuietStates.

Lemma drop_last_length {A} (l : list A) :
  length (drop_last l) = (length l - 1)%nat.
Proof. unfold drop_last. rewrite length_firstn. lia. Qed.

Lemma slice_length {A} (a b : nat) (l : list A) :
  length (slice a b l) = (Nat.min b (length l) - a)%nat.
Proof. unfold slice. rewrite length_skipn, length_firstn. reflexivity. Qed.

Lemma smooth_buffers (d : t) (x : Qc) :
  buffers_bounded d -> buffers_bounded (smooth d x).
Proof.
  intros [H0 H1 H2 H3 H4]. unfold smooth.
  destruct (OnlineFilter.filter (baseline_filter d) x) as [bf x1].
  destruct (OnlineFilter.filter (bandpass d) _) as [bp y].
  split; cbn [signal_length buffered_signal filtered_signal squared_signal
              mean_signal].
  - exact H0.
  - cbn [length]. rewrite drop_last_length. lia.
  - destruct (Nat.ltb_spec 2 (length (y :: filtered_signal d))) as [C|C].
    + rewrite drop_last_length. cbn [length] in *. lia.
    + exact C.
  - match goal with
    | |- context [if ?c then _ else _] => destruct c
    end; [|exact H3].
    right. cbn [length]. rewrite slice_length. unfold win_len in *. lia.
  - match goal with
    | |- context [if ?c then ?a else ?b] =>
        destruct c eqn:C; [rewrite drop_last_length | ]
    end.
    + rewrite length_app, repeat_length, length_skipn. unfold half_win. lia.
    + apply Z.ltb_ge in C. lia.
Qed.

Lemma threshold_buffers (d : t) :
  signal_length (fst (threshold d)) = signal_length d
  /\ buffered_signal (fst (threshold d)) = buffered_signal d
  /\ filtered_signal (fst (threshold d)) = filtered_signal d
  /\ squared_signal (fst (threshold d)) = squared_signal d
  /\ mean_signal (fst (threshold d)) = mean_signal d.
Proof.
  unfold threshold, shift_maxima. break_ifs;
    cbn [fst set_maxima signal_length buffered_signal filtered_signal
         squared_signal mean_signal
         last_max pre_last_max pre_pre_last_max pre_pre_pre_last_max max_cnt];
    break_ifs;
    cbn [fst set_maxima signal_length buffered_signal filtered_signal
         squared_signal mean_signal];
    repeat split.
Qed.

Lemma box_buffers (d : t) (v : Qc) :
  signal_length (box d v) = signal_length d
  /\ buffered_signal (box d v) = buffered_signal d
  /\ filtered_signal (box d v) = filtered_signal d
  /\ squared_signal (box d v) = squared_signal d
  /\ mean_signal (box d v) = mean_signal d.
Proof.
  unfold box. break_ifs;
    cbn [set_boxes signal_length buffered_signal filtered_signal
         squared_signal mean_signal];
    repeat split.
Qed.

Lemma accept_buffers (d : t) :
  signal_length (fst (accept d)) = signal_length d
  /\ buffered_signal (fst (accept d)) = buffered_signal d
  /\ filtered_signal (fst (accept d)) = filtered_signal d
  /\ squared_signal (fst (accept d)) = squared_signal d
  /\ mean_signal (fst (accept d)) = mean_signal d.
Proof.
  unfold accept. break_ifs;
    cbn [fst set_boxes signal_length buffered_signal filtered_signal
         squared_signal mean_signal];
    repeat split.
Qed.

Lemma report_buffers (d : t) :
  signal_length (fst (report d)) = signal_length d
  /\ buffered_signal (fst (report d)) = buffered_signal d
  /\ filtered_signal (fst (report d)) = filtered_signal d
  /\ squared_signal (fst (report d)) = squared_signal d
  /\ mean_signal (fst (report d)) = mean_signal d.
Proof.
  unfold report. break_ifs;
    cbn [fst set_boxes signal_length buffered_signal filtered_signal
         squared_signal mean_signal];
    repeat split.
Qed.

Lemma report_flag (d : t) : snd (report d) = 0%Z \/ snd (report d) = 1%Z.
Proof. unfold report. break_ifs; cbn [snd]; auto. Qed.

Lemma buffers_bounded_eq (d d' : t) :
  signal_length d' = signal_length d ->
  buffered_signal d' = buffered_signal d ->
  filtered_signal d' = filtered_signal d ->
  squared_signal d' = squared_signal d ->
  mean_signal d' = mean_signal d ->
  buffers_bounded d -> buffers_bounded d'.
Proof.
  intros E0 E1 E2 E3 E4 [H0 H1 H2 H3 H4].
  split; rewrite ?E0, ?E1, ?E2, ?E3, ?E4; assumption.
Qed.

Lemma qrs_detection_buffers (d : t) (x : Qc) :
  buffers_bounded d -> buffers_bounded (fst (qrs_detection d x)).
Proof.
  intros H. rewrite qrs_detection_eq. unfold before_accept.
  pose proof (@smooth_buffers d x H) as H1.
  destruct (threshold_buffers (smooth d x)) as (A0 & A1 & A2 & A3 & A4).
  pose proof (@buffers_bounded_eq _ _ A0 A1 A2 A3 A4 H1) as H2.
  destruct (box_buffers (fst (threshold (smooth d x)))
              (snd (threshold (smooth d x)))) as (B0 & B1 & B2 & B3 & B4).
  pose proof (@buffers_bounded_eq _ _ B0 B1 B2 B3 B4 H2) as H3.
  destruct (accept_buffers
              (box (fst (threshold (smooth d x)))
                   (snd (threshold (smooth d x)))))
    as (C0 & C1 & C2 & C3 & C4).
  pose proof (@buffers_bounded_eq _ _ C0 C1 C2 C3 C4 H3) as H4.
  destruct (report_buffers
              (fst (accept (box (fst (threshold (smooth d x)))
                                (snd (threshold (smooth d x)))))))
    as (D0 & D1 & D2 & D3 & D4).
  exact (@buffers_bounded_eq _ _ D0 D1 D2 D3 D4 H4).
Qed.

Section Butterworth.

Variables b_baseline a_baseline b_band a_band : list Qc.

Lemma init_buffers (D : Z) (d0 : t) :
  init b_baseline a_baseline b_band a_band D = Ok d0 ->
  buffers_bounded d0 /\ signal_length d0 = D.
Proof.
  unfold init.
  destruct ((280 <=? D)%Z && (D <=? 400)%Z) eqn:E; [|discriminate].
  apply andb_prop in E. destruct E as [E1 E2].
  apply Z.leb_le in E1. intros R. injection R as <-.
  split; [|reflexivity].
  split; cbn [signal_length buffered_signal filtered_signal squared_signal
              mean_signal length].
  - exact E1.
  - apply repeat_length.
  - lia.
  - left. apply repeat_length.
  - lia.
Qed.

End Butterworth.

Lemma state_buffers (d0 : t) (x : nat -> Qc) (n : nat) :
  buffers_bounded d0 ->
  buffers_bounded (state_at d0 x n)
  /\ signal_length (state_at d0 x n) = signal_length d0.
Proof.
  intros H. induction n as [|n [IH1 IH2]]; [split; [exact H | reflexivity]|].
  cbn [state_at]. split; [apply qrs_detection_buffers; exact IH1|].
  rewrite <- IH2. rewrite qrs_detection_eq. unfold before_accept.
  rewrite (proj1 (report_buffers _)), (proj1 (accept_buffers _)),
    (proj1 (box_buffers _ _)), (proj1 (threshold_buffers _)).
  apply smooth_found_peaks.
Qed.

Lemma state_quiet (d0 : t) (n : nat) :
  quiet_detector d0 -> quiet_detector (state_at d0 (fun _ => 0) n).
Proof.
  intros H. induction n as [|n IH]; [exact H|].
  cbn [state_at]. apply QuietDetector.qrs_detection_quiet. exact IH.
Qed.

End QrsBufferFacts.

(** X18: A detector that is fed zeros from its construction on never returns
    1 and never records a peak, whatever the coefficients of its two
    filters. *)
Theorem zero_signal_is_never_flagged
    (b_baseline a_baseline b_band a_band : list Qc) (D : Z)
    (d0 : QrsDetector.t) (n : nat) :
  QrsDetector.init b_baseline a_baseline b_band a_band D = Ok d0 ->
  QrsDetector.out_at d0 (fun _ => 0) n = 0%Z
  /\ QrsDetector.accepted_at d0 (fun _ => 0) n = None.
Proof.
  intros Hinit.
  pose proof (@QrsBufferFacts.state_quiet d0 n
                (@QuietDetector.detector_init_quiet _ _ _ _ _ _ Hinit)) as Q.
  destruct (@QuietDetector.qrs_detection_quiet _ Q) as (E1 & E2 & _).
  split; [exact E1 | exact E2].
Qed.

Lemma zero_signal_is_never_flagged_witness :
  QrsDetector.init PassThrough.b3 PassThrough.a3 PassThrough.b9
    PassThrough.a9 300 = Ok Examples.det0
  /\ QrsDetector.out_at Examples.det0 (fun _ => 0) 1000 = 0%Z
  /\ QrsDetector.accepted_at Examples.det0 (fun _ => 0) 1000 = None.
Proof.
  assert (H : QrsDetector.init PassThrough.b3 PassThrough.a3 PassThrough.b9
                PassThrough.a9 300 = Ok Examples.det0) by reflexivity.
  split; [exact H|].
  exact (@zero_signal_is_never_flagged _ _ _ _ 300 Examples.det0 1000 H).
Defined.

(** X19: Between two calls at most one recorded peak waits to be flagged, and
    its index is below [look_at_value], the delay less one; every call
    returns 0 or 1. *)
Theorem at_most_one_peak_is_pending
    (b_baseline a_baseline b_band a_band : list Qc) (D : Z)
    (d0 : QrsDetector.t) (x : nat -> Qc) (n : nat) :
  QrsDetector.init b_baseline a_baseline b_band a_band D = Ok d0 ->
  (length (QrsDetector.found_peaks (QrsDetector.state_at d0 x n)) <= 1)%nat
  /\ (forall a, In a (QrsDetector.found_peaks (QrsDetector.state_at d0 x n))
                -> (a < D - 1)%Z)
  /\ (QrsDetector.out_at d0 x n = 0%Z \/ QrsDetector.out_at d0 x n = 1%Z).
Proof.
  intros Hinit.
  destruct (@QrsFacts.init_pending_ok _ _ _ _ _ _ Hinit) as (P0 & L0 & _).
  pose proof (@QrsFacts.state_pending_ok d0 x n P0) as P.
  pose proof (@QrsFacts.state_look d0 x n P0) as L.
  split; [|split].
  - destruct (QrsPending.one_pending P) as [E|(a & E & _)]; rewrite E;
      cbn [length]; lia.
  - intros a Ha.
    destruct (QrsPending.one_pending P) as [E|(a' & E & Hlt)];
      rewrite E in Ha; cbn [In] in Ha; [contradiction|].
    destruct Ha as [<-|[]]. lia.
  - unfold QrsDetector.out_at. rewrite QrsFacts.qrs_detection_eq.
    apply QrsBufferFacts.report_flag.
Qed.

Lemma at_most_one_peak_is_pending_witness :
  QrsDetector.init PassThrough.b3 PassThrough.a3 PassThrough.b9
    PassThrough.a9 300 = Ok Examples.det0
  /\ (length (QrsDetector.found_peaks
                (QrsDetector.state_at Examples.det0
                   (fun k => zq (Z.of_nat k)) 5)) <= 1)%nat
  /\ (forall a, In a (QrsDetector.found_peaks
                        (QrsDetector.state_at Examples.det0
                           (fun k => zq (Z.of_nat k)) 5))
                -> (a < 300 - 1)%Z)
  /\ (QrsDetector.out_at Examples.det0 (fun k => zq (Z.of_nat k)) 5 = 0%Z
      \/ QrsDetector.out_at Examples.det0 (fun k => zq (Z.of_nat k)) 5 = 1%Z).
Proof.
  assert (H : QrsDetector.init PassThrough.b3 PassThrough.a3 PassThrough.b9
                PassThrough.a9 300 = Ok Examples.det0) by reflexivity.
  split; [exact H|].
  exact (@at_most_one_peak_is_pending _ _ _ _ 300 Examples.det0
           (fun k => zq (Z.of_nat k)) 5 H).
Defined.

(** X20: The buffers of a detector never grow: after any number of calls the
    buffered signal holds exactly [delay] samples, the filtered signal at
    most 2, the squared signal [delay] or, once it has been rewritten,
    [win_len] = 153, and the smoothed signal at most [delay]. *)
Theorem detector_buffers_stay_bounded
    (b_baseline a_baseline b_band a_band : list Qc) (D : Z)
    (d0 : QrsDetector.t) (x : nat -> Qc) (n : nat) :
  QrsDetector.init b_baseline a_baseline b_band a_band D = Ok d0 ->
  length (QrsDetector.buffered_signal (QrsDetector.state_at d0 x n))
  = Z.to_nat D
  /\ (length (QrsDetector.filtered_signal (QrsDetector.state_at d0 x n))
      <= 2)%nat
  /\ (length (QrsDetector.squared_signal (QrsDetector.state_at d0 x n))
      = Z.to_nat D
      \/ length (QrsDetector.squared_signal (QrsDetector.state_at d0 x n))
         = 153%nat)
  /\ (length (QrsDetector.mean_signal (QrsDetector.state_at d0 x n))
      <= Z.to_nat D)%nat.
Proof.
  intros Hinit.
  destruct (@QrsBufferFacts.init_buffers _ _ _ _ _ _ Hinit) as [B0 S0].
  destruct (@QrsBufferFacts.state_buffers d0 x n B0) as [B S].
  rewrite S0 in S. destruct B as [H0 H1 H2 H3 H4]. rewrite S in *.
  repeat split; assumption.
Qed.

Lemma detector_buffers_stay_bounded_witness :
  QrsDetector.init PassThrough.b3 PassThrough.a3 PassThrough.b9
    PassThrough.a9 300 = Ok Examples.det0
  /\ length (QrsDetector.buffered_signal
               (QrsDetector.state_at Examples.det0
                  (fun k => zq (Z.of_nat k)) 4)) = Z.to_nat 300
  /\ (length (QrsDetector.filtered_signal
                (QrsDetector.state_at Examples.det0
                   (fun k => zq (Z.of_nat k)) 4)) <= 2)%nat
  /\ (length (QrsDetector.squared_signal
                (QrsDetector.state_at Examples.det0
                   (fun k => zq (Z.of_nat k)) 4)) = Z.to_nat 300
      \/ length (QrsDetector.squared_signal
                   (QrsDetector.state_at Examples.det0
                      (fun k => zq (Z.of_nat k)) 4)) = 153%nat)
  /\ (length (QrsDetector.mean_signal
                (QrsDetector.state_at Examples.det0
                   (fun k => zq (Z.of_nat k)) 4)) <= Z.to_nat 300)%nat.
Proof.
  assert (H : QrsDetector.init PassThrough.b3 PassThrough.a3 PassThrough.b9
                PassThrough.a9 300 = Ok Examples.det0) by reflexivity.
  split; [exact H|].
  exact (@detector_buffers_stay_bounded _ _ _ _ 300 Examples.det0
           (fun k => zq (Z.of_nat k)) 4 H).
Defined.

(** ** The channel selection on arbitrary tuples *)

Module SelectorFacts.
Import BetterEcgDetector DirectForm SelectorStreams.

Lemma interleaved_at (n : nat) (x : nat -> list Qc) (k i : nat) :
  (i < n)%nat -> interleaved n x (k * n + i)%nat = nth i (x k) 0.
Proof.
  intros Hi. unfold interleaved.
  replace (k * n + i)%nat with (i + k * n)%nat by lia.
  rewrite Nat.Div0.mod_add, Nat.div_add by lia.
  rewrite Nat.mod_small, Nat.div_small by exact Hi. reflexivity.
Qed.

Lemma filtered_length (bb ab : list Qc) (n : nat) (x : nat -> list Qc)
    (c k : nat) : length (filtered bb ab n x c k) = k.
Proof. unfold filtered. rewrite length_map, length_seq. reflexivity. Qed.

Lemma filtered_S (bb ab : list Qc) (n : nat) (x : nat -> list Qc) (c k : nat) :
  filtered bb ab n x c (S k)
  = filtered bb ab n x c k
    ++ (iir_out bb ab (interleaved n x) (k * n + c)%nat :: nil).
Proof. unfold filtered. rewrite seq_S, map_app. reflexivity. Qed.

Section Fed.

Variables bb ab : list Qc.
Variable dur : Qc.
Variable n : nat.
Variable x : nat -> list Qc.

(** One channel of the tuple [x k]. *)
Lemma feed_channel_fed (k i : nat) (b : t) :
  fed bb ab dur n x k i b -> (i < n)%nat -> (i < length (x k))%nat ->
  exists b', feed_channel b i (x k) = Ok b'
             /\ fed bb ab dur n x k (S i) b'.
Proof.
  intros F Hi Hx. unfold feed_channel.
  rewrite (nth_error_nth' (x k) 0 Hx).
  rewrite <- (@interleaved_at n x k i Hi).
  rewrite (fed_filter F).
  pose proof (eq_refl : iir_state bb ab (interleaved n x) (S (k * n + i)%nat)
                        = fst (OnlineFilter.filter
                                 (iir_state bb ab (interleaved n x) (k * n + i)%nat)
                                 (interleaved n x (k * n + i)%nat))) as E1.
  pose proof (eq_refl : iir_out bb ab (interleaved n x) (k * n + i)%nat
                        = snd (OnlineFilter.filter
                                 (iir_state bb ab (interleaved n x) (k * n + i)%nat)
                                 (interleaved n x (k * n + i)%nat))) as E2.
  destruct (OnlineFilter.filter _ _) as [bf value].
  cbn [fst snd] in E1, E2. subst bf value.
  destruct (QrsDetector.qrs_detection _ _) as [det peak].
  eexists. split; [reflexivity|].
  split; cbn [num_ecgs duration ecg_signals baseline_filter ecg_peak_heights].
  - apply F.
  - apply F.
  - rewrite list_set_length. apply F.
  - f_equal. lia.
  - intros c Hc. destruct (Nat.eq_dec c i) as [->|Hne].
    + rewrite list_set_nth_eq by (rewrite (fed_length F); exact Hi).
      rewrite (fed_todo F) by lia. symmetry. apply filtered_S.
    + rewrite list_set_nth_neq by lia. apply (fed_done F). lia.
  - intros c Hc. rewrite list_set_nth_neq by lia. apply (fed_todo F). lia.
  - intros [Hk|[_ Hi0]]; [|lia].
    rewrite (fed_todo F) by lia.
    rewrite length_app, filtered_length. cbn [length].
    replace (300 <? k + 1)%nat with false
      by (symmetry; apply Nat.ltb_ge; lia).
    rewrite andb_false_r, list_set_same.
    apply (fed_heights F). left. exact Hk.
Qed.

(** The rest of the tuple [x k]. *)
Lemma feed_channels_fed (k fuel i : nat) (b : t) :
  fed bb ab dur n x k i b -> (i + fuel = n)%nat -> (n <= length (x k))%nat ->
  exists b', feed_channels b i fuel (x k) = Ok b'
             /\ fed bb ab dur n x k n b'.
Proof.
  revert i b. induction fuel as [|fuel IH]; intros i b F Hn Hx.
  - cbn [feed_channels]. exists b. split; [reflexivity|].
    assert (E : i = n) by lia. rewrite E in F. exact F.
  - cbn [feed_channels].
    destruct (@feed_channel_fed k i b F ltac:(lia) ltac:(lia)) as (b1 & E & F1).
    rewrite E. cbn [bind]. apply IH; [exact F1 | lia | exact Hx].
Qed.

(** A tuple with fewer values than channels. *)
Lemma feed_channels_short (k fuel i : nat) (b : t) :
  fed bb ab dur n x k i b -> (i <= length (x k))%nat ->
  (length (x k) < i + fuel)%nat -> (i + fuel <= n)%nat ->
  feed_channels b i fuel (x k) = Raise IndexError.
Proof.
  revert i b. induction fuel as [|fuel IH]; intros i b F Hi Hx Hn; [lia|].
  cbn [feed_channels].
  destruct (Nat.eq_dec i (length (x k))) as [->|Hne].
  - unfold feed_channel.
    rewrite (proj2 (nth_error_None (x k) (length (x k)))) by lia.
    reflexivity.
  - destruct (@feed_channel_fed k i b F ltac:(lia) ltac:(lia)) as (b1 & E & F1).
    rewrite E. cbn [bind]. apply IH; [exact F1 | lia | lia | lia].
Qed.

Lemma fed_next (k : nat) (b : t) :
  fed bb ab dur n x k n b -> fed bb ab dur n x (S k) 0 b.
Proof.
  intros F. split.
  - apply (fed_channels F).
  - apply (fed_duration F).
  - apply (fed_length F).
  - rewrite (fed_filter F). f_equal. lia.
  - intros c Hc. lia.
  - intros c Hc. apply (fed_done F). lia.
  - intros Hk. apply (fed_heights F). left. lia.
Qed.


(** One call while the window has not elapsed. *)
Lemma find_better_ecg_waits (k : nat) (b : t) :
  fed bb ab dur n x k 0 b -> (1 <= n)%nat -> (n <= length (x k))%nat ->
  zq (Z.of_nat (S k)) < dur ->
  exists b', find_better_ecg b (x k) = Ok (b', (-1)%Z)
             /\ fed bb ab dur n x (S k) 0 b'.
Proof.
  intros F Hn Hx Hk. unfold find_better_ecg. rewrite (fed_channels F).
  destruct (@feed_channels_fed k n 0 b F ltac:(lia) Hx) as (b1 & E & F1).
  rewrite E. cbn [bind].
  rewrite (fed_done F1) by lia. rewrite filtered_length, (fed_duration F1).
  replace (Qcltb (zq (Z.of_nat (S k))) dur) with true
    by (symmetry; apply Qcltb_lt; exact Hk).
  exists b1. split; [reflexivity | apply fed_next; exact F1].
Qed.

Lemma zq_le_lt (j k : nat) :
  (j <= k)%nat -> zq (Z.of_nat k) < dur -> zq (Z.of_nat j) < dur.
Proof.
  intros Hj Hk. destruct (Nat.eq_dec j k) as [->|Hne]; [exact Hk|].
  apply Qclt_trans with (y := zq (Z.of_nat k)); [|exact Hk].
  apply zq_lt. lia.
Qed.

Lemma state_at_fed (b0 : t) (k : nat) :
  fed bb ab dur n x 0 0 b0 -> (1 <= n)%nat ->
  (forall j, (j < k)%nat -> (n <= length (x j))%nat) ->
  (k = 0%nat \/ zq (Z.of_nat k) < dur) ->
  exists b, state_at b0 x k = Ok b /\ fed bb ab dur n x k 0 b.
Proof.
  intros F0 Hn. induction k as [|k IH]; intros Hx Hk.
  - exists b0. split; [reflexivity | exact F0].
  - destruct Hk as [Hk|Hk]; [discriminate|].
    destruct IH as (b & E & F).
    { intros j Hj. apply Hx. lia. }
    { destruct k; [left; reflexivity | right].
      apply (@zq_le_lt (S k) (S (S k))); [lia | exact Hk]. }
    destruct (@find_better_ecg_waits k b F Hn (Hx k ltac:(lia)) Hk)
      as (b' & E' & F').
    exists b'. split; [|exact F'].
    cbn [state_at]. rewrite E. cbn [bind]. rewrite E'. reflexivity.
Qed.

End Fed.

Section Butterworth.

Variables b_baseline a_baseline b_band a_band : list Qc.

Lemma init_fed (num_ECGs : Z) (duration_s : Qc) (fs : Z) (x : nat -> list Qc)
    (b0 : t) :
  init b_baseline a_baseline b_band a_band num_ECGs duration_s fs = Ok b0 ->
  fed b_baseline a_baseline (duration_s * zq fs) (Z.to_nat num_ECGs) x 0 0 b0
  /\ (2 <= Z.to_nat num_ECGs)%nat.
Proof.
  unfold init. destruct (Z.ltb_spec 1 num_ECGs); cbn [negb]; [|discriminate].
  destruct (Qcltb (dec 5 2) duration_s); cbn [negb]; [|discriminate].
  destruct (QuietSelector.detectors_quiet b_baseline a_baseline b_band a_band
              (Z.to_nat num_ECGs)) as (ds & -> & L & F).
  cbn [bind]. intros [= <-]. split; [|lia].
  split; cbn [num_ecgs duration ecg_signals baseline_filter ecg_peak_heights].
  - reflexivity.
  - reflexivity.
  - apply repeat_length.
  - reflexivity.
  - intros c Hc. lia.
  - intros c Hc. unfold filtered. cbn [seq map].
    apply nth_repeat_lt. lia.
  - intros _. reflexivity.
Qed.

End Butterworth.

(** *** The index of the maximum *)

Lemma argmax_from_max (l pre : list num) (best : Qc) (bi i : nat) :
  i = length pre -> (bi < i)%nat ->
  num_val (nth bi pre (PyInt 0)) = best ->
  (forall j, (j < i)%nat -> num_val (nth j pre (PyInt 0)) <= best) ->
  (argmax_from l i best bi < i + length l)%nat
  /\ forall j, (j < i + length l)%nat ->
       num_val (nth j (pre ++ l) (PyInt 0))
       <= num_val (nth (argmax_from l i best bi) (pre ++ l) (PyInt 0)).
Proof.
  revert pre best bi i.
  induction l as [|v t IH]; intros pre best bi i Hi Hb Hv Hmax.
  - cbn [argmax_from length]. rewrite app_nil_r. split; [lia|].
    intros j Hj. rewrite Hv. apply Hmax. lia.
  - cbn [argmax_from length].
    assert (Hlen : S i = length (pre ++ (v :: nil)))
      by (rewrite length_app; cbn [length]; lia).
    assert (Happ : pre ++ v :: t = (pre ++ (v :: nil)) ++ t)
      by (rewrite <- app_assoc; reflexivity).
    rewrite Happ.
    replace (i + S (length t))%nat with (S i + length t)%nat by lia.
    destruct (Qcltb best (num_val v)) eqn:C.
    + apply Qcltb_lt in C. apply IH.
      * exact Hlen.
      * lia.
      * rewrite Hi, nth_middle. reflexivity.
      * intros j Hj. destruct (Nat.eq_dec j i) as [->|Hne].
        -- rewrite Hi, nth_middle. apply Qcle_refl.
        -- rewrite app_nth1 by lia.
           apply Qcle_trans with (y := best); [apply Hmax; lia|].
           apply Qclt_le_weak. exact C.
    + apply Qcltb_ge in C. apply IH.
      * exact Hlen.
      * lia.
      * rewrite app_nth1 by lia. exact Hv.
      * intros j Hj. destruct (Nat.eq_dec j i) as [->|Hne].
        -- rewrite Hi, nth_middle. exact C.
        -- rewrite app_nth1 by lia. apply Hmax. lia.
Qed.

Lemma np_argmax_max (l : list num) :
  l <> [] ->
  exists r, np_argmax l = Ok r /\ (r < length l)%nat
            /\ forall j, (j < length l)%nat ->
                 num_val (nth j l (PyInt 0)) <= num_val (nth r l (PyInt 0)).
Proof.
  destruct l as [|v t]; [congruence|]. intros _.
  exists (argmax_from t 1 (num_val v) 0). split; [reflexivity|].
  apply (@argmax_from_max t (v :: nil) (num_val v) 0 1).
  - reflexivity.
  - lia.
  - reflexivity.
  - intros j Hj. replace j with 0%nat by lia. apply Qcle_refl.
Qed.

Lemma zq_ltb (a b : Z) : Qcltb (zq a) (zq b) = (a <? b)%Z.
Proof.
  destruct (Z.ltb_spec a b) as [H|H].
  - apply Qcltb_lt, zq_lt. exact H.
  - apply Qcltb_ge. unfold zq, Qcle. cbn [this Q2Qc].
    rewrite !Qred_correct. unfold Qle. cbn [Qnum Qden inject_Z]. lia.
Qed.

Lemma ranking_of_two (b : t) (v0 v1 : num) :
  num_ecgs b = 2%nat ->
  get_first_and_second_max_ecg b [v0; v1]
  = Ok (if Qcltb (num_val v0) (num_val v1) then (1%nat, 0%nat)
        else (0%nat, 1%nat)).
Proof.
  intros Hn. unfold get_first_and_second_max_ecg. rewrite Hn.
  cbn [np_argmax argmax_from bind].
  destruct (Qcltb (num_val v0) (num_val v1)); reflexivity.
Qed.

End SelectorFacts.

(** X21: While the window of the initialization has not elapsed, every call
    with tuples of at least as many values as channels returns -1,
    whatever the values are. *)
Theorem selection_waits_for_its_window
    (b_baseline a_baseline b_band a_band : list Qc) (num_ECGs : Z)
    (duration_s : Qc) (fs : Z) (b0 : BetterEcgDetector.t)
    (x : nat -> list Qc) (k : nat) :
  BetterEcgDetector.init b_baseline a_baseline b_band a_band num_ECGs
    duration_s fs = Ok b0 ->
  (forall j, (j <= k)%nat -> (Z.to_nat num_ECGs <= length (x j))%nat) ->
  zq (Z.of_nat (S k)) < duration_s * zq fs ->
  BetterEcgDetector.out_at b0 x k = Ok (-1)%Z.
Proof.
  intros Hinit Hx Hk.
  destruct (@SelectorFacts.init_fed _ _ _ _ _ _ _ x _ Hinit) as [F0 Hn].
  destruct (@SelectorFacts.state_at_fed b_baseline a_baseline
              (duration_s * zq fs) (Z.to_nat num_ECGs) x b0 k F0 ltac:(lia))
    as (b & E & F).
  { intros j Hj. apply Hx. lia. }
  { destruct k; [left; reflexivity | right].
    apply (@SelectorFacts.zq_le_lt _ (S k) (S (S k))); [lia | exact Hk]. }
  destruct (@SelectorFacts.find_better_ecg_waits _ _ _ _ x k b F ltac:(lia)
              (Hx k ltac:(lia)) Hk) as (b' & E' & _).
  unfold BetterEcgDetector.out_at. rewrite E. cbn [bind]. rewrite E'.
  reflexivity.
Qed.

Lemma selection_waits_for_its_window_witness :
  (BetterEcgDetector.init PassThrough.b3 PassThrough.a3 PassThrough.b9
     PassThrough.a9 2 (zq 5) 1024 = Ok Examples.two_quiet_channels
   /\ (forall j, (j <= 7)%nat ->
         (Z.to_nat 2 <= length ((fun k => [zq (Z.of_nat k); zq 1]) j))%nat)
   /\ zq (Z.of_nat (S 7)) < zq 5 * zq 1024)
  /\ BetterEcgDetector.out_at Examples.two_quiet_channels
       (fun k => [zq (Z.of_nat k); zq 1]) 7 = Ok (-1)%Z.
Proof.
  assert (H1 : BetterEcgDetector.init PassThrough.b3 PassThrough.a3
                 PassThrough.b9 PassThrough.a9 2 (zq 5) 1024
               = Ok Examples.two_quiet_channels) by reflexivity.
  assert (H2 : forall j, (j <= 7)%nat ->
                 (Z.to_nat 2 <= length ((fun k => [zq (Z.of_nat k); zq 1]) j))%nat)
    by (intros j _; cbn; lia).
  assert (H3 : zq (Z.of_nat (S 7)) < zq 5 * zq 1024) by reflexivity.
  split; [split; [exact H1 | split; [exact H2 | exact H3]]|].
  exact (@selection_waits_for_its_window _ _ _ _ 2 (zq 5) 1024
           Examples.two_quiet_channels (fun k => [zq (Z.of_nat k); zq 1]) 7
           H1 H2 H3).
Defined.

(** X22: A tuple with fewer values than channels makes the call raise
    [IndexError], when the calls before it were given full tuples within
    the window. *)
Theorem selection_raises_on_a_short_tuple
    (b_baseline a_baseline b_band a_band : list Qc) (num_ECGs : Z)
    (duration_s : Qc) (fs : Z) (b0 : BetterEcgDetector.t)
    (x : nat -> list Qc) (k : nat) :
  BetterEcgDetector.init b_baseline a_baseline b_band a_band num_ECGs
    duration_s fs = Ok b0 ->
  (forall j, (j < k)%nat -> (Z.to_nat num_ECGs <= length (x j))%nat) ->
  (k = 0%nat \/ zq (Z.of_nat k) < duration_s * zq fs) ->
  (length (x k) < Z.to_nat num_ECGs)%nat ->
  BetterEcgDetector.out_at b0 x k = Raise IndexError.
Proof.
  intros Hinit Hx Hk Hshort.
  destruct (@SelectorFacts.init_fed _ _ _ _ _ _ _ x _ Hinit) as [F0 Hn].
  destruct (@SelectorFacts.state_at_fed b_baseline a_baseline
              (duration_s * zq fs) (Z.to_nat num_ECGs) x b0 k F0 ltac:(lia)
              Hx Hk) as (b & E & F).
  unfold BetterEcgDetector.out_at. rewrite E. cbn [bind].
  unfold BetterEcgDetector.find_better_ecg.
  rewrite (SelectorStreams.fed_channels F).
  rewrite (@SelectorFacts.feed_channels_short _ _ _ _ x k (Z.to_nat num_ECGs)
             0 b F ltac:(lia) ltac:(lia) ltac:(lia)).
  reflexivity.
Qed.

Lemma selection_raises_on_a_short_tuple_witness :
  (BetterEcgDetector.init PassThrough.b3 PassThrough.a3 PassThrough.b9
     PassThrough.a9 2 (zq 5) 1024 = Ok Examples.two_quiet_channels
   /\ (forall j, (j < 0)%nat ->
         (Z.to_nat 2 <= length ((fun _ : nat => zq 7 :: nil) j))%nat)
   /\ (0%nat = 0%nat \/ zq (Z.of_nat 0) < zq 5 * zq 1024)
   /\ (length ((fun _ : nat => zq 7 :: nil) 0%nat) < Z.to_nat 2)%nat)
  /\ BetterEcgDetector.out_at Examples.two_quiet_channels
       (fun _ => zq 7 :: nil) 0 = Raise IndexError.
Proof.
  assert (H1 : BetterEcgDetector.init PassThrough.b3 PassThrough.a3
                 PassThrough.b9 PassThrough.a9 2 (zq 5) 1024
               = Ok Examples.two_quiet_channels) by reflexivity.
  assert (H2 : forall j, (j < 0)%nat ->
                 (Z.to_nat 2 <= length ((fun _ : nat => zq 7 :: nil) j))%nat)
    by (intros j Hj; lia).
  assert (H3 : 0%nat = 0%nat \/ zq (Z.of_nat 0) < zq 5 * zq 1024)
    by (left; reflexivity).
  assert (H4 : (length ((fun _ : nat => zq 7 :: nil) 0%nat) < Z.to_nat 2)%nat)
    by (cbn; lia).
  split; [split; [exact H1 | split; [exact H2 | split; [exact H3 | exact H4]]]|].
  exact (@selection_raises_on_a_short_tuple _ _ _ _ 2 (zq 5) 1024
           Examples.two_quiet_channels (fun _ => zq 7 :: nil) 0 H1 H2 H3 H4).
Defined.

(** X23: All channels share one baseline filter: it filters the samples of the
    tuples interleaved, channel by channel, so the value the detector of
    channel [c] receives at tuple [j] is the output number [j * n + c] of
    one IIR filter on the interleaved stream, with the samples of the
    other channels in its memory. *)
Theorem channels_share_one_baseline_filter
    (b_baseline a_baseline b_band a_band : list Qc) (num_ECGs : Z)
    (duration_s : Qc) (fs : Z) (b0 : BetterEcgDetector.t)
    (x : nat -> list Qc) (k : nat) :
  BetterEcgDetector.init b_baseline a_baseline b_band a_band num_ECGs
    duration_s fs = Ok b0 ->
  (forall j, (j < k)%nat -> (Z.to_nat num_ECGs <= length (x j))%nat) ->
  (k = 0%nat \/ zq (Z.of_nat k) < duration_s * zq fs) ->
  exists b, BetterEcgDetector.state_at b0 x k = Ok b
    /\ BetterEcgDetector.baseline_filter b
       = DirectForm.iir_state b_baseline a_baseline
           (SelectorStreams.interleaved (Z.to_nat num_ECGs) x)
           (k * Z.to_nat num_ECGs)%nat
    /\ forall c, (c < Z.to_nat num_ECGs)%nat ->
         nth c (BetterEcgDetector.ecg_signals b) []
         = map (fun j => DirectForm.iir_out b_baseline a_baseline
                           (SelectorStreams.interleaved (Z.to_nat num_ECGs) x)
                           (j * Z.to_nat num_ECGs + c)%nat)
               (seq 0 k).
Proof.
  intros Hinit Hx Hk.
  destruct (@SelectorFacts.init_fed _ _ _ _ _ _ _ x _ Hinit) as [F0 Hn].
  destruct (@SelectorFacts.state_at_fed b_baseline a_baseline
              (duration_s * zq fs) (Z.to_nat num_ECGs) x b0 k F0 ltac:(lia)
              Hx Hk) as (b & E & F).
  exists b. split; [exact E|]. split.
  - rewrite (SelectorStreams.fed_filter F). f_equal. lia.
  - intros c Hc. apply (SelectorStreams.fed_todo F). lia.
Qed.

Lemma channels_share_one_baseline_filter_witness :
  (BetterEcgDetector.init PassThrough.b3 PassThrough.a3 PassThrough.b9
     PassThrough.a9 2 (zq 5) 1024 = Ok Examples.two_quiet_channels
   /\ (forall j, (j < 3)%nat ->
         (Z.to_nat 2 <= length ((fun k => [zq (Z.of_nat k); zq 1]) j))%nat)
   /\ (3%nat = 0%nat \/ zq (Z.of_nat 3) < zq 5 * zq 1024))
  /\ exists b,
       BetterEcgDetector.state_at Examples.two_quiet_channels
         (fun k => [zq (Z.of_nat k); zq 1]) 3 = Ok b
       /\ BetterEcgDetector.baseline_filter b
          = DirectForm.iir_state PassThrough.b3 PassThrough.a3
              (SelectorStreams.interleaved (Z.to_nat 2)
                 (fun k => [zq (Z.of_nat k); zq 1]))
              (3 * Z.to_nat 2)%nat
       /\ forall c, (c < Z.to_nat 2)%nat ->
            nth c (BetterEcgDetector.ecg_signals b) []
            = map (fun j => DirectForm.iir_out PassThrough.b3 PassThrough.a3
                              (SelectorStreams.interleaved (Z.to_nat 2)
                                 (fun k => [zq (Z.of_nat k); zq 1]))
                              (j * Z.to_nat 2 + c)%nat)
                  (seq 0 3).
Proof.
  assert (H1 : BetterEcgDetector.init PassThrough.b3 PassThrough.a3
                 PassThrough.b9 PassThrough.a9 2 (zq 5) 1024
               = Ok Examples.two_quiet_channels) by reflexivity.
  assert (H2 : forall j, (j < 3)%nat ->
                 (Z.to_nat 2 <= length ((fun k => [zq (Z.of_nat k); zq 1]) j))%nat)
    by (intros j _; cbn; lia).
  assert (H3 : 3%nat = 0%nat \/ zq (Z.of_nat 3) < zq 5 * zq 1024)
    by (right; reflexivity).
  split; [split; [exact H1 | split; [exact H2 | exact H3]]|].
  exact (@channels_share_one_baseline_filter _ _ _ _ 2 (zq 5) 1024
           Examples.two_quiet_channels (fun k => [zq (Z.of_nat k); zq 1]) 3
           H1 H2 H3).
Defined.



(** ** The two rankings of the channels *)

Module RankingFacts.
Import BetterEcgDetector SelectorFacts.

Lemma firstn_nth (k : nat) (l : list num) (j : nat) :
  (j < k)%nat -> nth j (firstn k l) (PyInt 0) = nth j l (PyInt 0).
Proof.
  revert l j. induction k as [|k IH]; intros l j H; [lia|].
  destruct l as [|a l]; [reflexivity|].
  destruct j as [|j]; [reflexivity|].
  cbn [firstn nth]. apply IH. lia.
Qed.

Lemma drop_last_nth (l : list num) (j : nat) :
  (j < length l - 1)%nat ->
  nth j (drop_last l) (PyInt 0) = nth j l (PyInt 0).
Proof. intros H. unfold drop_last. apply firstn_nth. exact H. Qed.

Lemma drop_last_length_num (l : list num) :
  length (drop_last l) = (length l - 1)%nat.
Proof. unfold drop_last. rewrite length_firstn. lia. Qed.

End RankingFacts.

(** X24: When the largest value sits at the first or at the last index,
    [get_first_and_second_max_ecg] returns the index of the largest value
    and, as the second, a different index that carries the largest of the
    remaining values. *)
Theorem edge_maximum_gives_the_two_largest (b : BetterEcgDetector.t)
    (values : list num) (first : nat) :
  length values = BetterEcgDetector.num_ecgs b ->
  (2 <= BetterEcgDetector.num_ecgs b)%nat ->
  np_argmax values = Ok first ->
  (first = 0%nat \/ first = (BetterEcgDetector.num_ecgs b - 1)%nat) ->
  exists second,
    BetterEcgDetector.get_first_and_second_max_ecg b values
    = Ok (first, second)
    /\ (second < BetterEcgDetector.num_ecgs b)%nat
    /\ second <> first
    /\ (forall j, (j < BetterEcgDetector.num_ecgs b)%nat ->
          num_val (nth j values (PyInt 0))
          <= num_val (nth first values (PyInt 0)))
    /\ (forall j, (j < BetterEcgDetector.num_ecgs b)%nat -> j <> first ->
          num_val (nth j values (PyInt 0))
          <= num_val (nth second values (PyInt 0))).
Proof.
  intros Hlen Hn Hfirst Hedge.
  assert (Hne : values <> []) by (intros E; rewrite E in Hlen; cbn in Hlen; lia).
  destruct (SelectorFacts.np_argmax_max Hne) as (r & Er & Hr & Hmax).
  rewrite Hfirst in Er. injection Er as <-.
  unfold BetterEcgDetector.get_first_and_second_max_ecg.
  rewrite Hfirst. cbn [bind].
  destruct (Nat.eqb_spec first (BetterEcgDetector.num_ecgs b - 1)) as [E|E].
  - assert (Hd : drop_last values <> []).
    { intros C. apply (f_equal (@length num)) in C.
      rewrite RankingFacts.drop_last_length_num in C. cbn [length] in C. lia. }
    destruct (SelectorFacts.np_argmax_max Hd) as (s & Es & Hs & Hsmax).
    rewrite RankingFacts.drop_last_length_num in Hs, Hsmax.
    rewrite Es. cbn [bind]. exists s.
    split; [reflexivity|]. split; [lia|]. split; [lia|].
    split; [intros j Hj; apply Hmax; lia|].
    intros j Hj Hjf.
    rewrite <- (@RankingFacts.drop_last_nth values j) by lia.
    rewrite <- (@RankingFacts.drop_last_nth values s) by lia.
    apply Hsmax. lia.
  - destruct Hedge as [E0|E0]; [|contradiction]. subst first.
    cbn [Nat.eqb].
    destruct values as [|v0 rest]; [congruence|].
    cbn [skipn length] in *.
    assert (Hrest : rest <> []) by (intros C; rewrite C in Hlen; cbn in Hlen; lia).
    destruct (SelectorFacts.np_argmax_max Hrest) as (s & Es & Hs & Hsmax).
    rewrite Es. cbn [bind]. exists (s + 1)%nat.
    split; [reflexivity|]. split; [lia|]. split; [lia|].
    split; [intros j Hj; apply Hmax; lia|].
    intros j Hj Hjf. destruct j as [|j]; [contradiction|].
    replace (s + 1)%nat with (S s) by lia. cbn [nth]. apply Hsmax. lia.
Qed.

Lemma edge_maximum_gives_the_two_largest_witness :
  (length [PyInt 4; PyInt 9; PyInt 2; PyInt 12]
   = BetterEcgDetector.num_ecgs
       (BetterEcgDetector.mk 0 4 [] [] [] [] FilterBank.dummy)
   /\ (2 <= BetterEcgDetector.num_ecgs
              (BetterEcgDetector.mk 0 4 [] [] [] [] FilterBank.dummy))%nat
   /\ np_argmax [PyInt 4; PyInt 9; PyInt 2; PyInt 12] = Ok 3%nat
   /\ (3%nat = 0%nat
       \/ 3%nat = (BetterEcgDetector.num_ecgs
                     (BetterEcgDetector.mk 0 4 [] [] [] [] FilterBank.dummy)
                   - 1)%nat))
  /\ exists second,
       BetterEcgDetector.get_first_and_second_max_ecg
         (BetterEcgDetector.mk 0 4 [] [] [] [] FilterBank.dummy)
         [PyInt 4; PyInt 9; PyInt 2; PyInt 12] = Ok (3%nat, second)
       /\ (second < BetterEcgDetector.num_ecgs
                      (BetterEcgDetector.mk 0 4 [] [] [] [] FilterBank.dummy))%nat
       /\ second <> 3%nat
       /\ (forall j, (j < BetterEcgDetector.num_ecgs
                            (BetterEcgDetector.mk 0 4 [] [] [] []
                               FilterBank.dummy))%nat ->
             num_val (nth j [PyInt 4; PyInt 9; PyInt 2; PyInt 12] (PyInt 0))
             <= num_val (nth 3 [PyInt 4; PyInt 9; PyInt 2; PyInt 12]
                           (PyInt 0)))
       /\ (forall j, (j < BetterEcgDetector.num_ecgs
                            (BetterEcgDetector.mk 0 4 [] [] [] []
                               FilterBank.dummy))%nat -> j <> 3%nat ->
             num_val (nth j [PyInt 4; PyInt 9; PyInt 2; PyInt 12] (PyInt 0))
             <= num_val (nth second [PyInt 4; PyInt 9; PyInt 2; PyInt 12]
                           (PyInt 0))).
Proof.
  assert (H1 : length [PyInt 4; PyInt 9; PyInt 2; PyInt 12]
               = BetterEcgDetector.num_ecgs
                   (BetterEcgDetector.mk 0 4 [] [] [] [] FilterBank.dummy))
    by reflexivity.
  assert (H2 : (2 <= BetterEcgDetector.num_ecgs
                       (BetterEcgDetector.mk 0 4 [] [] [] []
                          FilterBank.dummy))%nat) by (cbn; lia).
  assert (H3 : np_argmax [PyInt 4; PyInt 9; PyInt 2; PyInt 12] = Ok 3%nat)
    by reflexivity.
  assert (H4 : 3%nat = 0%nat
               \/ 3%nat = (BetterEcgDetector.num_ecgs
                             (BetterEcgDetector.mk 0 4 [] [] [] []
                                FilterBank.dummy) - 1)%nat)
    by (right; reflexivity).
  split; [split; [exact H1 | split; [exact H2 | split; [exact H3 | exact H4]]]|].
  exact (@edge_maximum_gives_the_two_largest _ _ 3 H1 H2 H3 H4).
Defined.

(** X25: With exactly two channels that have each recorded a peak, the
    selection returns the channel with the higher dominant-polarity
    count, channel 0 when the counts are equal: the mean peak heights do
    not influence the result. *)
Theorem two_channels_are_chosen_by_polarity_count (b : BetterEcgDetector.t)
    (h0 h1 : list Qc) (c0 c1 : Z * Z) :
  BetterEcgDetector.num_ecgs b = 2%nat ->
  BetterEcgDetector.ecg_peak_heights b = [h0; h1] ->
  h0 <> [] -> h1 <> [] ->
  BetterEcgDetector.ecg_peak_directions b = [c0; c1] ->
  BetterEcgDetector.score b
  = Ok (if (BetterEcgDetector.most_common_count c0
            <? BetterEcgDetector.most_common_count c1)%Z
        then 1%Z else 0%Z).
Proof.
  intros Hn Hh H0 H1 Hc. unfold BetterEcgDetector.score.
  rewrite Hn, Hh, Hc. cbn [firstn map].
  destruct h0 as [|a0 t0]; [congruence|].
  destruct h1 as [|a1 t1]; [congruence|].
  cbn [BetterEcgDetector.means_of mean bind].
  rewrite !(@SelectorFacts.ranking_of_two b _ _ Hn).
  cbn [num_val]. rewrite SelectorFacts.zq_ltb.
  destruct (Qcltb _ _);
    destruct (BetterEcgDetector.most_common_count c0
              <? BetterEcgDetector.most_common_count c1)%Z;
    cbn [bind]; vm_compute; reflexivity.
Qed.

Lemma two_channels_are_chosen_by_polarity_count_witness :
  (BetterEcgDetector.num_ecgs
     (BetterEcgDetector.mk 0 2 [] [(1, 0); (1, 2)]%Z
        [zq 9 :: nil; [zq 1; zq 2; zq 1]] [] FilterBank.dummy) = 2%nat
   /\ BetterEcgDetector.ecg_peak_heights
        (BetterEcgDetector.mk 0 2 [] [(1, 0); (1, 2)]%Z
           [zq 9 :: nil; [zq 1; zq 2; zq 1]] [] FilterBank.dummy)
      = [zq 9 :: nil; [zq 1; zq 2; zq 1]]
   /\ (zq 9 :: nil) <> [] /\ [zq 1; zq 2; zq 1] <> []
   /\ BetterEcgDetector.ecg_peak_directions
        (BetterEcgDetector.mk 0 2 [] [(1, 0); (1, 2)]%Z
           [zq 9 :: nil; [zq 1; zq 2; zq 1]] [] FilterBank.dummy)
      = [(1, 0); (1, 2)]%Z)
  /\ BetterEcgDetector.score
       (BetterEcgDetector.mk 0 2 [] [(1, 0); (1, 2)]%Z
          [zq 9 :: nil; [zq 1; zq 2; zq 1]] [] FilterBank.dummy)
     = Ok (if (BetterEcgDetector.most_common_count (1, 0)%Z
               <? BetterEcgDetector.most_common_count (1, 2)%Z)%Z
           then 1%Z else 0%Z).
Proof.
  assert (H1 : BetterEcgDetector.num_ecgs
                 (BetterEcgDetector.mk 0 2 [] [(1, 0); (1, 2)]%Z
                    [zq 9 :: nil; [zq 1; zq 2; zq 1]] [] FilterBank.dummy)
               = 2%nat) by reflexivity.
  assert (H2 : BetterEcgDetector.ecg_peak_heights
                 (BetterEcgDetector.mk 0 2 [] [(1, 0); (1, 2)]%Z
                    [zq 9 :: nil; [zq 1; zq 2; zq 1]] [] FilterBank.dummy)
               = [zq 9 :: nil; [zq 1; zq 2; zq 1]]) by reflexivity.
  assert (H3 : (zq 9 :: nil) <> []) by discriminate.
  assert (H4 : [zq 1; zq 2; zq 1] <> []) by discriminate.
  assert (H5 : BetterEcgDetector.ecg_peak_directions
                 (BetterEcgDetector.mk 0 2 [] [(1, 0); (1, 2)]%Z
                    [zq 9 :: nil; [zq 1; zq 2; zq 1]] [] FilterBank.dummy)
               = [(1, 0); (1, 2)]%Z) by reflexivity.
  split; [split; [exact H1 | split; [exact H2 | split; [exact H3 |
          split; [exact H4 | exact H5]]]]|].
  exact (@two_channels_are_chosen_by_polarity_count _ _ _ _ _
           H1 H2 H3 H4 H5).
Defined.

(** ** The denoiser over a stream *)

Module DenoiseStreamFacts.
Import SwtEmgDenoise DenoiseStreams DenoiseFacts QuietStates QuietFacts.

Lemma removelast_length (l : list Qc) :
  length (removelast l) = (length l - 1)%nat.
Proof.
  induction l as [|a [|b t] IH]; cbn [removelast length]; try reflexivity.
  cbn [removelast length] in IH. rewrite IH. lia.
Qed.

Lemma push_median_spec (dq : list Qc) (fs : Z) (v : Qc) :
  exists q m, push_median dq fs v = Ok (q, m)
              /\ (window_bounded fs dq -> window_bounded fs q).
Proof.
  unfold push_median. destruct (median_ok v dq) as [m ->]. cbn [bind].
  eexists; eexists; split; [reflexivity|].
  unfold window_bounded. intros H.
  destruct (Z.ltb_spec fs (4 * Z.of_nat (length (v :: dq)))) as [C|C].
  - rewrite removelast_length. cbn [length]. lia.
  - cbn [length] in *. lia.
Qed.

(** One pass: the pair it writes, and what it does to the windows. *)
Lemma level_pass_spec (fs new last : Z) (n : nat) (st : pass) (idx : nat)
    (coeff : Qc * Qc) (e m : Qc) :
  exists st1 d,
    level_pass fs new last n st idx coeff e m = Ok st1
    /\ emg st1 = list_set idx
                   (if (n - idx =? 3)%nat then (0, d) else (fst coeff, d))
                   (emg st)
    /\ (d = snd coeff \/ d = 0)
    /\ (window_bounded fs (dq1 st) -> window_bounded fs (dq1 st1))
    /\ (window_bounded fs (dq2 st) -> window_bounded fs (dq2 st1))
    /\ (window_bounded fs (dq3 st) -> window_bounded fs (dq3 st1)).
Proof.
  unfold level_pass.
  destruct (n - idx =? 1)%nat; [|destruct (n - idx =? 2)%nat].
  - destruct (push_median_spec (dq1 st) fs (Qcabs (snd coeff)))
      as (q & md & -> & B).
    cbn [bind dq1 dq2 dq3 emg]. eexists; eexists.
    split; [reflexivity|]. split; [reflexivity|].
    split; [destruct (Qcltb _ _); auto|]. auto.
  - destruct (push_median_spec (dq2 st) fs (Qcabs (snd coeff)))
      as (q & md & -> & B).
    cbn [bind dq1 dq2 dq3 emg]. eexists; eexists.
    split; [reflexivity|]. split; [reflexivity|].
    split; [destruct (Qcltb _ _); auto|]. auto.
  - destruct (push_median_spec (dq3 st) fs (Qcabs (snd coeff)))
      as (q & md & -> & B).
    cbn [bind dq1 dq2 dq3 emg]. eexists; eexists.
    split; [reflexivity|]. split; [reflexivity|].
    split; [destruct (Qcltb _ _); auto|]. auto.
Qed.

(** Everything before the reconstruction, on a denoiser with three levels. *)
Lemma thresholded_spec (s : t) (sig : Qc) (peak heartrate : Z) :
  num_level s = 3%nat ->
  length (qrs_thresholds s) = 3%nat ->
  length (emg_thresholds s) = 3%nat ->
  exists fb last st d3 d2 d1 c3 c2 c1,
    ThreeLayerFilterBank.swt (filter_bank s) sig = (fb, (c3, c2, c1))
    /\ thresholded s sig peak heartrate = Ok (fb, last, st)
    /\ emg st = [(0, d3); (fst c2, d2); (fst c1, d1)]
    /\ (d3 = snd c3 \/ d3 = 0) /\ (d2 = snd c2 \/ d2 = 0)
    /\ (d1 = snd c1 \/ d1 = 0)
    /\ (window_bounded (fs s) (coefficients_highpass_1 s) ->
        window_bounded (fs s) (dq1 st))
    /\ (window_bounded (fs s) (coefficients_highpass_2 s) ->
        window_bounded (fs s) (dq2 st))
    /\ (window_bounded (fs s) (coefficients_highpass_3 s) ->
        window_bounded (fs s) (dq3 st)).
Proof.
  intros Hn Hq He.
  destruct (qrs_thresholds s) as [|q0 [|q1 [|q2 [|? ?]]]] eqn:Eq;
    cbn [length] in Hq; try lia.
  destruct (emg_thresholds s) as [|e0 [|e1 [|e2 [|? ?]]]] eqn:Ee;
    cbn [length] in He; try lia.
  unfold thresholded. rewrite Hn, Eq, Ee.
  destruct (ThreeLayerFilterBank.swt (filter_bank s) sig)
    as [fb [[c3 c2] c1]] eqn:Es.
  cbn [level_loop].
  set (new1 := if (_ =? 0)%Z then (- heartrate)%Z else _).
  set (last1 := if (_ =? 0)%Z then 0%Z else _).
  match goal with |- context [level_pass ?f ?a ?b 3 ?st 0 c3 q0 e0] =>
    destruct (level_pass_spec f a b 3 st 0 c3 q0 e0)
      as (st1 & d3 & -> & E1 & K1 & A1 & A2 & A3)
  end.
  cbn [bind].
  destruct (level_pass_spec (fs s) new1 last1 3 st1 1 c2 q1 e1)
    as (st2 & d2 & -> & E2 & K2 & B1 & B2 & B3).
  cbn [bind].
  destruct (level_pass_spec (fs s) new1 last1 3 st2 2 c1 q2 e2)
    as (st3 & d1 & -> & E3 & K3 & C1 & C2 & C3).
  cbn [bind].
  cbn [dq1 dq2 dq3] in A1, A2, A3.
  exists fb, last1, st3, d3, d2, d1, c3, c2, c1.
  split; [reflexivity|]. split; [reflexivity|].
  split; [rewrite E3, E2, E1; reflexivity|].
  split; [exact K1|]. split; [exact K2|]. split; [exact K3|].
  split; [auto|]. split; auto.
Qed.

Lemma swt_emg_denoising_ready (s : t) (sig : Qc) (peak heartrate : Z) :
  ready s ->
  exists s' y, swt_emg_denoising s sig peak heartrate = Ok (s', y)
               /\ ready s' /\ fs s' = fs s.
Proof.
  intros [Hn Hq He W1 W2 W3].
  destruct (@thresholded_spec s sig peak heartrate Hn Hq He)
    as (fb & last & st & d3 & d2 & d1 & c3 & c2 & c1 & _ & Et & Ee & _ & _ & _
        & B1 & B2 & B3).
  unfold swt_emg_denoising. rewrite Et. cbn [bind]. rewrite Ee.
  cbn [iswt_arguments nth snd].
  destruct (ThreeLayerFilterBank.iswt fb _ d3 d2 d1) as [fb1 out].
  eexists; eexists. split; [reflexivity|]. split; [|reflexivity].
  split; cbn [num_level qrs_thresholds emg_thresholds fs
              coefficients_highpass_1 coefficients_highpass_2
              coefficients_highpass_3]; auto.
Qed.

Lemma run_ready (s : t) (ticks : list (Qc * Z * Z)) :
  ready s ->
  exists s' outs, run s ticks = Ok (s', outs)
                  /\ length outs = length ticks
                  /\ ready s' /\ fs s' = fs s.
Proof.
  revert s. induction ticks as [|[[sig peak] hr] rest IH]; intros s R.
  - exists s, []. split; [reflexivity|]. split; [reflexivity|].
    split; [exact R | reflexivity].
  - destruct (@swt_emg_denoising_ready s sig peak hr R)
      as (s1 & y & E & R1 & F1).
    destruct (IH s1 R1) as (s2 & ys & E2 & L & R2 & F2).
    exists s2, (y :: ys). cbn [run]. rewrite E. cbn [bind fst snd].
    rewrite E2. cbn [bind fst snd].
    split; [reflexivity|]. split; [cbn [length]; lia|].
    split; [exact R2 | congruence].
Qed.

Section Wavelet.

Variables dec_lo dec_hi rec_lo rec_hi : list Qc.

Lemma init_ready (fs0 delay0 : Z) :
  ready (init dec_lo dec_hi rec_lo rec_hi fs0 delay0)
  /\ fs (init dec_lo dec_hi rec_lo rec_hi fs0 delay0) = fs0.
Proof.
  split; [|reflexivity].
  split; cbn [init num_level qrs_thresholds emg_thresholds fs
              coefficients_highpass_1 coefficients_highpass_2
              coefficients_highpass_3]; try reflexivity;
    unfold window_bounded; cbn [length]; lia.
Qed.

Lemma init_quiet_three_layer :
  quiet_three_layer (ThreeLayerFilterBank.init dec_lo dec_hi rec_lo rec_hi).
Proof.
  split; cbn [ThreeLayerFilterBank.init ThreeLayerFilterBank.buffer1
              ThreeLayerFilterBank.buffer2
              ThreeLayerFilterBank.decomposition_filter_low_1
              ThreeLayerFilterBank.decomposition_filter_high_1
              ThreeLayerFilterBank.decomposition_filter_low_2
              ThreeLayerFilterBank.decomposition_filter_high_2
              ThreeLayerFilterBank.decomposition_filter_low_3
              ThreeLayerFilterBank.decomposition_filter_high_3
              ThreeLayerFilterBank.recomposition_filter_low_1
              ThreeLayerFilterBank.recomposition_filter_high_1
              ThreeLayerFilterBank.recomposition_filter_low_2
              ThreeLayerFilterBank.recomposition_filter_high_2
              ThreeLayerFilterBank.recomposition_filter_low_3
              ThreeLayerFilterBank.recomposition_filter_high_3];
    try apply all_zero_repeat; apply filter_init_quiet.
Qed.

End Wavelet.

Ltac quiet_call H :=
  let E := fresh "E" in
  let F := fresh "F" in
  let f := fresh "f" in
  let v := fresh "v" in
  destruct (filter_zero H) as [E F];
  destruct (OnlineFilter.filter _ 0) as [f v];
  cbn [fst snd] in E, F; subst v.

(** The decomposition of the sample 0 by a quiet bank. *)
Lemma swt_quiet (fb : ThreeLayerFilterBank.t) :
  quiet_three_layer fb ->
  snd (ThreeLayerFilterBank.swt fb 0) = ((0, 0), (0, 0), (0, 0))
  /\ quiet_three_layer (fst (ThreeLayerFilterBank.swt fb 0)).
Proof.
  intros Q. unfold ThreeLayerFilterBank.swt.
  quiet_call (qt_dl1 Q). quiet_call (qt_dh1 Q).
  quiet_call (qt_dl2 Q). quiet_call (qt_dh2 Q).
  quiet_call (qt_dl3 Q). quiet_call (qt_dh3 Q).
  cbn [fst snd]. split; [reflexivity|].
  split; cbn [ThreeLayerFilterBank.buffer1 ThreeLayerFilterBank.buffer2
              ThreeLayerFilterBank.decomposition_filter_low_1
              ThreeLayerFilterBank.decomposition_filter_high_1
              ThreeLayerFilterBank.decomposition_filter_low_2
              ThreeLayerFilterBank.decomposition_filter_high_2
              ThreeLayerFilterBank.decomposition_filter_low_3
              ThreeLayerFilterBank.decomposition_filter_high_3
              ThreeLayerFilterBank.recomposition_filter_low_1
              ThreeLayerFilterBank.recomposition_filter_high_1
              ThreeLayerFilterBank.recomposition_filter_low_2
              ThreeLayerFilterBank.recomposition_filter_high_2
              ThreeLayerFilterBank.recomposition_filter_low_3
              ThreeLayerFilterBank.recomposition_filter_high_3];
    try assumption; apply Q.
Qed.

Lemma zero_sum : 0 + 0 / zq 2 = 0.
Proof. rewrite zero_div. ring. Qed.

(** The reconstruction from zeros by a quiet bank. *)
Lemma iswt_quiet (fb : ThreeLayerFilterBank.t) :
  quiet_three_layer fb ->
  snd (ThreeLayerFilterBank.iswt fb 0 0 0 0) = 0
  /\ quiet_three_layer (fst (ThreeLayerFilterBank.iswt fb 0 0 0 0)).
Proof.
  intros Q. unfold ThreeLayerFilterBank.iswt, ThreeLayerFilterBank.push.
  quiet_call (qt_rl3 Q). quiet_call (qt_rh3 Q).
  replace (0 + 0) with 0 by ring.
  quiet_call (qt_rl2 Q). quiet_call (qt_rh2 Q).
  rewrite (@all_zero_nth (list_set _ 0 (ThreeLayerFilterBank.buffer2 fb)))
    by (apply all_zero_set; apply Q).
  rewrite zero_sum.
  quiet_call (qt_rl1 Q). quiet_call (qt_rh1 Q).
  rewrite (@all_zero_nth (list_set _ 0 (ThreeLayerFilterBank.buffer1 fb)))
    by (apply all_zero_set; apply Q).
  rewrite zero_sum. cbn [fst snd]. split; [apply zero_div|].
  split; cbn [ThreeLayerFilterBank.buffer1 ThreeLayerFilterBank.buffer2
              ThreeLayerFilterBank.decomposition_filter_low_1
              ThreeLayerFilterBank.decomposition_filter_high_1
              ThreeLayerFilterBank.decomposition_filter_low_2
              ThreeLayerFilterBank.decomposition_filter_high_2
              ThreeLayerFilterBank.decomposition_filter_low_3
              ThreeLayerFilterBank.decomposition_filter_high_3
              ThreeLayerFilterBank.recomposition_filter_low_1
              ThreeLayerFilterBank.recomposition_filter_high_1
              ThreeLayerFilterBank.recomposition_filter_low_2
              ThreeLayerFilterBank.recomposition_filter_high_2
              ThreeLayerFilterBank.recomposition_filter_low_3
              ThreeLayerFilterBank.recomposition_filter_high_3];
    try assumption; try (apply all_zero_set; apply Q); apply Q.
Qed.

(** One call with the sample 0 on a quiet denoiser. *)
Lemma swt_emg_denoising_quiet (s : t) (peak heartrate : Z) :
  ready s -> quiet_three_layer (filter_bank s) ->
  exists s', swt_emg_denoising s 0 peak heartrate = Ok (s', 0)
             /\ ready s' /\ quiet_three_layer (filter_bank s').
Proof.
  intros R Q.
  destruct (@swt_emg_denoising_ready s 0 peak heartrate R)
    as (s1 & y & E & R1 & _).
  destruct R as [Hn Hq He W1 W2 W3].
  destruct (@thresholded_spec s 0 peak heartrate Hn Hq He)
    as (fb & last & st & d3 & d2 & d1 & c3 & c2 & c1 & Es & Et & Ee
        & K3 & K2 & K1 & _).
  destruct (swt_quiet Q) as [Z1 Q1]. rewrite Es in Z1, Q1.
  cbn [fst snd] in Z1, Q1. injection Z1 as -> -> ->.
  cbn [snd] in K3, K2, K1.
  assert (d3 = 0) by (destruct K3; assumption).
  assert (d2 = 0) by (destruct K2; assumption).
  assert (d1 = 0) by (destruct K1; assumption).
  subst d3 d2 d1.
  destruct (iswt_quiet Q1) as [Z2 Q2].
  revert E. unfold swt_emg_denoising. rewrite Et. cbn [bind]. rewrite Ee.
  cbn [iswt_arguments nth snd]. change (zq 0) with 0.
  destruct (ThreeLayerFilterBank.iswt fb 0 0 0 0) as [fb1 out].
  cbn [fst snd] in Z2, Q2. subst out.
  intros E. injection E as <- <-.
  eexists. split; [reflexivity|]. split; [exact R1|]. exact Q2.
Qed.

Lemma run_of_zeros (s : t) (ticks : list (Qc * Z * Z)) :
  ready s -> quiet_three_layer (filter_bank s) ->
  Forall (fun tick => fst (fst tick) = 0) ticks ->
  exists s', run s ticks = Ok (s', repeat 0 (length ticks)).
Proof.
  revert s. induction ticks as [|[[sig peak] hr] rest IH]; intros s R Q F.
  - exists s. reflexivity.
  - inversion F as [|? ? F1 F2]; subst. cbn [fst] in F1. subst sig.
    destruct (@swt_emg_denoising_quiet s peak hr R Q) as (s1 & E & R1 & Q1).
    destruct (IH s1 R1 Q1 F2) as (s2 & E2).
    exists s2. cbn [run]. rewrite E. cbn [bind fst snd]. rewrite E2.
    reflexivity.
Qed.

End DenoiseStreamFacts.

(** X26: Whatever samples, peak flags and heart rates a denoiser receives
    after its construction, no call raises, and none of its three median
    windows ever holds more than [fs / 4] values. *)
Theorem denoiser_windows_stay_bounded (dec_lo dec_hi rec_lo rec_hi : list Qc)
    (fs delay : Z) (ticks : list (Qc * Z * Z)) :
  exists s' outs,
    DenoiseStreams.run
      (SwtEmgDenoise.init dec_lo dec_hi rec_lo rec_hi fs delay) ticks
    = Ok (s', outs)
    /\ length outs = length ticks
    /\ (4 * Z.of_nat (length (SwtEmgDenoise.coefficients_highpass_1 s'))
        <= Z.max 0 fs)%Z
    /\ (4 * Z.of_nat (length (SwtEmgDenoise.coefficients_highpass_2 s'))
        <= Z.max 0 fs)%Z
    /\ (4 * Z.of_nat (length (SwtEmgDenoise.coefficients_highpass_3 s'))
        <= Z.max 0 fs)%Z.
Proof.
  destruct (DenoiseStreamFacts.init_ready dec_lo dec_hi rec_lo rec_hi fs delay)
    as [R0 F0].
  destruct (@DenoiseStreamFacts.run_ready _ ticks R0)
    as (s' & outs & E & L & R & F).
  exists s', outs. split; [exact E|]. split; [exact L|].
  rewrite F0 in F. destruct R as [_ _ _ W1 W2 W3].
  unfold DenoiseStreams.window_bounded in W1, W2, W3.
  rewrite F in W1, W2, W3.
  split; [exact W1|]. split; [exact W2 | exact W3].
Qed.

(** X27: Thresholding keeps a detail coefficient or replaces it by 0: each of
    the three details handed to the inverse transform is the detail that
    [swt] returned for its level, or 0. *)
Theorem details_are_kept_or_zeroed (s : SwtEmgDenoise.t) (sig : Qc)
    (peak heartrate : Z) :
  SwtEmgDenoise.num_level s = 3%nat ->
  length (SwtEmgDenoise.qrs_thresholds s) = 3%nat ->
  length (SwtEmgDenoise.emg_thresholds s) = 3%nat ->
  exists fb last st d3 d2 d1 c3 c2 c1,
    ThreeLayerFilterBank.swt (SwtEmgDenoise.filter_bank s) sig
    = (fb, (c3, c2, c1))
    /\ SwtEmgDenoise.thresholded s sig peak heartrate = Ok (fb, last, st)
    /\ SwtEmgDenoise.iswt_arguments (SwtEmgDenoise.emg st) = (0, d3, d2, d1)
    /\ (d3 = snd c3 \/ d3 = 0) /\ (d2 = snd c2 \/ d2 = 0)
    /\ (d1 = snd c1 \/ d1 = 0).
Proof.
  intros Hn Hq He.
  destruct (@DenoiseStreamFacts.thresholded_spec s sig peak heartrate Hn Hq He)
    as (fb & last & st & d3 & d2 & d1 & c3 & c2 & c1 & Es & Et & Ee
        & K3 & K2 & K1 & _).
  exists fb, last, st, d3, d2, d1, c3, c2, c1.
  split; [exact Es|]. split; [exact Et|].
  split; [rewrite Ee; reflexivity|].
  split; [exact K3|]. split; [exact K2 | exact K1].
Qed.

Lemma details_are_kept_or_zeroed_witness :
  (SwtEmgDenoise.num_level Examples.fresh = 3%nat
   /\ length (SwtEmgDenoise.qrs_thresholds Examples.fresh) = 3%nat
   /\ length (SwtEmgDenoise.emg_thresholds Examples.fresh) = 3%nat)
  /\ exists fb last st d3 d2 d1 c3 c2 c1,
       ThreeLayerFilterBank.swt (SwtEmgDenoise.filter_bank Examples.fresh) 1
       = (fb, (c3, c2, c1))
       /\ SwtEmgDenoise.thresholded Examples.fresh 1 0 768
          = Ok (fb, last, st)
       /\ SwtEmgDenoise.iswt_arguments (SwtEmgDenoise.emg st)
          = (0, d3, d2, d1)
       /\ (d3 = snd c3 \/ d3 = 0) /\ (d2 = snd c2 \/ d2 = 0)
       /\ (d1 = snd c1 \/ d1 = 0).
Proof.
  assert (H1 : SwtEmgDenoise.num_level Examples.fresh = 3%nat) by reflexivity.
  assert (H2 : length (SwtEmgDenoise.qrs_thresholds Examples.fresh) = 3%nat)
    by reflexivity.
  assert (H3 : length (SwtEmgDenoise.emg_thresholds Examples.fresh) = 3%nat)
    by reflexivity.
  split; [split; [exact H1 | split; [exact H2 | exact H3]]|].
  exact (@details_are_kept_or_zeroed Examples.fresh 1 0 768 H1 H2 H3).
Defined.

(** X28: A denoiser that receives the sample 0 on every tick returns 0 on
    every tick, whatever the peak flags and the heart rates are. *)
Theorem denoiser_answers_zeros_with_zeros
    (dec_lo dec_hi rec_lo rec_hi : list Qc) (fs delay : Z)
    (ticks : list (Qc * Z * Z)) :
  Forall (fun tick => fst (fst tick) = 0) ticks ->
  exists s',
    DenoiseStreams.run
      (SwtEmgDenoise.init dec_lo dec_hi rec_lo rec_hi fs delay) ticks
    = Ok (s', repeat 0 (length ticks)).
Proof.
  intros F.
  apply DenoiseStreamFacts.run_of_zeros; [| |exact F].
  - apply DenoiseStreamFacts.init_ready.
  - apply DenoiseStreamFacts.init_quiet_three_layer.
Qed.

Lemma denoiser_answers_zeros_with_zeros_witness :
  Forall (fun tick : Qc * Z * Z => fst (fst tick) = 0)
    [(0, 1%Z, 768%Z); (0, 0%Z, 768%Z); (0, 0%Z, 700%Z)]
  /\ exists s',
       DenoiseStreams.run
         (SwtEmgDenoise.init Db2.dec_lo Db2.dec_hi Db2.rec_lo Db2.rec_hi
            1024 300)
         [(0, 1%Z, 768%Z); (0, 0%Z, 768%Z); (0, 0%Z, 700%Z)]
       = Ok (s', repeat 0 (length [(0, 1%Z, 768%Z); (0, 0%Z, 768%Z);
                                    (0, 0%Z, 700%Z)])).
Proof.
  assert (H : Forall (fun tick : Qc * Z * Z => fst (fst tick) = 0)
                [(0, 1%Z, 768%Z); (0, 0%Z, 768%Z); (0, 0%Z, 700%Z)])
    by (repeat constructor).
  split; [exact H|].
  exact (@denoiser_answers_zeros_with_zeros Db2.dec_lo Db2.dec_hi Db2.rec_lo
           Db2.rec_hi 1024 300 _ H).
Defined.
